(** * analyze-schema-compression.py: the per-table analysis and migration pipeline

    A shallow embedding of [src/analyze-schema-compression.py] and the
    properties of its script synthesis, retry loop, statement executor and
    exit status.

    The script is Python 2.  What the embedding takes from the language:
    - a cell of a fetched row is a dynamically typed value ([PyVal]); what
      the script does to it ([==], [!=], [<], [abs], [str], [%s], [+],
      [.replace], truth value) is defined on every value and raises the
      exception Python raises where it is not applicable;
    - [/] on two ints is floor division;
    - [bool] is a subclass of [int];
    - [sys.exit] with an argument that is neither an int nor None ends the
      process with status 1.

    What it takes as given:
    - the database: the outcome of [execute] (and of the [fetchall] that
      follows it) is a function of the number of statements the connection
      has run and of the statement text; a statement succeeds (with a status
      message and rows), raises an [Exception] (with a message), or is
      interrupted by the user;
    - in [analyze], [get_conn()] returns the worker's connection, and
      [rollback()], [close()], [cleanup()], [time.sleep] and the output
      functions return normally;
    - the values [p.map] collects from the workers;
    - for [main]: the list of options [getopt] returns (or its
      GetoptError), [int] on a str, [re.match], whether the output file
      opens and the pool starts, what the user types at the prompt, and the
      server's answers to [connect] and to the session settings.

    A run is described by its outcome and by the list of its events:
    statements sent to the database, rollbacks, sleeps and output.

    Layout: Python values; exceptions and the error monad; strings;
    configuration; the functions of the script in source order
    ([get_table_attribute], the body of [analyze], [run_commands], the retry
    loop, [analyze], the end of [main], the options of [main], [get_conn],
    the ends of [main]); the vocabulary of the properties and the sample
    inputs; the properties. *)

From Stdlib Require Import ZArith String Ascii List Bool Lia QArith.
From Stdlib Require Import DecimalString.
From stdpp Require Import base option list gmap strings.

Set Warnings "-register-all".

Local Open Scope string_scope.
Local Open Scope Z_scope.

(** ** Python values *)

(** The values the database driver hands back in a row (None, bool, int,
    str) and the lists [main] builds from the workers' return values. *)
Inductive PyVal : Type :=
| PyNone
| PyBool (b : bool)
| PyInt (z : Z)
| PyStr (s : string)
| PyList (l : list PyVal).

(** A row fetched from a cursor is a tuple of cells; [row[i]] is [row !! i]
    and an index past the end raises IndexError. *)
Definition Row : Type := list PyVal.

Definition nl : string := String (ascii_of_nat 10) EmptyString.

(** [bool] is a subclass of [int]: True is 1 and False is 0. *)
Definition py_int_of (v : PyVal) : option Z :=
  match v with
  | PyBool b => Some (if b then 1 else 0)
  | PyInt z => Some z
  | _ => None
  end.

(** [a == b].  Numbers compare by value across bool and int, strings by
    content, lists element-wise; values of unrelated types are unequal. *)
Fixpoint py_eq (a b : PyVal) {struct a} : bool :=
  match a, b with
  | PyNone, PyNone => true
  | PyStr s, PyStr t => String.eqb s t
  | PyList l, PyList m =>
      (fix all2 (l : list PyVal) (m : list PyVal) {struct l} : bool :=
         match l, m with
         | [], [] => true
         | x :: l', y :: m' => py_eq x y && all2 l' m'
         | _, _ => false
         end) l m
  | (PyBool _ | PyInt _), (PyBool _ | PyInt _) =>
      match py_int_of a, py_int_of b with
      | Some x, Some y => Z.eqb x y
      | _, _ => false
      end
  | _, _ => false
  end.

(** [a != b] *)
Definition py_ne (a b : PyVal) : bool := negb (py_eq a b).

(** Truth value of an object in a condition. *)
Definition py_truthy (v : PyVal) : bool :=
  match v with
  | PyNone => false
  | PyBool b => b
  | PyInt z => negb (Z.eqb z 0)
  | PyStr s => negb (String.eqb s "")
  | PyList l => match l with [] => false | _ => true end
  end.

Definition str_of_int (z : Z) : string := NilZero.string_of_int (Z.to_int z).

Definition hex_digit (n : N) : ascii :=
  ascii_of_N (if (n <? 10)%N then 48 + n else 87 + n)%N.

(** [repr] of a str: quoted, with the quote, the backslash and the
    non-printable characters escaped. *)
Definition repr_char (quote c : ascii) : string :=
  let n := N_of_ascii c in
  let bs := ascii_of_nat 92 in
  if Ascii.eqb c quote || Ascii.eqb c bs then String bs (String c "")
  else if (n =? 9)%N then String bs "t"
  else if (n =? 10)%N then String bs "n"
  else if (n =? 13)%N then String bs "r"
  else if (n <? 32)%N || (127 <=? n)%N
       then String bs (String "x" (String (hex_digit (n / 16)) (String (hex_digit (n mod 16)) "")))
  else String c "".

Fixpoint str_contains_char (c : ascii) (s : string) : bool :=
  match s with
  | EmptyString => false
  | String d s' => Ascii.eqb c d || str_contains_char c s'
  end.

Definition repr_str (s : string) : string :=
  let sq := ascii_of_nat 39 in
  let dq := ascii_of_nat 34 in
  let quote := if str_contains_char sq s && negb (str_contains_char dq s) then dq else sq in
  String quote (String.concat "" (List.map (repr_char quote) (list_ascii_of_string s)))
    +:+ String quote "".

(** [repr(v)] *)
Fixpoint py_repr (v : PyVal) : string :=
  match v with
  | PyNone => "None"
  | PyBool b => if b then "True" else "False"
  | PyInt z => str_of_int z
  | PyStr s => repr_str s
  | PyList l => "[" +:+ String.concat ", " (List.map py_repr l) +:+ "]"
  end.

(** [str(v)], which is also what a [%s] conversion inserts. *)
Definition py_str (v : PyVal) : string :=
  match v with
  | PyStr s => s
  | _ => py_repr v
  end.

(** ** Exceptions *)

(** The subclasses of [Exception] the script's own operations raise; errors
    of the database carry the driver's message. *)
Inductive exn : Type :=
| KeyError
| IndexError
| TypeError
| AttributeError
| DatabaseError (message : string).

Inductive result (A : Type) : Type :=
| Ok (a : A)
| Raise (e : exn).
Arguments Ok {A} a.
Arguments Raise {A} e.

Definition bind {A B : Type} (r : result A) (k : A → result B) : result B :=
  match r with
  | Ok a => k a
  | Raise e => Raise e
  end.

Notation "'let*' x ':=' r 'in' k" := (bind r (fun x => k))
  (at level 10, x name, r at level 100, k at level 200).

(** [row[i]] *)
Definition py_index (row : Row) (i : nat) : result PyVal :=
  match row !! i with
  | Some v => Ok v
  | None => Raise IndexError
  end.

(** [abs(v)]: defined on numbers only. *)
Definition py_abs (v : PyVal) : result Z :=
  match py_int_of v with
  | Some z => Ok (Z.abs z)
  | None => Raise TypeError
  end.

(** [s + v] for a str [s]: the right operand has to be a str as well. *)
Definition py_concat (s : string) (v : PyVal) : result string :=
  match v with
  | PyStr t => Ok (s +:+ t)
  | _ => Raise TypeError
  end.

(** [v + s] for a str literal [s]. *)
Definition py_add_str (v : PyVal) (s : string) : result string :=
  match v with
  | PyStr t => Ok (t +:+ s)
  | _ => Raise TypeError
  end.

(** ** Strings *)

Definition upper_char (c : ascii) : ascii :=
  let n := N_of_ascii c in
  if (97 <=? n)%N && (n <=? 122)%N then ascii_of_N (n - 32) else c.

(** [s.upper()] *)
Fixpoint str_upper (s : string) : string :=
  match s with
  | EmptyString => EmptyString
  | String c s' => String (upper_char c) (str_upper s')
  end.

(** [s.replace(old, new)] for a non-empty [old]: the occurrences of [old]
    are replaced from left to right, without overlap.  [skip] counts the
    characters of a matched occurrence still to be dropped. *)
Fixpoint replace_from (old new : string) (skip : nat) (s : string) : string :=
  match s with
  | EmptyString => EmptyString
  | String c s' =>
      match skip with
      | S k => replace_from old new k s'
      | O =>
          if String.prefix old s
          then new +:+ replace_from old new (String.length old - 1) s'
          else String c (replace_from old new 0 s')
      end
  end.

Definition str_replace (s old new : string) : string := replace_from old new 0 s.

(** [v.replace(old, new)]: only a str has the method. *)
Definition py_replace (v : PyVal) (old new : string) : result PyVal :=
  match v with
  | PyStr s => Ok (PyStr (str_replace s old new))
  | _ => Raise AttributeError
  end.

(** ** Configuration, status codes *)

Definition OK : Z := 0.
Definition ERROR : Z := 1.
Definition INVALID_ARGS : Z := 2.
Definition NO_WORK : Z := 3.
Definition TERMINATED_BY_USER : Z := 4.
Definition NO_CONNECTION : Z := 5.

(** [RETRY_TIMEOUT = 100/1000].  The script is Python 2 (it uses the
    [print] statement and has no [from __future__ import division]), where
    [/] on two ints is floor division. *)
Definition RETRY_TIMEOUT : Z := 100 / 1000.

(** The module globals a worker reads, as [main] leaves them: the command
    line gives strings, [main] has already replaced a missing
    [target_schema] by [analyze_schema]. *)
Record Config : Type := {
  analyze_schema : string;
  target_schema : string;
  debug : bool;
  do_execute : bool;
  ignore_errors : bool;
  force : bool;
  drop_old_data : bool;
  comprows : option Z;
  pid : Z                  (* os.getpid() *)
}.

(** ** get_table_attribute *)

(** The first item whose cell 0 equals [column_name] decides; falling off
    the end of the loop returns None. *)
Fixpoint get_table_attribute (description_list : list Row) (column_name : PyVal)
    (index : nat) : result PyVal :=
  match description_list with
  | [] => Ok PyNone
  | item :: rest =>
      let* name := py_index item 0 in
      if py_eq name column_name then py_index item index
      else get_table_attribute rest column_name index
  end.

(** ** analyze: the loop over the rows of the analyzer (lines 279-321) *)

(** [v < n] for an int [n].  Python 2 orders None below every number and
    numbers below the other types. *)
Definition py_lt_int (v : PyVal) (n : Z) : bool :=
  match v with
  | PyNone => true
  | PyBool _ | PyInt _ =>
      match py_int_of v with Some z => z <? n | None => false end
  | _ => false
  end.

Record Scan : Type := {
  found_non_raw : bool;
  encode_columns : list string;
  sortkeys : gmap Z PyVal;
  has_zindex_sortkeys : bool
}.

Definition scan_init : Scan :=
  {| found_non_raw := false; encode_columns := [];
     sortkeys := ∅; has_zindex_sortkeys := false |}.

(** ['%s %s %s encode %s %s' % (col, col_type, col_null, compression, distkey)] *)
Definition column_spec (col col_type : PyVal) (col_null : string)
    (compression : PyVal) (distkey : string) : string :=
  py_str col +:+ " " +:+ py_str col_type +:+ " " +:+ col_null +:+ " encode "
    +:+ py_str compression +:+ " " +:+ distkey.

(** The [distkey] clause of a column (lines 292-296). *)
Definition distkey_clause (distkey : PyVal) : string :=
  if py_truthy distkey || String.eqb (str_upper (py_str distkey)) "TRUE"
  then "DISTKEY" else "".

(** The null clause of a column (lines 314-318). *)
Definition null_clause (col_null : PyVal) : string :=
  if py_eq col_null (PyStr "true") then "NOT NULL" else "".

(** The encoding of a column (lines 308-311). *)
Definition compression_of (sortkey : PyVal) (recommended : PyVal) : result PyVal :=
  let* a := py_abs sortkey in
  Ok (if a =? 1 then PyStr "RAW" else recommended).

(** The sort-key bookkeeping of a column (lines 300-305). *)
Definition record_sortkey (sortkey col : PyVal) (st : Scan) : result (gmap Z PyVal * bool) :=
  if py_ne sortkey (PyInt 0) then
    let* k := py_abs sortkey in
    Ok (<[k := col]> (sortkeys st),
        if py_lt_int sortkey 0 then true else has_zindex_sortkeys st)
  else Ok (sortkeys st, has_zindex_sortkeys st).

(** One iteration of [for row in output]. *)
Definition scan_row (descr : list Row) (row : Row) (st : Scan) : result Scan :=
  let* col := py_index row 1 in
  let* recommended := py_index row 2 in
  let found := if py_ne recommended (PyStr "raw") then true else found_non_raw st in
  let* col_type := get_table_attribute descr col 1 in
  let* col_type := py_replace col_type "character varying" "varchar" in
  let* col_type := py_replace col_type "without time zone" "" in
  let* distkey := get_table_attribute descr col 3 in
  let* sortkey := get_table_attribute descr col 4 in
  let* keys := record_sortkey sortkey col st in
  let* compression := compression_of sortkey recommended in
  let* col_null := get_table_attribute descr col 5 in
  Ok {| found_non_raw := found;
        encode_columns :=
          (encode_columns st ++
             [column_spec col col_type (null_clause col_null) compression
                (distkey_clause distkey)])%list;
        sortkeys := fst keys;
        has_zindex_sortkeys := snd keys |}.

Fixpoint scan_rows (descr : list Row) (output : list Row) (st : Scan) : result Scan :=
  match output with
  | [] => Ok st
  | row :: rest =>
      let* st' := scan_row descr row st in
      scan_rows descr rest st'
  end.

(** ** analyze: the statements of the plan (lines 264-269 and 323-369) *)

(** [for i, s in enumerate(encode_columns): create_table += ...], started
    at index [i]. *)
Fixpoint add_columns (create_table : string) (i : nat) (columns : list string) : string :=
  match columns with
  | [] => create_table
  | s :: rest =>
      add_columns (create_table +:+ nl +:+ (if (i =? 0)%nat then "" else ",") +:+ s)
        (S i) rest
  end.

(** One iteration of [for i in range(1, len(sortkeys)+1)]: [sortkeys[i]]
    raises KeyError for a missing key. *)
Definition sortkey_step (keys : gmap Z PyVal) (sortkey : string) (i : nat)
  : result string :=
  match keys !! Z.of_nat i with
  | None => Raise KeyError
  | Some col =>
      let* sortkey := py_concat sortkey col in
      Ok (if negb (i =? size keys)%nat then sortkey +:+ "," else sortkey +:+ ")" +:+ nl)
  end.

Fixpoint sortkey_loop (keys : gmap Z PyVal) (range : list nat) (sortkey : string)
  : result string :=
  match range with
  | [] => Ok sortkey
  | i :: rest =>
      let* sortkey := sortkey_step keys sortkey i in
      sortkey_loop keys rest sortkey
  end.

(** The text of the sort-key block (lines 332-340). *)
Definition sortkey_clause (st : Scan) : result string :=
  sortkey_loop (sortkeys st) (seq 1 (size (sortkeys st)))
    (nl +:+ (if has_zindex_sortkeys st then "INTERLEAVED " else "") +:+ "SORTKEY(").

(** The name of the table that is created (lines 264-267). *)
Definition target_table (cfg : Config) (table_name : PyVal) : string :=
  if String.eqb (target_schema cfg) (analyze_schema cfg)
  then py_str table_name +:+ "_$mig"
  else py_str table_name.

Definition create_table_head (cfg : Config) (table_name : PyVal) : string :=
  "-- creating migration table for " +:+ py_str table_name +:+ nl +:+ "begin;" +:+ nl
    +:+ nl +:+ "create table " +:+ target_schema cfg +:+ "." +:+ target_table cfg table_name
    +:+ "(".

(** The create-table statement (lines 325-343). *)
Definition create_table_stmt (cfg : Config) (table_name : PyVal) (st : Scan)
  : result string :=
  let create_table := add_columns (create_table_head cfg table_name) 0 (encode_columns st) in
  let create_table := create_table +:+ nl +:+ ")" in
  let* create_table :=
    if (0 <? size (sortkeys st))%nat then
      let* sortkey := sortkey_clause st in
      Ok (create_table +:+ (" " +:+ sortkey +:+ " "))
    else Ok create_table in
  Ok (create_table +:+ ";" +:+ nl).

Definition insert_stmt (cfg : Config) (table_name : PyVal) : string :=
  "-- migrating data to new structure" +:+ nl +:+ "insert into " +:+ target_schema cfg
    +:+ "." +:+ target_table cfg table_name +:+ " select * from " +:+ analyze_schema cfg
    +:+ "." +:+ py_str table_name +:+ ";" +:+ nl.

Definition analyze_stmt (cfg : Config) (table_name : PyVal) : string :=
  "analyze " +:+ target_schema cfg +:+ "." +:+ target_table cfg table_name +:+ ";" +:+ nl.

Definition drop_stmt (cfg : Config) (table_name : PyVal) : string :=
  "drop table " +:+ target_schema cfg +:+ "." +:+ py_str table_name +:+ ";" +:+ nl.

(** ['alter table %s.%s rename to %s;\n' % (schema, old, new)] *)
Definition alter_rename (schema old new : string) : string :=
  "alter table " +:+ schema +:+ "." +:+ old +:+ " rename to " +:+ new +:+ ";" +:+ nl.

Definition rename_old_stmt (cfg : Config) (table_name : PyVal) : result string :=
  let* old := py_add_str table_name "_$old" in
  Ok (alter_rename (target_schema cfg) (py_str table_name) old).

Definition rename_stmt (cfg : Config) (table_name : PyVal) : string :=
  alter_rename (target_schema cfg) (target_table cfg table_name) (py_str table_name).

Definition commit_stmt : string := "commit;" +:+ nl.

(** The swap of the two tables (lines 356-367): nothing when the table is
    created in another schema. *)
Definition swap_stmts (cfg : Config) (table_name : PyVal) : result (list string) :=
  if String.eqb (target_schema cfg) (analyze_schema cfg) then
    let* drop :=
      if drop_old_data cfg then Ok (drop_stmt cfg table_name)
      else rename_old_stmt cfg table_name in
    Ok [drop; rename_stmt cfg table_name]
  else Ok [].

(** The list [statements] when the plan is built (lines 323-369). *)
Definition plan_stmts (cfg : Config) (table_name : PyVal) (st : Scan)
  : result (list string) :=
  let* create_table := create_table_stmt cfg table_name st in
  let* swap := swap_stmts cfg table_name in
  Ok ([create_table] ++ [insert_stmt cfg table_name] ++ [analyze_stmt cfg table_name]
        ++ swap ++ [commit_stmt])%list.

(** Lines 272-369, once the rows of the analyzer and the table description
    are known: the plan is built only if a column is recommended an
    encoding other than 'raw' or [force] is set; otherwise [statements]
    stays empty ([None] here). *)
Definition synthesize (cfg : Config) (table_name : PyVal) (descr output : list Row)
  : result (option (list string)) :=
  let* st := scan_rows descr output scan_init in
  if found_non_raw st || force cfg then
    let* statements := plan_stmts cfg table_name st in
    Ok (Some statements)
  else Ok None.

(** The list [statements] at line 383. *)
Definition statements_of (plan : option (list string)) : list string :=
  default [] plan.

(** ** The database session and the events of a run *)

(** What [cursor.execute(sql)], followed where the script does so by
    [fetchall()], comes to. *)
Inductive ExecOutcome : Type :=
| ExecDone (statusmessage : string) (rows : list Row)
| ExecFails (message : string)      (* an [Exception] [e], with [e.message] *)
| ExecInterrupted.                  (* KeyboardInterrupt *)

(** The server as seen through one connection: the outcome of an [execute]
    is a function of how many statements the connection ran before and of
    the text of this one. *)
Definition Database : Type := nat → string → ExecOutcome.

(** What a run does to the session and to its output. *)
Inductive Event : Type :=
| EvExecute (sql : string)
| EvRollback
| EvSleep (seconds : Z)
| EvWrite (text : string)           (* [write(text)]: console and output file *)
| EvPrint (text : string)           (* the [print] statement: console only *)
| EvCleanup.

(** How control leaves a function. *)
Inductive Outcome (A : Type) : Type :=
| Returned (a : A)
| Exited (status : Z)               (* [sys.exit(status)] *)
| Interrupted                       (* a KeyboardInterrupt propagates *)
| Uncaught (e : exn)                (* an exception propagates *)
| Handled (e : exn).                (* [analyze]: the handler of line 376 runs for [e] *)
Arguments Returned {A} a.
Arguments Exited {A} status.
Arguments Interrupted {A}.
Arguments Uncaught {A} e.
Arguments Handled {A} e.

(** A step of a run: how it ended, how many statements the connection has
    run by then, and the events in the order they happened. *)
Definition Run (A : Type) : Type := Outcome A * (nat * list Event).

Definition outcome {A : Type} (r : Run A) : Outcome A := fst r.
Definition executed {A : Type} (r : Run A) : nat := fst (snd r).
Definition events {A : Type} (r : Run A) : list Event := snd (snd r).

(** The events [evs] happened first, then the run [r]. *)
Definition after {A : Type} (evs : list Event) (r : Run A) : Run A :=
  (outcome r, (executed r, (evs ++ events r)%list)).

(** [comment(string)]: [re.match('.*\\n.*', string)] succeeds exactly on a
    string with a newline in it. *)
Definition comment_text (cfg : Config) (s : string) : string :=
  if str_contains_char (ascii_of_nat 10) s
  then "/* [" +:+ str_of_int (pid cfg) +:+ "]" +:+ nl +:+ s +:+ nl +:+ "*/" +:+ nl
  else "-- [" +:+ str_of_int (pid cfg) +:+ "] " +:+ s.

Definition comment (cfg : Config) (s : string) : Event := EvWrite (comment_text cfg s).

Definition debug_comment (cfg : Config) (s : string) : list Event :=
  if debug cfg then [comment cfg s] else [].

(** ** run_commands *)

Definition running_text (cfg : Config) (c : string) : string :=
  "[" +:+ str_of_int (pid cfg) +:+ "] Running " +:+ c +:+ ": " +:+ nl.

(** [n] is the number of statements the connection ran before the call. *)
Fixpoint run_commands (cfg : Config) (db : Database) (n : nat) (commands : list string)
  : Run bool :=
  match commands with
  | [] => (Returned true, (n, []))
  | c :: rest =>
      match db n c with
      | ExecDone statusmessage _ =>
          after [comment cfg (running_text cfg c); EvExecute c; comment cfg statusmessage]
            (run_commands cfg db (S n) rest)
      | ExecFails message =>
          (Returned false,
           (S n, [comment cfg (running_text cfg c); EvExecute c; EvRollback; EvWrite message]))
      | ExecInterrupted =>
          (Interrupted, (S n, [comment cfg (running_text cfg c); EvExecute c]))
      end
  end.

(** ** analyze: the retry loop (lines 238-258) *)

Definition analyze_retry : Z := 10.

Record Retry : Type := {
  output : option (list Row);
  attempt_count : Z;
  last_exception : option string      (* the message of the exception *)
}.

Definition retry_init : Retry :=
  {| output := None; attempt_count := 0; last_exception := None |}.

(** [attempt_count < analyze_retry and output == None] *)
Definition retry_continues (s : Retry) : bool :=
  (attempt_count s <? analyze_retry)
  && match output s with None => true | Some _ => false end.

(** The [while] loop.  An attempt that raises an [Exception] counts, keeps
    the exception and sleeps; line 255, [local_conn.rollback], names the
    method without calling it, so it contributes no event.  The loop is
    unfolded at most [fuel] times; [None] means the fuel did not suffice. *)
Fixpoint retry_loop (db : Database) (statement : string) (fuel : nat)
    (s : Retry) (n : nat) : option (Run Retry) :=
  if retry_continues s then
    match fuel with
    | O => None
    | S fuel' =>
        match db n statement with
        | ExecDone _ rows =>
            after [EvExecute statement] <$>
              retry_loop db statement fuel'
                {| output := Some rows; attempt_count := attempt_count s;
                   last_exception := last_exception s |} (S n)
        | ExecInterrupted =>
            Some (Exited TERMINATED_BY_USER, (S n, [EvExecute statement; EvCleanup]))
        | ExecFails message =>
            let attempt_count' := attempt_count s + 1 in
            after [EvExecute statement; EvSleep (2 ^ attempt_count' * RETRY_TIMEOUT)] <$>
              retry_loop db statement fuel'
                {| output := None; attempt_count := attempt_count';
                   last_exception := Some message |} (S n)
        end
    end
  else Some (Returned s, (n, [])).

(** ** get_table_desc *)

Definition dquote : string := String (ascii_of_nat 34) EmptyString.

Definition table_desc_statement (cfg : Config) (table_name : PyVal) : string :=
  "select " +:+ dquote +:+ "column" +:+ dquote +:+ ", type, encoding, distkey, sortkey, "
    +:+ dquote +:+ "notnull" +:+ dquote +:+ nl
    +:+ " from pg_table_def" +:+ nl
    +:+ " where schemaname = '" +:+ analyze_schema cfg +:+ "'" +:+ nl
    +:+ " and tablename = '" +:+ py_str table_name +:+ "'" +:+ nl.

(** ** analyze *)

Definition analyze_statement (cfg : Config) (table_name : PyVal) : string :=
  let statement := "analyze compression " +:+ py_str table_name in
  match comprows cfg with
  | Some rows => statement +:+ " comprows " +:+ str_of_int rows
  | None => statement
  end.

Definition analysing_text (table_name : PyVal) : string :=
  "-- Analysing Table '" +:+ py_str table_name +:+ "'" +:+ nl.

Definition unable_text (table_name : PyVal) (message : string) : string :=
  "Unable to Analyze " +:+ py_str table_name +:+ " due to Exception " +:+ message.

(** What a [result] computed inside the [try] block means for [analyze]:
    an exception is caught at line 376. *)
Definition caught {A : Type} (evs : list Event) (n : nat) (e : exn) : Run A :=
  (Handled e, (n, evs)).

(** Lines 371-385: the optional execution of a plan, then
    [print_statements(statements)] and [return OK].  Without a plan there
    is nothing to run and nothing to print. *)
Definition finish (cfg : Config) (db : Database) (n : nat) (plan : option (list string))
  : Run Z :=
  match plan with
  | None => (Returned OK, (n, []))
  | Some statements =>
      let emit := List.map EvWrite statements in
      if do_execute cfg then
        let r := run_commands cfg db n statements in
        match outcome r with
        | Returned false =>
            if ignore_errors cfg then (Returned OK, (executed r, (events r ++ emit)%list))
            else (Returned ERROR, (executed r, events r))
        | Returned true => (Returned OK, (executed r, (events r ++ emit)%list))
        | Exited status => (Exited status, snd r)
        | Interrupted => (Interrupted, snd r)
        | Uncaught e => (Uncaught e, snd r)
        | Handled e => (Handled e, snd r)
        end
      else (Returned OK, (n, emit))
  end.

(** Lines 260-385, once the retry loop has ended in state [s] with [n]
    statements run: the report of an exhausted analysis, or the table
    description and the synthesis. *)
Definition after_retry (cfg : Config) (db : Database) (table_name : PyVal)
    (s : Retry) (n : nat) : Run Z :=
  match output s with
  | None =>
      match last_exception s with
      | Some message => (Returned ERROR, (n, [EvPrint (unable_text table_name message)]))
      | None => caught [] n AttributeError    (* [None.message] *)
      end
  | Some rows =>
      let statement := table_desc_statement cfg table_name in
      let ask := (debug_comment cfg statement ++ [EvExecute statement])%list in
      match db n statement with
      | ExecDone _ descr =>
          match synthesize cfg table_name descr rows with
          | Ok plan => after ask (finish cfg db (S n) plan)
          | Raise e => caught ask (S n) e
          end
      | ExecFails message => caught ask (S n) (DatabaseError message)
      | ExecInterrupted => (Interrupted, (S n, ask))
      end
  end.

(** [analyze(tables)], on a connection that ran [n] statements before.
    [get_conn()] is taken to return the worker's cached connection.
    [None]: the fuel given to the retry loop did not suffice. *)
Definition analyze_with (fuel : nat) (cfg : Config) (db : Database) (n : nat)
    (tables : Row) : option (Run Z) :=
  match py_index tables 0 with
  | Raise e => Some (Uncaught e, (n, []))
  | Ok table_name =>
      let statement := analyze_statement cfg table_name in
      let start :=
        (debug_comment cfg statement ++ [EvWrite (analysing_text table_name)])%list in
      r ← retry_loop db statement fuel retry_init n;
      Some (after start
        match outcome r with
        | Returned s => after (events r) (after_retry cfg db table_name s (executed r))
        | Exited status => (Exited status, snd r)
        | Interrupted => (Interrupted, snd r)
        | Uncaught e => (Uncaught e, snd r)
        | Handled e => (Handled e, snd r)
        end)
  end.

Definition analyze (cfg : Config) (db : Database) (n : nat) (tables : Row)
  : option (Run Z) :=
  analyze_with (Z.to_nat analyze_retry) cfg db n tables.

(** ** main: the exit status (lines 593-627) *)

(** [sys.exit(arg)]: an integer is the status, None is 0, any other object
    is printed to stderr and the status is 1. *)
Definition sys_exit (arg : PyVal) : Z :=
  match arg with
  | PyNone => 0
  | PyBool _ | PyInt _ => match py_int_of arg with Some z => z | None => 1 end
  | _ => 1
  end.

(** [for ret in worker_output: if ret != OK: sys.exit(ret)], then
    [sys.exit(OK)]. *)
Fixpoint exit_on_worker_output (worker_output : list PyVal) : Z :=
  match worker_output with
  | [] => sys_exit (PyInt OK)
  | ret :: rest =>
      if py_ne ret (PyInt OK) then sys_exit ret else exit_on_worker_output rest
  end.

(** How [p.map(analyze, analyze_tables)] ends: with the list of the values
    the workers returned, or with an exception. *)
Inductive MapOutcome : Type :=
| MapDone (result : list Z)
| MapInterrupted                   (* KeyboardInterrupt *)
| MapRaised.                       (* any other exception *)

(** The exit status of [main] from line 593 on.  [analyze_tables] is what
    [cur.fetchall()] returned; the script also provides for None. *)
Definition main_exit (analyze_tables : option (list Row)) (pool : MapOutcome) : Z :=
  match analyze_tables with
  | Some _ =>
      match pool with
      | MapDone result =>
          (* worker_output.append([result]) *)
          exit_on_worker_output ([] ++ [PyList [PyList (List.map PyInt result)]])%list
      | MapInterrupted => sys_exit (PyInt TERMINATED_BY_USER)
      | MapRaised => sys_exit (PyInt ERROR)
      end
  | None => exit_on_worker_output []
  end.

(** ** main: the module globals and the options (lines 59-77 and 410-522) *)

(** The module globals, and [main]'s local [output_file]. *)
Record Globals : Type := {
  g_db : option string;
  g_db_user : option string;
  g_db_pwd : option string;
  g_db_host : option string;
  g_db_port : PyVal;
  g_analyze_schema : string;
  g_target_schema : option string;
  g_analyze_table : option string;
  g_debug : bool;
  g_threads : Z;
  g_do_execute : bool;
  g_query_slot_count : Z;
  g_ignore_errors : bool;
  g_force : bool;
  g_drop_old_data : bool;
  g_comprows : option Z;
  g_output_file : option string
}.

(** The values the module gives its globals (lines 59-77). *)
Definition initial_globals : Globals :=
  {| g_db := None; g_db_user := None; g_db_pwd := None; g_db_host := None;
     g_db_port := PyInt 5439; g_analyze_schema := "public"; g_target_schema := None;
     g_analyze_table := None; g_debug := false; g_threads := 2; g_do_execute := false;
     g_query_slot_count := 1; g_ignore_errors := false; g_force := false;
     g_drop_old_data := false; g_comprows := None; g_output_file := None |}.

Definition set_db (v : option string) (g : Globals) : Globals :=
  {| g_db := v; g_db_user := g_db_user g; g_db_pwd := g_db_pwd g; g_db_host :=
     g_db_host g; g_db_port := g_db_port g; g_analyze_schema := g_analyze_schema g;
     g_target_schema := g_target_schema g; g_analyze_table := g_analyze_table g;
     g_debug := g_debug g; g_threads := g_threads g; g_do_execute := g_do_execute g;
     g_query_slot_count := g_query_slot_count g; g_ignore_errors := g_ignore_errors
     g; g_force := g_force g; g_drop_old_data := g_drop_old_data g; g_comprows :=
     g_comprows g; g_output_file := g_output_file g |}.

Definition set_db_user (v : option string) (g : Globals) : Globals :=
  {| g_db := g_db g; g_db_user := v; g_db_pwd := g_db_pwd g; g_db_host := g_db_host
     g; g_db_port := g_db_port g; g_analyze_schema := g_analyze_schema g;
     g_target_schema := g_target_schema g; g_analyze_table := g_analyze_table g;
     g_debug := g_debug g; g_threads := g_threads g; g_do_execute := g_do_execute g;
     g_query_slot_count := g_query_slot_count g; g_ignore_errors := g_ignore_errors
     g; g_force := g_force g; g_drop_old_data := g_drop_old_data g; g_comprows :=
     g_comprows g; g_output_file := g_output_file g |}.

Definition set_db_pwd (v : option string) (g : Globals) : Globals :=
  {| g_db := g_db g; g_db_user := g_db_user g; g_db_pwd := v; g_db_host := g_db_host
     g; g_db_port := g_db_port g; g_analyze_schema := g_analyze_schema g;
     g_target_schema := g_target_schema g; g_analyze_table := g_analyze_table g;
     g_debug := g_debug g; g_threads := g_threads g; g_do_execute := g_do_execute g;
     g_query_slot_count := g_query_slot_count g; g_ignore_errors := g_ignore_errors
     g; g_force := g_force g; g_drop_old_data := g_drop_old_data g; g_comprows :=
     g_comprows g; g_output_file := g_output_file g |}.

Definition set_db_host (v : option string) (g : Globals) : Globals :=
  {| g_db := g_db g; g_db_user := g_db_user g; g_db_pwd := g_db_pwd g; g_db_host :=
     v; g_db_port := g_db_port g; g_analyze_schema := g_analyze_schema g;
     g_target_schema := g_target_schema g; g_analyze_table := g_analyze_table g;
     g_debug := g_debug g; g_threads := g_threads g; g_do_execute := g_do_execute g;
     g_query_slot_count := g_query_slot_count g; g_ignore_errors := g_ignore_errors
     g; g_force := g_force g; g_drop_old_data := g_drop_old_data g; g_comprows :=
     g_comprows g; g_output_file := g_output_file g |}.

Definition set_db_port (v : PyVal) (g : Globals) : Globals :=
  {| g_db := g_db g; g_db_user := g_db_user g; g_db_pwd := g_db_pwd g; g_db_host :=
     g_db_host g; g_db_port := v; g_analyze_schema := g_analyze_schema g;
     g_target_schema := g_target_schema g; g_analyze_table := g_analyze_table g;
     g_debug := g_debug g; g_threads := g_threads g; g_do_execute := g_do_execute g;
     g_query_slot_count := g_query_slot_count g; g_ignore_errors := g_ignore_errors
     g; g_force := g_force g; g_drop_old_data := g_drop_old_data g; g_comprows :=
     g_comprows g; g_output_file := g_output_file g |}.

Definition set_analyze_schema (v : string) (g : Globals) : Globals :=
  {| g_db := g_db g; g_db_user := g_db_user g; g_db_pwd := g_db_pwd g; g_db_host :=
     g_db_host g; g_db_port := g_db_port g; g_analyze_schema := v; g_target_schema
     := g_target_schema g; g_analyze_table := g_analyze_table g; g_debug := g_debug
     g; g_threads := g_threads g; g_do_execute := g_do_execute g; g_query_slot_count
     := g_query_slot_count g; g_ignore_errors := g_ignore_errors g; g_force :=
     g_force g; g_drop_old_data := g_drop_old_data g; g_comprows := g_comprows g;
     g_output_file := g_output_file g |}.

Definition set_target_schema (v : option string) (g : Globals) : Globals :=
  {| g_db := g_db g; g_db_user := g_db_user g; g_db_pwd := g_db_pwd g; g_db_host :=
     g_db_host g; g_db_port := g_db_port g; g_analyze_schema := g_analyze_schema g;
     g_target_schema := v; g_analyze_table := g_analyze_table g; g_debug := g_debug
     g; g_threads := g_threads g; g_do_execute := g_do_execute g; g_query_slot_count
     := g_query_slot_count g; g_ignore_errors := g_ignore_errors g; g_force :=
     g_force g; g_drop_old_data := g_drop_old_data g; g_comprows := g_comprows g;
     g_output_file := g_output_file g |}.

Definition set_analyze_table (v : option string) (g : Globals) : Globals :=
  {| g_db := g_db g; g_db_user := g_db_user g; g_db_pwd := g_db_pwd g; g_db_host :=
     g_db_host g; g_db_port := g_db_port g; g_analyze_schema := g_analyze_schema g;
     g_target_schema := g_target_schema g; g_analyze_table := v; g_debug := g_debug
     g; g_threads := g_threads g; g_do_execute := g_do_execute g; g_query_slot_count
     := g_query_slot_count g; g_ignore_errors := g_ignore_errors g; g_force :=
     g_force g; g_drop_old_data := g_drop_old_data g; g_comprows := g_comprows g;
     g_output_file := g_output_file g |}.

Definition set_debug (v : bool) (g : Globals) : Globals :=
  {| g_db := g_db g; g_db_user := g_db_user g; g_db_pwd := g_db_pwd g; g_db_host :=
     g_db_host g; g_db_port := g_db_port g; g_analyze_schema := g_analyze_schema g;
     g_target_schema := g_target_schema g; g_analyze_table := g_analyze_table g;
     g_debug := v; g_threads := g_threads g; g_do_execute := g_do_execute g;
     g_query_slot_count := g_query_slot_count g; g_ignore_errors := g_ignore_errors
     g; g_force := g_force g; g_drop_old_data := g_drop_old_data g; g_comprows :=
     g_comprows g; g_output_file := g_output_file g |}.

Definition set_threads (v : Z) (g : Globals) : Globals :=
  {| g_db := g_db g; g_db_user := g_db_user g; g_db_pwd := g_db_pwd g; g_db_host :=
     g_db_host g; g_db_port := g_db_port g; g_analyze_schema := g_analyze_schema g;
     g_target_schema := g_target_schema g; g_analyze_table := g_analyze_table g;
     g_debug := g_debug g; g_threads := v; g_do_execute := g_do_execute g;
     g_query_slot_count := g_query_slot_count g; g_ignore_errors := g_ignore_errors
     g; g_force := g_force g; g_drop_old_data := g_drop_old_data g; g_comprows :=
     g_comprows g; g_output_file := g_output_file g |}.

Definition set_do_execute (v : bool) (g : Globals) : Globals :=
  {| g_db := g_db g; g_db_user := g_db_user g; g_db_pwd := g_db_pwd g; g_db_host :=
     g_db_host g; g_db_port := g_db_port g; g_analyze_schema := g_analyze_schema g;
     g_target_schema := g_target_schema g; g_analyze_table := g_analyze_table g;
     g_debug := g_debug g; g_threads := g_threads g; g_do_execute := v;
     g_query_slot_count := g_query_slot_count g; g_ignore_errors := g_ignore_errors
     g; g_force := g_force g; g_drop_old_data := g_drop_old_data g; g_comprows :=
     g_comprows g; g_output_file := g_output_file g |}.

Definition set_query_slot_count (v : Z) (g : Globals) : Globals :=
  {| g_db := g_db g; g_db_user := g_db_user g; g_db_pwd := g_db_pwd g; g_db_host :=
     g_db_host g; g_db_port := g_db_port g; g_analyze_schema := g_analyze_schema g;
     g_target_schema := g_target_schema g; g_analyze_table := g_analyze_table g;
     g_debug := g_debug g; g_threads := g_threads g; g_do_execute := g_do_execute g;
     g_query_slot_count := v; g_ignore_errors := g_ignore_errors g; g_force :=
     g_force g; g_drop_old_data := g_drop_old_data g; g_comprows := g_comprows g;
     g_output_file := g_output_file g |}.

Definition set_ignore_errors (v : bool) (g : Globals) : Globals :=
  {| g_db := g_db g; g_db_user := g_db_user g; g_db_pwd := g_db_pwd g; g_db_host :=
     g_db_host g; g_db_port := g_db_port g; g_analyze_schema := g_analyze_schema g;
     g_target_schema := g_target_schema g; g_analyze_table := g_analyze_table g;
     g_debug := g_debug g; g_threads := g_threads g; g_do_execute := g_do_execute g;
     g_query_slot_count := g_query_slot_count g; g_ignore_errors := v; g_force :=
     g_force g; g_drop_old_data := g_drop_old_data g; g_comprows := g_comprows g;
     g_output_file := g_output_file g |}.

Definition set_force (v : bool) (g : Globals) : Globals :=
  {| g_db := g_db g; g_db_user := g_db_user g; g_db_pwd := g_db_pwd g; g_db_host :=
     g_db_host g; g_db_port := g_db_port g; g_analyze_schema := g_analyze_schema g;
     g_target_schema := g_target_schema g; g_analyze_table := g_analyze_table g;
     g_debug := g_debug g; g_threads := g_threads g; g_do_execute := g_do_execute g;
     g_query_slot_count := g_query_slot_count g; g_ignore_errors := g_ignore_errors
     g; g_force := v; g_drop_old_data := g_drop_old_data g; g_comprows := g_comprows
     g; g_output_file := g_output_file g |}.

Definition set_drop_old_data (v : bool) (g : Globals) : Globals :=
  {| g_db := g_db g; g_db_user := g_db_user g; g_db_pwd := g_db_pwd g; g_db_host :=
     g_db_host g; g_db_port := g_db_port g; g_analyze_schema := g_analyze_schema g;
     g_target_schema := g_target_schema g; g_analyze_table := g_analyze_table g;
     g_debug := g_debug g; g_threads := g_threads g; g_do_execute := g_do_execute g;
     g_query_slot_count := g_query_slot_count g; g_ignore_errors := g_ignore_errors
     g; g_force := g_force g; g_drop_old_data := v; g_comprows := g_comprows g;
     g_output_file := g_output_file g |}.

Definition set_comprows (v : option Z) (g : Globals) : Globals :=
  {| g_db := g_db g; g_db_user := g_db_user g; g_db_pwd := g_db_pwd g; g_db_host :=
     g_db_host g; g_db_port := g_db_port g; g_analyze_schema := g_analyze_schema g;
     g_target_schema := g_target_schema g; g_analyze_table := g_analyze_table g;
     g_debug := g_debug g; g_threads := g_threads g; g_do_execute := g_do_execute g;
     g_query_slot_count := g_query_slot_count g; g_ignore_errors := g_ignore_errors
     g; g_force := g_force g; g_drop_old_data := g_drop_old_data g; g_comprows := v;
     g_output_file := g_output_file g |}.

Definition set_output_file (v : option string) (g : Globals) : Globals :=
  {| g_db := g_db g; g_db_user := g_db_user g; g_db_pwd := g_db_pwd g; g_db_host :=
     g_db_host g; g_db_port := g_db_port g; g_analyze_schema := g_analyze_schema g;
     g_target_schema := g_target_schema g; g_analyze_table := g_analyze_table g;
     g_debug := g_debug g; g_threads := g_threads g; g_do_execute := g_do_execute g;
     g_query_slot_count := g_query_slot_count g; g_ignore_errors := g_ignore_errors
     g; g_force := g_force g; g_drop_old_data := g_drop_old_data g; g_comprows :=
     g_comprows g; g_output_file := v |}.

(** The exceptions that end [main] uncaught. *)
Inductive MainError : Type :=
| BadNumber                         (* ValueError of [int(value)] *)
| Unsupported                       (* AssertionError of line 509 *)
| OutputFailed                      (* [open(output_file,'w')] raises *)
| SetupFailed                       (* an exception out of [get_conn] *)
| QueryFailed                       (* an exception of the candidate query *)
| PoolFailed.                       (* [Pool(threads)] raises *)

Inductive MainEnd : Type :=
| MainExit (status : Z)             (* [sys.exit(status)] *)
| MainRaises (e : MainError).       (* an exception nobody catches *)

(** A step of [main] goes on with a value or ends the run. *)
Inductive Step (A : Type) : Type :=
| Continue (a : A)
| Stop (e : MainEnd).
Arguments Continue {A} a.
Arguments Stop {A} e.

(** [usage()] writes the help text and ends with [sys.exit(INVALID_ARGS)]. *)
Definition usage {A : Type} : Step A := Stop (MainExit INVALID_ARGS).

(** [value == 'true' or value == 'True'] *)
Definition flag_value (value : string) : bool :=
  String.eqb value "true" || String.eqb value "True".

Section Options.

(** [int(value)] of a str: the number, or None for the ValueError. *)
Variable int_of_str : string → option Z.

Definition set_number (set : Z → Globals → Globals) (value : string) (g : Globals)
  : Step Globals :=
  match int_of_str value with
  | Some n => Continue (set n g)
  | None => Stop (MainRaises BadNumber)
  end.

(** One iteration of [for arg, value in optlist] (lines 443-510).  The
    values [getopt] gives are strings. *)
Definition parse_option (g : Globals) (opt : string * string) : Step Globals :=
  let arg := fst opt in
  let value := snd opt in
  if String.eqb arg "--db" then
    if String.eqb value "" then usage else Continue (set_db (Some value) g)
  else if String.eqb arg "--db-user" then
    if String.eqb value "" then usage else Continue (set_db_user (Some value) g)
  else if String.eqb arg "--db-host" then
    if String.eqb value "" then usage else Continue (set_db_host (Some value) g)
  else if String.eqb arg "--db-port" then
    if negb (String.eqb value "") then Continue (set_db_port (PyStr value) g)
    else Continue g
  else if String.eqb arg "--analyze-schema" then
    if negb (String.eqb value "") then Continue (set_analyze_schema value g)
    else Continue g
  else if String.eqb arg "--analyze-table" then
    if negb (String.eqb value "") then Continue (set_analyze_table (Some value) g)
    else Continue g
  else if String.eqb arg "--target-schema" then
    if negb (String.eqb value "") then Continue (set_target_schema (Some value) g)
    else Continue g
  else if String.eqb arg "--threads" then
    if negb (String.eqb value "") then set_number set_threads value g
    else Continue g
  else if String.eqb arg "--debug" then
    Continue (set_debug (flag_value value) g)
  else if String.eqb arg "--output-file" then
    if String.eqb value "" then usage else Continue (set_output_file (Some value) g)
  else if String.eqb arg "--ignore-errors" then
    Continue (set_ignore_errors (flag_value value) g)
  else if String.eqb arg "--force" then
    Continue (set_force (flag_value value) g)
  else if String.eqb arg "--drop-old-data" then
    Continue (set_drop_old_data (flag_value value) g)
  else if String.eqb arg "--do-execute" then
    Continue (set_do_execute (flag_value value) g)
  else if String.eqb arg "--slot-count" then
    set_number set_query_slot_count value g
  else if String.eqb arg "--comprows" then
    set_number (λ n, set_comprows (Some n)) value g
  else Stop (MainRaises Unsupported).

Fixpoint parse_options (g : Globals) (optlist : list (string * string)) : Step Globals :=
  match optlist with
  | [] => Continue g
  | opt :: rest =>
      match parse_option g opt with
      | Continue g' => parse_options g' rest
      | Stop e => Stop e
      end
  end.

(** Lines 512-522: the required options, the default of [target_schema],
    and the single thread of the single-table mode. *)
Definition settle (g : Globals) : Step Globals :=
  if match g_db g with None => true | Some _ => false end
     || match g_db_user g with None => true | Some _ => false end
     || match g_db_host g with None => true | Some _ => false end
     || py_eq (g_db_port g) PyNone
     || match g_output_file g with None => true | Some _ => false end
  then usage
  else
    let g := match g_target_schema g with
             | None => set_target_schema (Some (g_analyze_schema g)) g
             | Some _ => g
             end in
    let g := match g_analyze_table g with
             | Some _ => set_threads 1 g
             | None => g
             end in
    Continue g.

(** The globals when [main] asks for the password (line 525), from the
    options [getopt] returned. *)
Definition prepare (optlist : list (string * string)) : Step Globals :=
  match parse_options initial_globals optlist with
  | Continue g => settle g
  | Stop e => Stop e
  end.

End Options.

(** The globals as [analyze] and [run_commands] read them in the process
    [pid].  [main] has set [target_schema] by then (lines 517-518); before
    that, the schema that is analysed stands for a [target_schema] of
    None. *)
Definition config_of (g : Globals) (pid : Z) : Config :=
  {| analyze_schema := g_analyze_schema g;
     target_schema := default (g_analyze_schema g) (g_target_schema g);
     debug := g_debug g;
     do_execute := g_do_execute g;
     ignore_errors := g_ignore_errors g;
     force := g_force g;
     drop_old_data := g_drop_old_data g;
     comprows := g_comprows g;
     pid := pid |}.

(** ** get_conn *)

(** What [execute] of a session setting comes to: only a
    [psycopg2.ProgrammingError] of the first one is caught. *)
Inductive SetupOutcome : Type :=
| SetupDone
| SetupProgrammingError (message : string)
| SetupError.                       (* any other exception *)

(** The server as [get_conn] meets it: whether [psycopg2.connect] gives a
    connection (named by a number) or raises, and the outcome of the [k]-th
    statement on the new connection. *)
Record Server : Type := {
  connect : option nat;
  setup : nat → string → SetupOutcome
}.

Inductive Got : Type :=
| GotConn (conn : nat)
| GotNone                           (* [return None] *)
| GotError.                         (* an exception propagates *)

(** [%s] of a global that is a str or None. *)
Definition opt_str (o : option string) : string :=
  match o with Some s => s | None => "None" end.

Definition connect_text (g : Globals) (pid : Z) : string :=
  "Connect [" +:+ str_of_int pid +:+ "] " +:+ opt_str (g_db_host g) +:+ ":"
    +:+ py_str (g_db_port g) +:+ ":" +:+ opt_str (g_db g) +:+ ":" +:+ opt_str (g_db_user g).

Definition search_path_statement (g : Globals) : string :=
  let search_path := "set search_path = '$user',public," +:+ g_analyze_schema g in
  match g_target_schema g with
  | Some target => search_path +:+ ", " +:+ target
  | None => search_path
  end.

Definition slot_count_statement (g : Globals) : string :=
  "set wlm_query_slot_count = " +:+ str_of_int (g_query_slot_count g).

Definition timeout_statement : string := "set statement_timeout = '1200000'".

Definition no_schema_pattern (g : Globals) : string :=
  "schema " +:+ dquote +:+ g_analyze_schema g +:+ dquote +:+ " does not exist".

Section GetConn.

(** [re.match(pattern, text) != None] *)
Variable re_match : string → string → bool.

(** Lines 163-173, after the optional slot count: the statement timeout,
    then the connection is cached under the process id.  [k] statements
    were sent on the connection before. *)
Definition set_timeout_and_cache (g : Globals) (pid : Z) (srv : Server) (conn : nat)
    (k : nat) (db_connections : gmap string nat)
  : Got * gmap string nat * list Event :=
  let said := (debug_comment (config_of g pid) timeout_statement
                 ++ [EvExecute timeout_statement])%list in
  match setup srv k timeout_statement with
  | SetupDone => (GotConn conn, <[str_of_int pid := conn]> db_connections, said)
  | _ => (GotError, db_connections, said)
  end.

(** [get_conn()] in the process [pid], with the cache [db_connections]:
    what it returns, the cache after it, and its events. *)
Definition get_conn (g : Globals) (pid : Z) (srv : Server)
    (db_connections : gmap string nat) : Got * gmap string nat * list Event :=
  let cfg := config_of g pid in
  match db_connections !! str_of_int pid with
  | Some conn => (GotConn conn, db_connections, [])
  | None =>
      let hello := debug_comment cfg (connect_text g pid) in
      match connect srv with
      | None =>
          (GotNone, db_connections,
           (hello ++ [EvWrite "Unable to connect to Cluster Endpoint"])%list)
      | Some conn =>
          let path := search_path_statement g in
          let asked := (hello ++ debug_comment cfg path ++ [EvExecute path])%list in
          match setup srv 0 path with
          | SetupProgrammingError message =>
              (GotNone, db_connections,
               (asked ++
                  [EvWrite (if re_match (no_schema_pattern g) message
                            then "Schema " +:+ g_analyze_schema g +:+ " does not exist"
                            else message)])%list)
          | SetupError => (GotError, db_connections, asked)
          | SetupDone =>
              if negb (g_query_slot_count g =? 1) then
                let slots := slot_count_statement g in
                let asked := (asked ++ debug_comment cfg slots ++ [EvExecute slots])%list in
                match setup srv 1 slots with
                | SetupDone =>
                    let '(got, cache, evs) :=
                      set_timeout_and_cache g pid srv conn 2 db_connections in
                    (got, cache, (asked ++ evs)%list)
                | _ => (GotError, db_connections, asked)
                end
              else
                let '(got, cache, evs) :=
                  set_timeout_and_cache g pid srv conn 1 db_connections in
                (got, cache, (asked ++ evs)%list)
          end
      end
  end.

(** ** main: how it ends *)

(** What [main] meets after the options: whether the output file opens,
    the server, the answer to the question of line 546, the outcome of the
    candidate query, whether [Pool(threads)] gives a pool, and how [p.map]
    ends.  The password prompt is taken to return. *)
Record MainEnv : Type := {
  output_opens : bool;
  server : Server;
  really_go : string;
  candidates : ExecOutcome;
  pool_starts : bool;
  pool : MapOutcome;
  main_pid : Z
}.

Variable int_of_str : string → option Z.

(** How [main] ends (its output is not part of the result).  [optlist] is
    what [getopt] returned, None for a [GetoptError]. *)
Definition main_end (optlist : option (list (string * string))) (env : MainEnv)
  : MainEnd :=
  match optlist with
  | None => MainExit INVALID_ARGS
  | Some optlist =>
      match prepare int_of_str optlist with
      | Stop e => e
      | Continue g =>
          if negb (output_opens env) then MainRaises OutputFailed
          else
            match fst (fst (get_conn g (main_pid env) (server env) ∅)) with
            | GotNone => MainExit NO_CONNECTION
            | GotError => MainRaises SetupFailed
            | GotConn _ =>
                if g_do_execute g && g_drop_old_data g
                   && negb (String.eqb (really_go env) "Yes")
                then MainExit TERMINATED_BY_USER
                else
                  match candidates env with
                  | ExecDone _ analyze_tables =>
                      if pool_starts env
                      then MainExit (main_exit (Some analyze_tables) (pool env))
                      else MainRaises PoolFailed
                  | _ => MainRaises QueryFailed
                  end
            end
      end
  end.

End GetConn.

(** ** Vocabulary of the properties *)

(** The statements a run sent to the database, in order. *)
Fixpoint executed_sql (evs : list Event) : list string :=
  match evs with
  | [] => []
  | EvExecute sql :: rest => sql :: executed_sql rest
  | _ :: rest => executed_sql rest
  end.

(** The arguments of the calls of [time.sleep], in order. *)
Fixpoint sleeps (evs : list Event) : list Z :=
  match evs with
  | [] => []
  | EvSleep seconds :: rest => seconds :: sleeps rest
  | _ :: rest => sleeps rest
  end.

(** The number of calls of [rollback()]. *)
Fixpoint rollbacks (evs : list Event) : nat :=
  match evs with
  | [] => 0
  | EvRollback :: rest => S (rollbacks rest)
  | _ :: rest => rollbacks rest
  end.

(** The [i]-th statement of [commands], run as the [n+i]-th statement of
    the connection, succeeds. *)
Definition all_done (db : Database) (n : nat) (commands : list string) : Prop :=
  ∀ i c, commands !! i = Some c →
    ∃ statusmessage rows, db (n + i)%nat c = ExecDone statusmessage rows.

(** The delay the specification gives for the sleep after the [n]-th failed
    attempt: [2^n * 0.1] seconds. *)
Definition specified_delay (n : Z) : Q := (inject_Z (2 ^ n) * (1 # 10))%Q.

(** The catalog gives the column of [row] the signed sort-key position [z]. *)
Definition row_sortkey (descr : list Row) (row : Row) (col : PyVal) (z : Z) : Prop :=
  row !! 1%nat = Some col ∧
  ∃ sortkey, get_table_attribute descr col 4 = Ok sortkey ∧ py_int_of sortkey = Some z.

(** Some row of the analyzer is for a sort-key column of the table. *)
Definition has_sort_key (descr output : list Row) : Prop :=
  ∃ row col z, In row output ∧ row_sortkey descr row col z ∧ z ≠ 0.

(** Sort-key positions are ordinals: two sort-key columns of the table do
    not have the same absolute position. *)
Definition distinct_positions (descr output : list Row) : Prop :=
  ∀ row1 row2 col1 col2 z1 z2,
    In row1 output → In row2 output →
    row_sortkey descr row1 col1 z1 → row_sortkey descr row2 col2 z2 →
    z1 ≠ 0 → Z.abs z1 = Z.abs z2 → col1 = col2.

(** The text of a sort-key block that lists [cols]. *)
Definition sortkey_text (interleaved : bool) (cols : list string) : string :=
  nl +:+ (if interleaved then "INTERLEAVED " else "") +:+ "SORTKEY("
    +:+ String.concat "," cols +:+ ")" +:+ nl.

(** The create-table statement up to the closing parenthesis of the list of
    column definitions [specs]. *)
Definition create_table_body (cfg : Config) (table_name : PyVal) (specs : list string)
  : string :=
  add_columns (create_table_head cfg table_name) 0 specs +:+ nl +:+ ")".

(** The text of the create-table statement of a plan for a table with a
    sort key. *)
Definition with_sortkey_block (cfg : Config) (table_name : PyVal) (st : Scan)
    (cols : list string) : string :=
  (create_table_body cfg table_name (encode_columns st)
     +:+ (" " +:+ sortkey_text (has_zindex_sortkeys st) cols +:+ " ")) +:+ ";" +:+ nl.

(** [s] renames the original table to its [_$old] name, or drops it. *)
Definition is_rename_or_drop (cfg : Config) (table_name : PyVal) (s : string) : bool :=
  String.eqb s (drop_stmt cfg table_name)
  || match rename_old_stmt cfg table_name with
     | Ok r => String.eqb s r
     | Raise _ => false
     end.

(** [s] renames the staging table to the name of the original table. *)
Definition is_rename_back (cfg : Config) (table_name : PyVal) (s : string) : bool :=
  String.eqb s (rename_stmt cfg table_name).

(** What one iteration of the loop over the rows reads: the column and
    its recommended encoding from the row of the analyzer, the rest from
    the table description. *)
Record Column : Type := {
  c_name : PyVal;
  c_recommended : PyVal;
  c_type : string;                    (* after the two replacements *)
  c_distkey : PyVal;
  c_sortkey : Z;
  c_notnull : PyVal
}.

Definition reads (descr : list Row) (row : Row) (c : Column) : Prop :=
  row !! 1%nat = Some (c_name c) ∧
  row !! 2%nat = Some (c_recommended c) ∧
  (∃ ty, get_table_attribute descr (c_name c) 1 = Ok (PyStr ty) ∧
         c_type c = str_replace (str_replace ty "character varying" "varchar")
                      "without time zone" "") ∧
  get_table_attribute descr (c_name c) 3 = Ok (c_distkey c) ∧
  (∃ sortkey, get_table_attribute descr (c_name c) 4 = Ok sortkey ∧
              py_int_of sortkey = Some (c_sortkey c)) ∧
  get_table_attribute descr (c_name c) 5 = Ok (c_notnull c).

(** The column definition the iteration appends. *)
Definition column_text (c : Column) : string :=
  column_spec (c_name c) (PyStr (c_type c)) (null_clause (c_notnull c))
    (if Z.abs (c_sortkey c) =? 1 then PyStr "RAW" else c_recommended c)
    (distkey_clause (c_distkey c)).

(** The state of the loop after the iteration. *)
Definition scan_step (st : Scan) (c : Column) : Scan :=
  {| found_non_raw := py_ne (c_recommended c) (PyStr "raw") || found_non_raw st;
     encode_columns := (encode_columns st ++ [column_text c])%list;
     sortkeys := if c_sortkey c =? 0 then sortkeys st
                 else <[Z.abs (c_sortkey c) := c_name c]> (sortkeys st);
     has_zindex_sortkeys := (c_sortkey c <? 0) || has_zindex_sortkeys st |}.

(** The sort-key positions of the columns are the ordinals 1 to [n], and
    the sort-key columns are named by strings. *)
Definition ordinal_positions (cs : list Column) (n : nat) : Prop :=
  (∀ c, In c cs → c_sortkey c ≠ 0 →
     1 ≤ Z.abs (c_sortkey c) ≤ Z.of_nat n ∧ ∃ s, c_name c = PyStr s) ∧
  (∀ k, (1 ≤ k ≤ n)%nat → ∃ c, In c cs ∧ Z.abs (c_sortkey c) = Z.of_nat k).

(** The row [item] of the table description is a row for [column_name]:
    the test of [get_table_attribute]. *)
Definition item_matches (column_name : PyVal) (item : Row) : bool :=
  match item !! 0%nat with
  | Some name => py_eq name column_name
  | None => false
  end.

(** The table description names a column at most once, and none of its
    rows is the empty tuple. *)
Definition unique_columns (descr : list Row) : Prop :=
  Forall (λ item, item ≠ []) descr ∧
  ∀ column_name, (length (List.filter (item_matches column_name) descr) ≤ 1)%nat.

(** What follows the opening of a sort-key block that lists [cols]. *)
Definition sortkey_tail (cols : list string) : string :=
  match cols with
  | [] => ""
  | _ => String.concat "," cols +:+ ")" +:+ nl
  end.

(** The first two characters of a statement, which tell its kind. *)
Definition leading (s : string) : string := String.substring 0 2 s.

(** ** Sample inputs *)

Module Sample.

Definition cfg : Config :=
  {| analyze_schema := "public"; target_schema := "public"; debug := false;
     do_execute := false; ignore_errors := false; force := false;
     drop_old_data := false; comprows := None; pid := 4711 |}.

(** As [cfg], but the tables are created in another schema. *)
Definition cfg_other_schema : Config :=
  {| analyze_schema := "public"; target_schema := "archive"; debug := false;
     do_execute := false; ignore_errors := false; force := false;
     drop_old_data := false; comprows := None; pid := 4711 |}.

(** A candidate row: name, size, rows. *)
Definition events_table : Row := [PyStr "events"; PyInt 12; PyInt 1000].

(** [pg_table_def] for [events]: column, type, encoding, distkey, sortkey,
    notnull, as the driver returns them. *)
Definition events_descr : list Row :=
  [ [PyStr "payload"; PyStr "character varying(256)"; PyStr "none";
     PyBool false; PyInt 0; PyBool false];
    [PyStr "ts"; PyStr "timestamp without time zone"; PyStr "none";
     PyBool false; PyInt 2; PyBool true];
    [PyStr "id"; PyStr "integer"; PyStr "none";
     PyBool true; PyInt 1; PyBool true] ].

(** The rows of [analyze compression events]: table, column, encoding,
    estimated reduction. *)
Definition events_output : list Row :=
  [ [PyStr "events"; PyStr "ts"; PyStr "delta"; PyStr "40.00"];
    [PyStr "events"; PyStr "id"; PyStr "lzo"; PyStr "12.50"];
    [PyStr "events"; PyStr "payload"; PyStr "lzo"; PyStr "61.20"] ].

(** A table with an interleaved sort key on [site] and [day]. *)
Definition clicks_descr : list Row :=
  [ [PyStr "day"; PyStr "date"; PyStr "none"; PyBool false; PyInt (-2); PyBool false];
    [PyStr "site"; PyStr "integer"; PyStr "none"; PyBool false; PyInt 1; PyBool false];
    [PyStr "url"; PyStr "character varying(2048)"; PyStr "none";
     PyBool false; PyInt 0; PyBool false] ].

Definition clicks_output : list Row :=
  [ [PyStr "clicks"; PyStr "day"; PyStr "delta"; PyStr "70.00"];
    [PyStr "clicks"; PyStr "site"; PyStr "raw"; PyStr "0.00"];
    [PyStr "clicks"; PyStr "url"; PyStr "lzo"; PyStr "55.00"] ].

(** A table whose columns are all lzo-encoded already, and for which the
    analyzer recommends lzo again. *)
Definition encoded_descr : list Row :=
  [ [PyStr "a"; PyStr "integer"; PyStr "lzo"; PyBool false; PyInt 0; PyBool false];
    [PyStr "b"; PyStr "integer"; PyStr "lzo"; PyBool false; PyInt 0; PyBool false] ].

Definition encoded_output : list Row :=
  [ [PyStr "t"; PyStr "a"; PyStr "lzo"; PyStr "0.00"];
    [PyStr "t"; PyStr "b"; PyStr "lzo"; PyStr "0.00"] ].

(** The analyzer recommends 'raw' throughout. *)
Definition raw_output : list Row :=
  [ [PyStr "t"; PyStr "a"; PyStr "raw"; PyStr "0.00"];
    [PyStr "t"; PyStr "b"; PyStr "raw"; PyStr "0.00"] ].

(** A server on which every statement fails. *)
Definition db_down : Database := fun _ _ => ExecFails "connection reset".

(** A server on which the first statement fails and the others succeed:
    the analysis gives [events_output], the catalog [events_descr]. *)
Definition db_fails_once : Database := fun n _ =>
  match n with
  | 0%nat => ExecFails "serializable isolation violation"
  | 1%nat => ExecDone "ANALYZE COMPRESSION" events_output
  | 2%nat => ExecDone "SELECT" events_descr
  | _ => ExecDone "OK" []
  end.

(** A server on which the third statement of a connection fails. *)
Definition db_third_fails : Database := fun n _ =>
  match n with
  | 2%nat => ExecFails "disk full"
  | _ => ExecDone "OK" []
  end.

Definition db_up : Database := fun _ _ => ExecDone "OK" [].

(** The plan for [events]. *)
Definition events_plan : list string :=
  Eval vm_compute in
    match synthesize cfg (PyStr "events") events_descr events_output with
    | Ok (Some statements) => statements
    | _ => []
    end.

(** The plan for [clicks]. *)
Definition clicks_plan : list string :=
  Eval vm_compute in
    match synthesize cfg (PyStr "clicks") clicks_descr clicks_output with
    | Ok (Some statements) => statements
    | _ => []
    end.

(** The plan for [events] when the catalog and the analyzer return their
    rows in the opposite order. *)
Definition events_plan_reversed : list string :=
  Eval vm_compute in
    match synthesize cfg (PyStr "events") (rev events_descr) (rev events_output) with
    | Ok (Some statements) => statements
    | _ => []
    end.

End Sample.

(** ** Vocabulary of the options *)

(** The value of the last occurrence of the option [arg] in [optlist]. *)
Fixpoint last_value (arg : string) (optlist : list (string * string)) : option string :=
  match optlist with
  | [] => None
  | opt :: rest =>
      match last_value arg rest with
      | Some value => Some value
      | None => if String.eqb (fst opt) arg then Some (snd opt) else None
      end
  end.

(** The option [arg] is given with the value 'true' or 'True' where it is
    given last. *)
Definition flag_of (optlist : list (string * string)) (arg : string) : bool :=
  match last_value arg optlist with
  | Some value => flag_value value
  | None => false
  end.

(** ** Sample sessions *)

Module Session.





(** A server on which the analysis fails three times and then succeeds. *)
Definition db_fails_thrice : Database := fun n _ =>
  match n with
  | 0%nat | 1%nat | 2%nat => ExecFails "serializable isolation violation"
  | 3%nat => ExecDone "ANALYZE COMPRESSION" Sample.events_output
  | _ => ExecDone "OK" []
  end.

(** The user interrupts the second statement of the connection. *)
Definition db_interrupted : Database := fun n _ =>
  match n with
  | 1%nat => ExecInterrupted
  | _ => ExecFails "connection reset"
  end.

(** The user interrupts the second statement; the others succeed. *)
Definition db_up_interrupted : Database := fun n _ =>
  match n with
  | 1%nat => ExecInterrupted
  | _ => ExecDone "OK" []
  end.

(** What the loop over the rows reads for [events]. *)
Definition events_columns : list Column :=
  [ {| c_name := PyStr "ts"; c_recommended := PyStr "delta"; c_type := "timestamp ";
       c_distkey := PyBool false; c_sortkey := 2; c_notnull := PyBool true |};
    {| c_name := PyStr "id"; c_recommended := PyStr "lzo"; c_type := "integer";
       c_distkey := PyBool true; c_sortkey := 1; c_notnull := PyBool true |};
    {| c_name := PyStr "payload"; c_recommended := PyStr "lzo"; c_type := "varchar(256)";
       c_distkey := PyBool false; c_sortkey := 0; c_notnull := PyBool false |} ].

(** [pg_table_def] for a table whose sort key has the positions 1 and 3. *)
Definition gap_descr : list Row :=
  [ [PyStr "a"; PyStr "integer"; PyStr "none"; PyBool false; PyInt 1; PyBool false];
    [PyStr "b"; PyStr "integer"; PyStr "none"; PyBool false; PyInt 3; PyBool false] ].

Definition gap_output : list Row :=
  [ [PyStr "t"; PyStr "a"; PyStr "lzo"; PyStr "10.00"];
    [PyStr "t"; PyStr "b"; PyStr "lzo"; PyStr "10.00"] ].

Definition gap_columns : list Column :=
  [ {| c_name := PyStr "a"; c_recommended := PyStr "lzo"; c_type := "integer";
       c_distkey := PyBool false; c_sortkey := 1; c_notnull := PyBool false |};
    {| c_name := PyStr "b"; c_recommended := PyStr "lzo"; c_type := "integer";
       c_distkey := PyBool false; c_sortkey := 3; c_notnull := PyBool false |} ].

(** [int] on a non-empty string of decimal digits, for the sample runs. *)
Definition int_of_digits (s : string) : option Z :=
  match NilZero.uint_of_string s with
  | Some d => Some (Z.of_uint d)
  | None => None
  end.

(** The options of a run on the single table [events]. *)
Definition optlist_events : list (string * string) :=
  [ ("--db", "dev"); ("--db-user", "admin"); ("--db-host", "cluster.example.org");
    ("--output-file", "out.sql"); ("--threads", "8"); ("--analyze-table", "events");
    ("--do-execute", "true"); ("--do-execute", "TRUE"); ("--debug", "True") ].

(** The globals [main] goes on with for these options. *)
Definition globals_events : Globals :=
  Eval vm_compute in
    match prepare int_of_digits optlist_events with
    | Continue g => g
    | Stop _ => initial_globals
    end.

(** A server that accepts the connection and every setting. *)
Definition server_up : Server :=
  {| connect := Some 7%nat; setup := fun _ _ => SetupDone |}.

(** A server on which the schema of the search path does not exist. *)
Definition server_no_schema : Server :=
  {| connect := Some 7%nat;
     setup := fun _ _ => SetupProgrammingError "schema does not exist" |}.

(** The regular expressions of the sample runs match nothing. *)
Definition re_match_nothing (pattern text : string) : bool := false.

(** A row of the analyzer for a column the catalog does not describe. *)
Definition ghost_row : Row := [PyStr "events"; PyStr "ghost"; PyStr "lzo"; PyStr "1.00"].

End Session.

(** * Properties *)

(** ** The built-in operations on small inputs *)

Example replace_varchar :
  str_replace "character varying(256)" "character varying" "varchar" = "varchar(256)".
Proof. reflexivity. Qed.

Example replace_timezone :
  str_replace "timestamp without time zone" "without time zone" "" = "timestamp ".
Proof. reflexivity. Qed.

Example py_str_list : py_str (PyList [PyList [PyInt 0; PyInt 1]]) = "[[0, 1]]".
Proof. reflexivity. Qed.

Example py_true_is_not_the_string : py_eq (PyBool true) (PyStr "true") = false.
Proof. reflexivity. Qed.

Example retry_timeout_is_zero : RETRY_TIMEOUT = 0.
Proof. reflexivity. Qed.

Example exit_with_a_list : sys_exit (PyList [PyList [PyInt 0]]) = 1.
Proof. reflexivity. Qed.

Example main_exit_one_worker_ok :
  main_exit (Some [Sample.events_table]) (MapDone [OK]) = 1.
Proof. reflexivity. Qed.

Example main_exit_interrupted :
  main_exit (Some [Sample.events_table]) MapInterrupted = TERMINATED_BY_USER.
Proof. reflexivity. Qed.

(** ** The error monad *)

Lemma bind_Ok {A B : Type} (r : result A) (k : A → result B) (b : B) :
  bind r k = Ok b → ∃ a, r = Ok a ∧ k a = Ok b.
Proof. destruct r as [a|e]; simpl; [eauto | discriminate]. Qed.

Lemma py_index_Ok (row : Row) (i : nat) (v : PyVal) :
  py_index row i = Ok v ↔ row !! i = Some v.
Proof.
  unfold py_index. destruct (row !! i); split; intros H; congruence.
Qed.

(** ** Strings *)

Lemma append_cons (c : ascii) (s t : string) : String c s +:+ t = String c (s +:+ t).
Proof. reflexivity. Qed.

Lemma append_nil_r (s : string) : s +:+ "" = s.
Proof.
  induction s as [|c s IH]; [reflexivity|]. by rewrite append_cons, IH.
Qed.

Lemma append_assoc (a b c : string) : (a +:+ b) +:+ c = a +:+ (b +:+ c).
Proof.
  induction a as [|x a IH]; [reflexivity|]. by rewrite !append_cons, IH.
Qed.

Lemma append_cancel_l (a b c : string) : a +:+ b = a +:+ c → b = c.
Proof.
  induction a as [|x a IH]; [auto|]. rewrite !append_cons. intros [= H]. auto.
Qed.

(** ** Python values *)

Lemma py_eq_str (v : PyVal) (s : string) : py_eq v (PyStr s) = true ↔ v = PyStr s.
Proof.
  destruct v as [|b|z|t|l]; simpl.
  - split; discriminate.
  - split; discriminate.
  - split; discriminate.
  - rewrite String.eqb_eq. split; congruence.
  - split; discriminate.
Qed.

Lemma py_abs_Ok (v : PyVal) (a : Z) :
  py_abs v = Ok a ↔ ∃ z, py_int_of v = Some z ∧ a = Z.abs z.
Proof.
  unfold py_abs. destruct (py_int_of v) as [z|]; split.
  - intros [= <-]. eauto.
  - intros (z' & [= <-] & ->). reflexivity.
  - discriminate.
  - intros (z' & [=] & _).
Qed.

Lemma py_ne_zero (v : PyVal) (z : Z) :
  py_int_of v = Some z → py_ne v (PyInt 0) = negb (z =? 0).
Proof.
  unfold py_ne. destruct v as [|b|z'|t|l]; simpl; try discriminate.
  - destruct b; intros [= <-]; reflexivity.
  - intros [= <-]. reflexivity.
Qed.

Lemma py_lt_zero (v : PyVal) (z : Z) :
  py_int_of v = Some z → py_lt_int v 0 = (z <? 0).
Proof.
  destruct v as [|b|z'|t|l]; simpl; try discriminate.
  - destruct b; intros [= <-]; reflexivity.
  - intros [= <-]. reflexivity.
Qed.

Lemma py_replace_Ok (v : PyVal) (old new : string) (w : PyVal) :
  py_replace v old new = Ok w → ∃ s, v = PyStr s ∧ w = PyStr (str_replace s old new).
Proof. destruct v; simpl; try discriminate. intros [= <-]. eauto. Qed.

(** ** Events *)

Lemma executed_sql_app (xs ys : list Event) :
  executed_sql (xs ++ ys) = (executed_sql xs ++ executed_sql ys)%list.
Proof.
  induction xs as [|[] xs IH]; simpl; rewrite ?IH; reflexivity.
Qed.

Lemma sleeps_app (xs ys : list Event) :
  sleeps (xs ++ ys) = (sleeps xs ++ sleeps ys)%list.
Proof.
  induction xs as [|[] xs IH]; simpl; rewrite ?IH; reflexivity.
Qed.


Lemma events_after {A : Type} (evs : list Event) (r : Run A) :
  events (after evs r) = (evs ++ events r)%list.
Proof. reflexivity. Qed.

Lemma outcome_after {A : Type} (evs : list Event) (r : Run A) :
  outcome (after evs r) = outcome r.
Proof. reflexivity. Qed.

Lemma executed_after {A : Type} (evs : list Event) (r : Run A) :
  executed (after evs r) = executed r.
Proof. reflexivity. Qed.

(** ** The retry loop *)

Section RetryLoop.

Variable db : Database.
Variable statement : string.

(** With an output the loop is over. *)
Lemma retry_loop_done (fuel : nat) (s : Retry) (n : nat) (rows : list Row) :
  output s = Some rows →
  retry_loop db statement fuel s n = Some (Returned s, (n, [])).
Proof.
  intros Hout. destruct fuel; simpl; unfold retry_continues;
    rewrite Hout, andb_false_r; reflexivity.
Qed.

(** The loop ends: it needs no more fuel than there are attempts left. *)
Lemma retry_loop_total (fuel : nat) (s : Retry) (n : nat) :
  (Z.to_nat (analyze_retry - attempt_count s) ≤ fuel)%nat →
  is_Some (retry_loop db statement fuel s n).
Proof.
  revert s n. induction fuel as [|fuel IH]; intros s n Hfuel.
  - simpl. unfold retry_continues.
    destruct (Z.ltb_spec (attempt_count s) analyze_retry); simpl; [lia | eauto].
  - simpl. destruct (retry_continues s) eqn:Hc; [|eauto].
    destruct (db n statement) as [st rows|msg|]; [| |eauto].
    + erewrite retry_loop_done by reflexivity. simpl. eauto.
    + apply fmap_is_Some, IH. simpl.
      unfold retry_continues in Hc. apply andb_true_iff in Hc as [Hlt _].
      apply Z.ltb_lt in Hlt. lia.
Qed.

(** X3.  Whatever the database answers, the loop sends the analysis at
    most as many times as attempts are left of the ten. *)
Lemma retry_loop_attempts (fuel : nat) (s : Retry) (n : nat) (r : Run Retry) :
  retry_loop db statement fuel s n = Some r →
  (length (executed_sql (events r)) ≤ Z.to_nat (analyze_retry - attempt_count s))%nat.
Proof.
  revert s n r. induction fuel as [|fuel IH]; intros s n r; simpl.
  - destruct (retry_continues s); [discriminate|].
    intros [= <-]. simpl. lia.
  - destruct (retry_continues s) eqn:Hc; [|intros [= <-]; simpl; lia].
    unfold retry_continues in Hc. apply andb_true_iff in Hc as [Hlt _].
    apply Z.ltb_lt in Hlt.
    destruct (db n statement) as [st rows|msg|].
    + erewrite retry_loop_done by reflexivity. simpl. intros [= <-]. simpl. lia.
    + destruct (retry_loop db statement fuel _ (S n)) as [r'|] eqn:Hr; [|discriminate].
      simpl. intros [= <-]. apply IH in Hr. simpl in Hr.
      rewrite events_after. simpl. lia.
    + intros [= <-]. simpl. lia.
Qed.

(** Every sleep of the loop is a sleep of zero seconds. *)
Lemma retry_loop_sleeps (fuel : nat) (s : Retry) (n : nat) (r : Run Retry) :
  retry_loop db statement fuel s n = Some r →
  Forall (λ seconds, seconds = 0) (sleeps (events r)).
Proof.
  revert s n r. induction fuel as [|fuel IH]; intros s n r; simpl.
  - destruct (retry_continues s); [discriminate|]. intros [= <-]. constructor.
  - destruct (retry_continues s); [|intros [= <-]; constructor].
    destruct (db n statement) as [st rows|msg|].
    + erewrite retry_loop_done by reflexivity. simpl. intros [= <-]. constructor.
    + destruct (retry_loop db statement fuel _ (S n)) as [r'|] eqn:Hr; [|discriminate].
      simpl. intros [= <-]. apply IH in Hr.
      rewrite events_after. simpl. constructor; [|exact Hr].
      unfold RETRY_TIMEOUT. change (100 / 1000) with 0. lia.
    + intros [= <-]. constructor.
Qed.


End RetryLoop.

(** X26.  [analyze] comes to an end on every database and for every
    candidate row: it gives the retry loop all the fuel it needs. *)
Lemma analyze_total (cfg : Config) (db : Database) (n : nat) (tables : Row) :
  is_Some (analyze cfg db n tables).
Proof.
  unfold analyze, analyze_with. destruct (py_index tables 0) as [t|e]; [|eauto].
  destruct (retry_loop_total db (analyze_statement cfg t) (Z.to_nat analyze_retry)
              retry_init n) as [r Hr]; [simpl; lia|].
  rewrite Hr. simpl. eauto.
Qed.

(** ** An analysis that fails at every attempt *)

Section Exhausted.

Variable db : Database.
Variable statement : string.
Variable message : nat → string.
Hypothesis always_fails : ∀ k, db k statement = ExecFails (message k).



End Exhausted.


Lemma specified_delay_positive (n : Z) : 0 ≤ n → ¬ (inject_Z 0 == specified_delay n)%Q.
Proof.
  intros Hn. unfold specified_delay, Qeq. simpl.
  assert (0 < 2 ^ n) by (apply Z.pow_pos_nonneg; lia). lia.
Qed.

(** C5 (defect of the code).  On a table whose analysis fails at every
    attempt, [analyze] makes ten attempts and no more, reports the table
    with the last error and returns ERROR; but after each failed attempt it
    sleeps [2**attempt_count * RETRY_TIMEOUT] = 0 seconds, since
    [RETRY_TIMEOUT = 100/1000] is 0 in Python 2, and 0 seconds is not the
    specified delay of [2^n * 0.1] seconds for any [n]. *)
Theorem exhausted_analysis_sleeps_zero_seconds :
  ∃ r, analyze Sample.cfg Sample.db_down 0 Sample.events_table = Some r ∧
    outcome r = Returned ERROR ∧
    executed_sql (events r) = repeat "analyze compression events" 10 ∧
    sleeps (events r) = repeat 0 10 ∧
    last (events r)
      = Some (EvPrint "Unable to Analyze events due to Exception connection reset") ∧
    ∀ n, 0 ≤ n → ¬ (inject_Z 0 == specified_delay n)%Q.
Proof.
  eexists. split; [vm_compute; reflexivity|].
  repeat split; try reflexivity. apply specified_delay_positive.
Qed.

(** C6 (defect of the code).  On a table whose first analysis attempt fails
    and whose second attempt succeeds, the second attempt follows the
    first with only the sleep in between: line 255 reads
    [local_conn.rollback] without the call parentheses, so the whole run
    rolls nothing back. *)
Theorem retry_does_not_roll_back :
  ∃ r evs, analyze Sample.cfg Sample.db_fails_once 0 Sample.events_table = Some r ∧
    outcome r = Returned OK ∧
    events r = (EvWrite (analysing_text (PyStr "events"))
                :: EvExecute "analyze compression events"
                :: EvSleep 0
                :: EvExecute "analyze compression events"
                :: evs)%list ∧
    rollbacks (events r) = 0%nat.
Proof.
  eexists. eexists. split; [vm_compute; reflexivity|].
  repeat split; reflexivity.
Qed.

(** ** run_commands *)

Lemma all_done_cons (db : Database) (n : nat) (c : string) (commands : list string) :
  all_done db n (c :: commands) →
  (∃ statusmessage rows, db n c = ExecDone statusmessage rows) ∧
  all_done db (S n) commands.
Proof.
  intros H. split.
  - specialize (H 0%nat c eq_refl). by rewrite Nat.add_0_r in H.
  - intros i c' Hi. specialize (H (S i) c' Hi).
    by replace (S n + i)%nat with (n + S i)%nat by lia.
Qed.

Lemma run_commands_success (cfg : Config) (db : Database) (n : nat)
    (commands : list string) :
  all_done db n commands →
  outcome (run_commands cfg db n commands) = Returned true ∧
  executed (run_commands cfg db n commands) = (n + length commands)%nat ∧
  executed_sql (events (run_commands cfg db n commands)) = commands ∧
  rollbacks (events (run_commands cfg db n commands)) = 0%nat.
Proof.
  revert n. induction commands as [|c commands IH]; intros n Hall; simpl.
  - repeat split; reflexivity || (cbn; lia).
  - apply all_done_cons in Hall as [(st & rows & Hc) Hall]. rewrite Hc.
    destruct (IH (S n) Hall) as (Ho & Hn & Hsql & Hrb).
    rewrite outcome_after, executed_after, events_after. simpl.
    rewrite Ho, Hn, Hsql, Hrb. repeat split; try reflexivity. lia.
Qed.

Lemma run_commands_failure (cfg : Config) (db : Database) (n : nat)
    (pre : list string) (c : string) (post : list string) (message : string) :
  all_done db n pre →
  db (n + length pre)%nat c = ExecFails message →
  outcome (run_commands cfg db n (pre ++ c :: post)) = Returned false ∧
  executed (run_commands cfg db n (pre ++ c :: post)) = (n + length pre + 1)%nat ∧
  executed_sql (events (run_commands cfg db n (pre ++ c :: post))) = (pre ++ [c])%list ∧
  rollbacks (events (run_commands cfg db n (pre ++ c :: post))) = 1%nat ∧
  ∃ evs, events (run_commands cfg db n (pre ++ c :: post))
         = (evs ++ [EvExecute c; EvRollback; EvWrite message])%list.
Proof.
  revert n. induction pre as [|c0 pre IH]; intros n Hall Hc; simpl in *.
  - rewrite Nat.add_0_r in Hc. rewrite Hc. simpl.
    repeat split; try reflexivity; [cbn; lia|].
    by exists [comment cfg (running_text cfg c)].
  - apply all_done_cons in Hall as [(st & rows & Hc0) Hall]. rewrite Hc0.
    replace (n + S (length pre))%nat with (S n + length pre)%nat in Hc by lia.
    destruct (IH (S n) Hall Hc) as (Ho & Hn & Hsql & Hrb & evs & Hev).
    rewrite outcome_after, executed_after, events_after. simpl.
    rewrite Ho, Hn, Hsql, Hrb. repeat split; try reflexivity; [lia|].
    rewrite Hev.
    by exists (comment cfg (running_text cfg c0) :: EvExecute c0 :: comment cfg st :: evs).
Qed.

(** C7.  [run_commands] runs the statements in order.  When a statement
    fails after all the statements before it succeeded, the statements sent
    to the database are those up to and including the failing one and none
    of the remaining ones, the failure is followed by one rollback and by
    the report of the error message, and the result is False.  When every
    statement succeeds, all of them are sent, nothing is rolled back and
    the result is True. *)
Theorem run_commands_stops_at_first_failure (cfg : Config) (db : Database) (n : nat)
    (commands : list string) :
  (∀ pre c post message,
      commands = (pre ++ c :: post)%list →
      all_done db n pre →
      db (n + length pre)%nat c = ExecFails message →
      outcome (run_commands cfg db n commands) = Returned false ∧
      executed_sql (events (run_commands cfg db n commands)) = (pre ++ [c])%list ∧
      rollbacks (events (run_commands cfg db n commands)) = 1%nat ∧
      ∃ evs, events (run_commands cfg db n commands)
             = (evs ++ [EvExecute c; EvRollback; EvWrite message])%list) ∧
  (all_done db n commands →
      outcome (run_commands cfg db n commands) = Returned true ∧
      executed_sql (events (run_commands cfg db n commands)) = commands ∧
      rollbacks (events (run_commands cfg db n commands)) = 0%nat).
Proof.
  split.
  - intros pre c post message -> Hall Hc.
    destruct (run_commands_failure cfg db n pre c post message Hall Hc)
      as (Ho & _ & Hsql & Hrb & Hev).
    auto.
  - intros Hall.
    destruct (run_commands_success cfg db n commands Hall) as (Ho & _ & Hsql & Hrb).
    auto.
Qed.

(** On a server whose third statement fails, a plan of five statements
    stops after the third; on a server that is up, it runs to the end. *)
Lemma run_commands_stops_at_first_failure_witness :
  (outcome (run_commands Sample.cfg Sample.db_third_fails 0 ["a"; "b"; "c"; "d"; "e"])
     = Returned false ∧
   executed_sql (events (run_commands Sample.cfg Sample.db_third_fails 0
                           ["a"; "b"; "c"; "d"; "e"])) = ["a"; "b"; "c"]) ∧
  outcome (run_commands Sample.cfg Sample.db_up 0 ["a"; "b"; "c"; "d"; "e"])
    = Returned true.
Proof.
  split.
  - destruct (run_commands_stops_at_first_failure Sample.cfg Sample.db_third_fails 0
                ["a"; "b"; "c"; "d"; "e"]) as [Hfail _].
    destruct (Hfail ["a"; "b"] "c" ["d"; "e"] "disk full" eq_refl) as (Ho & Hsql & _).
    + intros [|[|i]] c' Hi; simpl in Hi; try discriminate; simpl; eauto.
    + reflexivity.
    + split; assumption.
  - destruct (run_commands_stops_at_first_failure Sample.cfg Sample.db_up 0
                ["a"; "b"; "c"; "d"; "e"]) as [_ Hok].
    destruct Hok as (Ho & _).
    + intros i c' _. unfold Sample.db_up. eauto.
    + assumption.
Defined.

(** ** The exit status of main *)

(** C9 (defect of the code).  Whatever the workers return, and so also
    when each of them returns OK, [main] leaves the loop over
    [worker_output] through [sys.exit(ret)] with [ret] the list
    [[result]]: line 599 appends the list of results wrapped in a list, a
    list is never equal to [OK], and [sys.exit] of a list is exit status 1,
    not 0. *)
Theorem main_exit_is_error_after_map (analyze_tables : list Row) (result : list Z) :
  main_exit (Some analyze_tables) (MapDone result) = ERROR ∧ ERROR ≠ OK.
Proof. split; [reflexivity | discriminate]. Qed.

(** Once the candidate tables are fetched, no run of [main] ends with
    status 0: the final [sys.exit(OK)] is reached only when [fetchall]
    returns None. *)
Lemma main_exit_never_ok (analyze_tables : list Row) (pool : MapOutcome) :
  main_exit (Some analyze_tables) pool ≠ OK.
Proof. destruct pool; discriminate. Qed.

(** ** The loop over the rows of the analyzer *)

Lemma scan_row_reads (descr : list Row) (row : Row) (st st' : Scan) :
  scan_row descr row st = Ok st' → ∃ c, reads descr row c ∧ st' = scan_step st c.
Proof.
  unfold scan_row. intros H.
  apply bind_Ok in H as (col & Hcol & H).
  apply bind_Ok in H as (rec & Hrec & H).
  apply bind_Ok in H as (ty0 & Hty0 & H).
  apply bind_Ok in H as (ty1 & Hty1 & H).
  apply bind_Ok in H as (ty2 & Hty2 & H).
  apply bind_Ok in H as (dk & Hdk & H).
  apply bind_Ok in H as (sk & Hsk & H).
  apply bind_Ok in H as (keys & Hkeys & H).
  apply bind_Ok in H as (comp & Hcomp & H).
  apply bind_Ok in H as (nn & Hnn & H).
  injection H as <-.
  apply py_index_Ok in Hcol, Hrec.
  apply py_replace_Ok in Hty1 as (s0 & -> & ->).
  apply py_replace_Ok in Hty2 as (s1 & [= <-] & ->).
  unfold compression_of in Hcomp.
  apply bind_Ok in Hcomp as (a & Ha & [= <-]).
  apply py_abs_Ok in Ha as (z & Hz & ->).
  exists {| c_name := col; c_recommended := rec;
            c_type := str_replace (str_replace s0 "character varying" "varchar")
                        "without time zone" "";
            c_distkey := dk; c_sortkey := z; c_notnull := nn |}.
  split.
  - unfold reads; simpl. repeat split; eauto.
  - unfold record_sortkey in Hkeys. rewrite (py_ne_zero sk z Hz) in Hkeys.
    unfold scan_step, column_text; simpl.
    destruct (z =? 0) eqn:Ez; simpl in Hkeys.
    + injection Hkeys as <-. simpl.
      apply Z.eqb_eq in Ez. subst z. reflexivity.
    + apply bind_Ok in Hkeys as (k & Hk & [= <-]).
      apply py_abs_Ok in Hk as (z' & Hz' & ->).
      assert (z' = z) by congruence. subst z'.
      rewrite (py_lt_zero sk z Hz). reflexivity.
Qed.

Lemma scan_rows_reads (descr : list Row) (output : list Row) (st st' : Scan) :
  scan_rows descr output st = Ok st' →
  ∃ cs, Forall2 (reads descr) output cs ∧ st' = fold_left scan_step cs st.
Proof.
  revert st. induction output as [|row output IH]; intros st; simpl.
  - intros [= <-]. exists []. split; [constructor | reflexivity].
  - intros H. apply bind_Ok in H as (st1 & Hrow & H).
    apply scan_row_reads in Hrow as (c & Hc & ->).
    apply IH in H as (cs & Hcs & ->).
    exists (c :: cs). split; [by constructor | reflexivity].
Qed.

Lemma fold_encode_columns (cs : list Column) (st : Scan) :
  encode_columns (fold_left scan_step cs st)
  = (encode_columns st ++ List.map column_text cs)%list.
Proof.
  revert st. induction cs as [|c cs IH]; intros st; simpl.
  - by rewrite app_nil_r.
  - rewrite IH. simpl. by rewrite <- app_assoc.
Qed.

Lemma fold_found_non_raw (cs : list Column) (st : Scan) :
  found_non_raw (fold_left scan_step cs st) = true ↔
  found_non_raw st = true ∨
  ∃ c, In c cs ∧ py_ne (c_recommended c) (PyStr "raw") = true.
Proof.
  revert st. induction cs as [|c cs IH]; intros st; simpl.
  - split; [auto | intros [H|(c & [] & _)]; exact H].
  - rewrite IH. simpl. rewrite orb_true_iff. split.
    + intros [[H|H]|(c' & Hin & H)]; eauto.
    + intros [H|(c' & [<-|Hin] & H)]; eauto.
Qed.

Lemma fold_has_zindex (cs : list Column) (st : Scan) :
  has_zindex_sortkeys (fold_left scan_step cs st) = true ↔
  has_zindex_sortkeys st = true ∨ ∃ c, In c cs ∧ c_sortkey c < 0.
Proof.
  revert st. induction cs as [|c cs IH]; intros st; simpl.
  - split; [auto | intros [H|(c & [] & _)]; exact H].
  - rewrite IH. simpl. rewrite orb_true_iff, Z.ltb_lt. split.
    + intros [[H|H]|(c' & Hin & H)]; eauto.
    + intros [H|(c' & [<-|Hin] & H)]; eauto.
Qed.

(** A key of the dictionary is the absolute position of a sort-key column,
    and its value the name of such a column. *)
Lemma fold_sortkeys_lookup (cs : list Column) (st : Scan) (k : Z) (v : PyVal) :
  sortkeys (fold_left scan_step cs st) !! k = Some v →
  sortkeys st !! k = Some v ∨
  ∃ c, In c cs ∧ c_sortkey c ≠ 0 ∧ Z.abs (c_sortkey c) = k ∧ c_name c = v.
Proof.
  revert st. induction cs as [|c cs IH]; intros st; simpl; [auto|].
  intros H. apply IH in H as [H|(c' & Hin & H)]; [|right; eauto].
  simpl in H. destruct (Z.eqb_spec (c_sortkey c) 0) as [E|E]; [auto|].
  destruct (decide (Z.abs (c_sortkey c) = k)) as [<-|Hne].
  - rewrite lookup_insert_eq in H. injection H as <-. right. exists c. auto.
  - rewrite lookup_insert_ne in H by exact Hne. auto.
Qed.

Lemma fold_sortkeys_keeps (cs : list Column) (st : Scan) (k : Z) :
  is_Some (sortkeys st !! k) → is_Some (sortkeys (fold_left scan_step cs st) !! k).
Proof.
  revert st. induction cs as [|c cs IH]; intros st H; simpl; [exact H|].
  apply IH. simpl. destruct (c_sortkey c =? 0); [exact H|].
  destruct (decide (Z.abs (c_sortkey c) = k)) as [<-|Hne].
  - rewrite lookup_insert_eq. eauto.
  - by rewrite lookup_insert_ne.
Qed.

(** Every sort-key column has its absolute position among the keys. *)
Lemma fold_sortkeys_present (cs : list Column) (st : Scan) (c : Column) :
  In c cs → c_sortkey c ≠ 0 →
  is_Some (sortkeys (fold_left scan_step cs st) !! Z.abs (c_sortkey c)).
Proof.
  revert st. induction cs as [|c' cs IH]; intros st Hin Hz; simpl; [destruct Hin|].
  destruct Hin as [->|Hin]; [|by apply IH].
  apply fold_sortkeys_keeps. simpl.
  destruct (Z.eqb_spec (c_sortkey c) 0) as [E|E]; [contradiction|].
  rewrite lookup_insert_eq. eauto.
Qed.

(** ** Rows and what is read from them *)

Lemma reads_sortkey (descr : list Row) (row : Row) (c : Column) :
  reads descr row c → row_sortkey descr row (c_name c) (c_sortkey c).
Proof. intros (Hcol & _ & _ & _ & Hsk & _). split; assumption. Qed.

Lemma row_sortkey_reads (descr : list Row) (row : Row) (c : Column) (col : PyVal) (z : Z) :
  reads descr row c → row_sortkey descr row col z → col = c_name c ∧ z = c_sortkey c.
Proof.
  intros (Hcol & _ & _ & _ & (sk & Hsk & Hz) & _) [Hcol' (sk' & Hsk' & Hz')].
  assert (col = c_name c) as -> by congruence.
  split; [reflexivity|]. congruence.
Qed.

Lemma Forall2_In_left {A B : Type} (R : A → B → Prop) (l : list A) (k : list B) (x : A) :
  Forall2 R l k → In x l → ∃ y, In y k ∧ R x y.
Proof.
  induction 1 as [|a b l k Hab _ IH]; simpl; [intros []|].
  intros [<-|Hin]; [eauto|]. destruct (IH Hin) as (y & Hy & HR). eauto.
Qed.

Lemma Forall2_In_right {A B : Type} (R : A → B → Prop) (l : list A) (k : list B) (y : B) :
  Forall2 R l k → In y k → ∃ x, In x l ∧ R x y.
Proof.
  induction 1 as [|a b l k Hab _ IH]; simpl; [intros []|].
  intros [<-|Hin]; [eauto|]. destruct (IH Hin) as (x & Hx & HR). eauto.
Qed.

(** ** The sort-key block *)

Lemma sortkey_loop_spec (keys : gmap Z PyVal) (len a : nat) (acc clause : string) :
  (a + len = S (size keys))%nat →
  sortkey_loop keys (seq a len) acc = Ok clause →
  ∃ cols, length cols = len ∧
    (∀ i s, cols !! i = Some s → keys !! Z.of_nat (a + i) = Some (PyStr s)) ∧
    clause = acc +:+ sortkey_tail cols.
Proof.
  revert a acc. induction len as [|len IH]; intros a acc Hlen; simpl.
  - intros [= <-]. exists []. split; [reflexivity|]. split.
    + intros i s Hi. discriminate.
    + simpl. by rewrite append_nil_r.
  - intros H. apply bind_Ok in H as (acc' & Hstep & H).
    unfold sortkey_step in Hstep.
    destruct (keys !! Z.of_nat a) as [col|] eqn:Hcol; [|discriminate].
    apply bind_Ok in Hstep as (s0 & Hcat & [= <-]).
    destruct col as [| | |c|]; try discriminate. injection Hcat as <-.
    apply IH in H as (cols & Hcols & Hkeys & ->); [|lia].
    exists (c :: cols). split; [simpl; lia|]. split.
    + intros [|i] s Hi; simpl in Hi.
      * injection Hi as <-. by rewrite Nat.add_0_r.
      * apply Hkeys in Hi. by replace (a + S i)%nat with (S a + i)%nat by lia.
    + destruct (Nat.eqb_spec a (size keys)) as [E|E]; simpl.
      * assert (len = 0)%nat by lia. subst len. destruct cols; [|discriminate].
        simpl. by rewrite append_nil_r, !append_assoc.
      * destruct cols as [|c' cols]; [simpl in Hcols; lia|].
        unfold sortkey_tail.
        change (String.concat "," (c :: c' :: cols))
          with (c +:+ "," +:+ String.concat "," (c' :: cols)).
        by rewrite !append_assoc.
Qed.

Lemma sortkey_clause_Ok (st : Scan) (clause : string) :
  (0 < size (sortkeys st))%nat →
  sortkey_clause st = Ok clause →
  ∃ cols, length cols = size (sortkeys st) ∧
    (∀ i s, cols !! i = Some s → sortkeys st !! (Z.of_nat i + 1) = Some (PyStr s)) ∧
    clause = sortkey_text (has_zindex_sortkeys st) cols.
Proof.
  intros Hsize H. unfold sortkey_clause in H.
  apply sortkey_loop_spec in H as (cols & Hlen & Hkeys & ->); [|lia].
  exists cols. split; [exact Hlen|]. split.
  - intros i s Hi. apply Hkeys in Hi.
    by replace (Z.of_nat i + 1) with (Z.of_nat (1 + i)) by lia.
  - unfold sortkey_text, sortkey_tail.
    destruct cols as [|c cols]; [simpl in Hlen; lia|].
    by rewrite !append_assoc.
Qed.

(** A dictionary that has the keys 1 to [len(sortkeys)] has no other key. *)
Lemma keys_one_to_size (m : gmap Z PyVal) (k : Z) :
  (∀ i, (i < size m)%nat → is_Some (m !! (Z.of_nat i + 1))) →
  is_Some (m !! k) → 1 ≤ k ≤ Z.of_nat (size m).
Proof.
  intros Hall Hk.
  set (range := (λ i : nat, Z.of_nat i + 1) <$> seq 0 (size m)).
  assert (NoDup range) as Hnodup.
  { apply NoDup_fmap_2; [intros i j; lia | apply NoDup_seq]. }
  assert (list_to_set range = dom m :> gset Z) as Heq.
  { apply set_subseteq_size_eq.
    - intros x Hx. apply elem_of_list_to_set, list_elem_of_fmap in Hx as (i & -> & Hi).
      apply elem_of_seq in Hi. apply elem_of_dom, Hall. lia.
    - rewrite size_dom, size_list_to_set by exact Hnodup.
      unfold range. rewrite length_fmap, length_seq. lia. }
  apply elem_of_dom in Hk. rewrite <- Heq in Hk.
  apply elem_of_list_to_set, list_elem_of_fmap in Hk as (i & -> & Hi).
  apply elem_of_seq in Hi. lia.
Qed.

(** ** The statements of the plan *)

Lemma create_table_stmt_Ok (cfg : Config) (table_name : PyVal) (st : Scan)
    (create : string) :
  create_table_stmt cfg table_name st = Ok create →
  (size (sortkeys st) = 0%nat ∧
   create = create_table_body cfg table_name (encode_columns st) +:+ ";" +:+ nl) ∨
  ((0 < size (sortkeys st))%nat ∧
   ∃ clause, sortkey_clause st = Ok clause ∧
     create = (create_table_body cfg table_name (encode_columns st)
                 +:+ (" " +:+ clause +:+ " ")) +:+ ";" +:+ nl).
Proof.
  unfold create_table_stmt. intros H. apply bind_Ok in H as (body & Hbody & [= <-]).
  destruct (Nat.ltb_spec 0 (size (sortkeys st))) as [Hlt|Hge].
  - right. split; [exact Hlt|].
    apply bind_Ok in Hbody as (clause & Hclause & [= <-]). eauto.
  - left. injection Hbody as <-. split; [lia | reflexivity].
Qed.

Lemma synthesize_Some (cfg : Config) (table_name : PyVal) (descr output : list Row)
    (statements : list string) :
  synthesize cfg table_name descr output = Ok (Some statements) →
  ∃ cs st create swap,
    Forall2 (reads descr) output cs ∧
    scan_rows descr output scan_init = Ok st ∧
    st = fold_left scan_step cs scan_init ∧
    found_non_raw st || force cfg = true ∧
    create_table_stmt cfg table_name st = Ok create ∧
    swap_stmts cfg table_name = Ok swap ∧
    statements = (create :: insert_stmt cfg table_name :: analyze_stmt cfg table_name
                    :: swap ++ [commit_stmt])%list.
Proof.
  unfold synthesize. intros H. apply bind_Ok in H as (st & Hscan & H).
  destruct (scan_rows_reads _ _ _ _ Hscan) as (cs & Hcs & Hst).
  destruct (found_non_raw st || force cfg) eqn:Htrig; [|discriminate].
  apply bind_Ok in H as (stmts & Hplan & [= <-]).
  unfold plan_stmts in Hplan.
  apply bind_Ok in Hplan as (create & Hcreate & Hplan).
  apply bind_Ok in Hplan as (swap & Hswap & [= <-]).
  exists cs, st, create, swap. auto 10.
Qed.

(** The first statement of a plan is the create-table statement, and it
    opens with the column definitions of the rows, in their order. *)
Lemma plan_columns (cfg : Config) (table_name : PyVal) (descr output : list Row)
    (statements : list string) :
  synthesize cfg table_name descr output = Ok (Some statements) →
  ∃ cs st tail,
    Forall2 (reads descr) output cs ∧
    scan_rows descr output scan_init = Ok st ∧
    encode_columns st = List.map column_text cs ∧
    statements !! 0%nat
      = Some (create_table_body cfg table_name (encode_columns st) +:+ tail).
Proof.
  intros H.
  apply synthesize_Some in H
    as (cs & st & create & swap & Hcs & Hscan & Hst & _ & Hcreate & _ & ->).
  exists cs, st.
  assert (encode_columns st = List.map column_text cs) as Hcols
    by (rewrite Hst; apply fold_encode_columns).
  apply create_table_stmt_Ok in Hcreate.
  destruct Hcreate as [[_ ->]|[_ (clause & _ & ->)]]; eexists;
    (split; [exact Hcs|]); (split; [exact Hscan|]); (split; [exact Hcols|]).
  - reflexivity.
  - simpl. by rewrite append_assoc.
Qed.

(** ** Column definitions *)

(** C1.  In the create-table statement of a plan, the definition of a
    column whose sort-key position in the table description has absolute
    value 1 carries the encoding RAW, whatever encoding the row of the
    analyzer recommends for it. *)
Theorem first_sort_key_is_raw (cfg : Config) (table_name : PyVal)
    (descr output : list Row) (statements : list string) :
  synthesize cfg table_name descr output = Ok (Some statements) →
  ∃ st tail,
    scan_rows descr output scan_init = Ok st ∧
    statements !! 0%nat
      = Some (create_table_body cfg table_name (encode_columns st) +:+ tail) ∧
    length (encode_columns st) = length output ∧
    ∀ i row col sortkey,
      output !! i = Some row →
      row !! 1%nat = Some col →
      get_table_attribute descr col 4 = Ok sortkey →
      py_abs sortkey = Ok 1 →
      ∃ ty nul dk,
        encode_columns st !! i
        = Some (py_str col +:+ " " +:+ ty +:+ " " +:+ nul +:+ " encode RAW " +:+ dk).
Proof.
  intros H. apply plan_columns in H as (cs & st & tail & Hcs & Hscan & Hcols & Hfirst).
  exists st, tail. split; [exact Hscan|]. split; [exact Hfirst|].
  rewrite Hcols. split.
  { rewrite length_map. symmetry. by eapply Forall2_length. }
  intros i row col sortkey Hrow Hcol Hsk Habs.
  destruct (Forall2_lookup_l _ _ _ _ _ Hcs Hrow) as (c & Hc & Hreads).
  destruct Hreads as (Hname & _ & _ & _ & (sk & Hsk' & Hz) & _).
  assert (c_name c = col) as Hcn by congruence.
  rewrite Hcn in Hsk'. assert (sk = sortkey) as -> by congruence.
  apply py_abs_Ok in Habs as (z & Hz' & Habs).
  assert (Z.abs (c_sortkey c) = 1) as Hone by congruence.
  exists (c_type c), (null_clause (c_notnull c)), (distkey_clause (c_distkey c)).
  rewrite list_lookup_fmap, Hc. simpl. f_equal.
  unfold column_text, column_spec. rewrite Hone, Hcn. reflexivity.
Qed.

(** The plan for the sample table [events]: the second row of the analyzer
    is for the column [id], the first sort key, and recommends lzo. *)
Lemma first_sort_key_is_raw_witness :
  synthesize Sample.cfg (PyStr "events") Sample.events_descr Sample.events_output
    = Ok (Some Sample.events_plan) ∧
  ∃ st tail ty nul dk,
    Sample.events_plan !! 0%nat
      = Some (create_table_body Sample.cfg (PyStr "events") (encode_columns st) +:+ tail) ∧
    encode_columns st !! 1%nat
      = Some ("id" +:+ " " +:+ ty +:+ " " +:+ nul +:+ " encode RAW " +:+ dk).
Proof.
  assert (synthesize Sample.cfg (PyStr "events") Sample.events_descr Sample.events_output
          = Ok (Some Sample.events_plan)) as Hplan by (vm_compute; reflexivity).
  split; [exact Hplan|].
  destruct (first_sort_key_is_raw Sample.cfg (PyStr "events") Sample.events_descr
              Sample.events_output Sample.events_plan Hplan)
    as (st & tail & _ & Hfirst & _ & Hraw).
  destruct (Hraw 1%nat [PyStr "events"; PyStr "id"; PyStr "lzo"; PyStr "12.50"]
              (PyStr "id") (PyInt 1)) as (ty & nul & dk & Hspec);
    try reflexivity.
  exists st, tail, ty, nul, dk. split; assumption.
Defined.

(** C10.  In the create-table statement of a plan, the definition of a
    column has NOT NULL in its null clause exactly when the notnull cell of
    the table description is the string 'true', and an empty null clause
    otherwise; the boolean True is not that string, so it gives the empty
    clause. *)
Theorem not_null_iff_string_true (cfg : Config) (table_name : PyVal)
    (descr output : list Row) (statements : list string) :
  synthesize cfg table_name descr output = Ok (Some statements) →
  ∃ st tail,
    scan_rows descr output scan_init = Ok st ∧
    statements !! 0%nat
      = Some (create_table_body cfg table_name (encode_columns st) +:+ tail) ∧
    length (encode_columns st) = length output ∧
    ∀ i row col notnull,
      output !! i = Some row →
      row !! 1%nat = Some col →
      get_table_attribute descr col 5 = Ok notnull →
      ∃ ty nul enc dk,
        encode_columns st !! i
        = Some (py_str col +:+ " " +:+ ty +:+ " " +:+ nul +:+ " encode " +:+ enc
                  +:+ " " +:+ dk) ∧
        (notnull = PyStr "true" ∧ nul = "NOT NULL" ∨
         notnull ≠ PyStr "true" ∧ nul = "") ∧
        (notnull = PyBool true → nul = "").
Proof.
  intros H. apply plan_columns in H as (cs & st & tail & Hcs & Hscan & Hcols & Hfirst).
  exists st, tail. split; [exact Hscan|]. split; [exact Hfirst|].
  rewrite Hcols. split.
  { rewrite length_map. symmetry. by eapply Forall2_length. }
  intros i row col notnull Hrow Hcol Hnn.
  destruct (Forall2_lookup_l _ _ _ _ _ Hcs Hrow) as (c & Hc & Hreads).
  destruct Hreads as (Hname & _ & _ & _ & _ & Hnn').
  assert (c_name c = col) as Hcn by congruence.
  rewrite Hcn in Hnn'. assert (c_notnull c = notnull) as Hcnn by congruence.
  exists (c_type c), (null_clause notnull),
    (py_str (if Z.abs (c_sortkey c) =? 1 then PyStr "RAW" else c_recommended c)),
    (distkey_clause (c_distkey c)).
  split; [|split].
  - rewrite list_lookup_fmap, Hc. simpl. f_equal.
    unfold column_text, column_spec. rewrite Hcn, Hcnn. reflexivity.
  - unfold null_clause. destruct (py_eq notnull (PyStr "true")) eqn:E.
    + left. split; [by apply py_eq_str | reflexivity].
    + right. split; [|reflexivity]. intros ->. simpl in E. discriminate.
  - intros ->. reflexivity.
Qed.

(** The plan for the sample table [events]: the driver gives the notnull
    cell of [id] as the boolean True, and the null clause is empty. *)
Lemma not_null_iff_string_true_witness :
  synthesize Sample.cfg (PyStr "events") Sample.events_descr Sample.events_output
    = Ok (Some Sample.events_plan) ∧
  ∃ st tail ty enc dk,
    Sample.events_plan !! 0%nat
      = Some (create_table_body Sample.cfg (PyStr "events") (encode_columns st) +:+ tail) ∧
    encode_columns st !! 1%nat
      = Some ("id" +:+ " " +:+ ty +:+ " " +:+ "" +:+ " encode " +:+ enc +:+ " " +:+ dk).
Proof.
  assert (synthesize Sample.cfg (PyStr "events") Sample.events_descr Sample.events_output
          = Ok (Some Sample.events_plan)) as Hplan by (vm_compute; reflexivity).
  split; [exact Hplan|].
  destruct (not_null_iff_string_true Sample.cfg (PyStr "events") Sample.events_descr
              Sample.events_output Sample.events_plan Hplan)
    as (st & tail & _ & Hfirst & _ & Hnul).
  destruct (Hnul 1%nat [PyStr "events"; PyStr "id"; PyStr "lzo"; PyStr "12.50"]
              (PyStr "id") (PyBool true)) as (ty & nul & enc & dk & Hspec & _ & Hbool);
    try reflexivity.
  rewrite (Hbool eq_refl) in Hspec.
  exists st, tail, ty, enc, dk. split; assumption.
Defined.

(** ** The sort-key block of a plan *)

(** The create-table statement of a plan for a table with a sort key ends
    with the sort-key block, which lists the values of the dictionary
    [sortkeys] under the keys 1, 2, ... in this order. *)
Lemma plan_sortkey_block (cfg : Config) (table_name : PyVal) (descr output : list Row)
    (statements : list string) :
  synthesize cfg table_name descr output = Ok (Some statements) →
  has_sort_key descr output →
  ∃ cs st cols,
    Forall2 (reads descr) output cs ∧
    scan_rows descr output scan_init = Ok st ∧
    st = fold_left scan_step cs scan_init ∧
    statements !! 0%nat = Some (with_sortkey_block cfg table_name st cols) ∧
    length cols = size (sortkeys st) ∧
    ∀ i s, cols !! i = Some s → sortkeys st !! (Z.of_nat i + 1) = Some (PyStr s).
Proof.
  intros H (row & col & z & Hin & Hsk & Hz).
  apply synthesize_Some in H
    as (cs & st & create & swap & Hcs & Hscan & Hst & _ & Hcreate & _ & ->).
  destruct (Forall2_In_left _ _ _ _ Hcs Hin) as (c & Hc & Hreads).
  destruct (row_sortkey_reads _ _ _ _ _ Hreads Hsk) as [-> ->].
  pose proof (fold_sortkeys_present cs scan_init c Hc Hz) as [v Hv].
  rewrite <- Hst in Hv.
  apply create_table_stmt_Ok in Hcreate as [[Hsize _]|[Hsize (clause & Hclause & ->)]].
  { apply map_size_empty_iff in Hsize. rewrite Hsize, lookup_empty in Hv. discriminate. }
  apply sortkey_clause_Ok in Hclause as (cols & Hlen & Hkeys & ->); [|exact Hsize].
  exists cs, st, cols. auto 10.
Qed.

(** What the sort-key block of a plan lists, and in which form. *)
Lemma plan_sortkey_listing (cfg : Config) (table_name : PyVal)
    (descr output : list Row) (statements : list string) :
  synthesize cfg table_name descr output = Ok (Some statements) →
  has_sort_key descr output →
  ∃ st cols,
    scan_rows descr output scan_init = Ok st ∧
    statements !! 0%nat = Some (with_sortkey_block cfg table_name st cols) ∧
    length cols = size (sortkeys st) ∧
    (has_zindex_sortkeys st = true ↔
     ∃ row col z, In row output ∧ row_sortkey descr row col z ∧ z < 0) ∧
    (∀ i s, cols !! i = Some s →
       sortkeys st !! (Z.of_nat i + 1) = Some (PyStr s) ∧
       ∃ row z, In row output ∧ row_sortkey descr row (PyStr s) z ∧
                Z.abs z = Z.of_nat i + 1) ∧
    (distinct_positions descr output →
     ∀ row col z, In row output → row_sortkey descr row col z → z ≠ 0 →
       ∃ s, col = PyStr s ∧ cols !! Z.to_nat (Z.abs z - 1) = Some s).
Proof.
  intros H Hkey.
  destruct (plan_sortkey_block _ _ _ _ _ H Hkey)
    as (cs & st & cols & Hcs & Hscan & Hst & Hfirst & Hlen & Hkeys).
  exists st, cols.
  split; [exact Hscan|]. split; [exact Hfirst|]. split; [exact Hlen|]. split.
  { rewrite Hst, fold_has_zindex. simpl. split.
    - intros [Hf|(c & Hc & Hneg)]; [discriminate|].
      destruct (Forall2_In_right _ _ _ _ Hcs Hc) as (row & Hrow & Hreads).
      exists row, (c_name c), (c_sortkey c).
      split; [exact Hrow|]. split; [by apply reads_sortkey | exact Hneg].
    - intros (row & col & z & Hrow & Hsk & Hneg). right.
      destruct (Forall2_In_left _ _ _ _ Hcs Hrow) as (c & Hc & Hreads).
      destruct (row_sortkey_reads _ _ _ _ _ Hreads Hsk) as [-> ->]. eauto. }
  assert (∀ k v, sortkeys st !! k = Some v →
            ∃ row z, In row output ∧ row_sortkey descr row v z ∧ z ≠ 0 ∧ Z.abs z = k)
    as Hfrom.
  { intros k v Hv. rewrite Hst in Hv.
    apply fold_sortkeys_lookup in Hv as [Hv|(c & Hc & Hz & Habs & Hname)].
    { simpl in Hv. rewrite lookup_empty in Hv. discriminate. }
    destruct (Forall2_In_right _ _ _ _ Hcs Hc) as (row & Hrow & Hreads).
    exists row, (c_sortkey c). rewrite <- Hname.
    split; [exact Hrow|]. split; [by apply reads_sortkey | auto]. }
  split.
  - intros i s Hi. apply Hkeys in Hi. split; [exact Hi|].
    apply Hfrom in Hi as (row & z & Hrow & Hsk & _ & Habs). eauto.
  - intros Hdistinct row col z Hrow Hsk Hz.
    destruct (Forall2_In_left _ _ _ _ Hcs Hrow) as (c & Hc & Hreads).
    destruct (row_sortkey_reads _ _ _ _ _ Hreads Hsk) as [Hcol Hzc].
    pose proof (fold_sortkeys_present cs scan_init c Hc) as Hpresent.
    rewrite <- Hzc, <- Hst in Hpresent. specialize (Hpresent Hz).
    assert (1 ≤ Z.abs z ≤ Z.of_nat (size (sortkeys st))) as Hrange.
    { apply keys_one_to_size; [|exact Hpresent].
      intros i Hi. rewrite <- Hlen in Hi.
      apply lookup_lt_is_Some_2 in Hi as [s Hs]. apply Hkeys in Hs. eauto. }
    assert (Z.to_nat (Z.abs z - 1) < length cols)%nat as Hplace by lia.
    apply lookup_lt_is_Some_2 in Hplace as [s Hs].
    exists s. split; [|exact Hs].
    apply Hkeys in Hs.
    replace (Z.of_nat (Z.to_nat (Z.abs z - 1)) + 1) with (Z.abs z) in Hs by lia.
    apply Hfrom in Hs as (row' & z' & Hrow' & Hsk' & Hz' & Habs').
    symmetry. eapply (Hdistinct row' row); eauto.
Qed.

(** C8.  In the create-table statement of a plan for a table with a sort
    key, the sort-key block is of the INTERLEAVED SORTKEY form exactly when
    the table description gives some column of the rows of the analyzer a
    negative sort-key position, and of the plain SORTKEY form otherwise. *)
Theorem interleaved_iff_negative_position (cfg : Config) (table_name : PyVal)
    (descr output : list Row) (statements : list string) :
  synthesize cfg table_name descr output = Ok (Some statements) →
  has_sort_key descr output →
  ∃ st interleaved cols,
    scan_rows descr output scan_init = Ok st ∧
    statements !! 0%nat
      = Some ((create_table_body cfg table_name (encode_columns st)
                 +:+ (" " +:+ sortkey_text interleaved cols +:+ " ")) +:+ ";" +:+ nl) ∧
    (interleaved = true ↔
     ∃ row col z, In row output ∧ row_sortkey descr row col z ∧ z < 0).
Proof.
  intros H Hkey.
  destruct (plan_sortkey_listing _ _ _ _ _ H Hkey)
    as (st & cols & Hscan & Hfirst & _ & Hiff & _).
  exists st, (has_zindex_sortkeys st), cols.
  split; [exact Hscan|]. split; [exact Hfirst | exact Hiff].
Qed.

(** The sample table [clicks] has the sort-key positions 1 and -2: its
    block is interleaved.  The sample table [events] has 1 and 2: its block
    is plain. *)
Lemma interleaved_iff_negative_position_witness :
  (∃ st cols,
     Sample.clicks_plan !! 0%nat
     = Some ((create_table_body Sample.cfg (PyStr "clicks") (encode_columns st)
                +:+ (" " +:+ sortkey_text true cols +:+ " ")) +:+ ";" +:+ nl)) ∧
  (∃ st cols,
     Sample.events_plan !! 0%nat
     = Some ((create_table_body Sample.cfg (PyStr "events") (encode_columns st)
                +:+ (" " +:+ sortkey_text false cols +:+ " ")) +:+ ";" +:+ nl)).
Proof.
  split.
  - destruct (interleaved_iff_negative_position Sample.cfg (PyStr "clicks")
                Sample.clicks_descr Sample.clicks_output Sample.clicks_plan)
      as (st & interleaved & cols & _ & Hfirst & Hiff).
    + vm_compute. reflexivity.
    + exists [PyStr "clicks"; PyStr "day"; PyStr "delta"; PyStr "70.00"],
        (PyStr "day"), (-2).
      split; [simpl; auto|]. split; [|lia].
      split; [reflexivity|]. exists (PyInt (-2)). split; reflexivity.
    + assert (interleaved = true) as ->.
      { apply Hiff.
        exists [PyStr "clicks"; PyStr "day"; PyStr "delta"; PyStr "70.00"],
          (PyStr "day"), (-2).
        split; [simpl; auto|]. split; [|lia].
        split; [reflexivity|]. exists (PyInt (-2)). split; reflexivity. }
      eauto.
  - destruct (interleaved_iff_negative_position Sample.cfg (PyStr "events")
                Sample.events_descr Sample.events_output Sample.events_plan)
      as (st & interleaved & cols & _ & Hfirst & Hiff).
    + vm_compute. reflexivity.
    + exists [PyStr "events"; PyStr "id"; PyStr "lzo"; PyStr "12.50"], (PyStr "id"), 1.
      split; [simpl; auto|]. split; [|lia].
      split; [reflexivity|]. exists (PyInt 1). split; reflexivity.
    + destruct interleaved; [|eauto].
      destruct Hiff as [Hneg _].
      destruct (Hneg eq_refl) as (row & col & z & Hrow & [Hcol (sk & Hsk & Hz)] & Hlt).
      exfalso. simpl in Hrow.
      destruct Hrow as [<-|[<-|[<-|[]]]]; simpl in Hcol; injection Hcol as <-;
        vm_compute in Hsk; injection Hsk as <-; simpl in Hz; injection Hz as <-; lia.
Defined.

(** The listing is determined by the positions: whatever the order of the
    rows of the analyzer, two listings that satisfy the two properties of
    C2 for the same rows are equal. *)
Lemma sortkey_listing_unique (descr output output' : list Row) (cols cols' : list string) :
  (∀ row, In row output ↔ In row output') →
  (∀ i s, cols !! i = Some s →
     ∃ row z, In row output ∧ row_sortkey descr row (PyStr s) z ∧
              Z.abs z = Z.of_nat i + 1) →
  (∀ row col z, In row output → row_sortkey descr row col z → z ≠ 0 →
     ∃ s, col = PyStr s ∧ cols !! Z.to_nat (Z.abs z - 1) = Some s) →
  (∀ i s, cols' !! i = Some s →
     ∃ row z, In row output' ∧ row_sortkey descr row (PyStr s) z ∧
              Z.abs z = Z.of_nat i + 1) →
  (∀ row col z, In row output' → row_sortkey descr row col z → z ≠ 0 →
     ∃ s, col = PyStr s ∧ cols' !! Z.to_nat (Z.abs z - 1) = Some s) →
  cols = cols'.
Proof.
  intros Hsame Hfrom Hall Hfrom' Hall'.
  assert (∀ i s, cols !! i = Some s → cols' !! i = Some s) as Hle.
  { intros i s Hi. apply Hfrom in Hi as (row & z & Hrow & Hsk & Habs).
    apply Hsame in Hrow.
    destruct (Hall' row (PyStr s) z Hrow Hsk) as (s' & [= <-] & Hs'); [lia|].
    by replace (Z.to_nat (Z.abs z - 1)) with i in Hs' by lia. }
  assert (∀ i s, cols' !! i = Some s → cols !! i = Some s) as Hge.
  { intros i s Hi. apply Hfrom' in Hi as (row & z & Hrow & Hsk & Habs).
    apply Hsame in Hrow.
    destruct (Hall row (PyStr s) z Hrow Hsk) as (s' & [= <-] & Hs'); [lia|].
    by replace (Z.to_nat (Z.abs z - 1)) with i in Hs' by lia. }
  apply list_eq. intros i.
  destruct (cols !! i) as [s|] eqn:E.
  - symmetry. by apply Hle.
  - destruct (cols' !! i) as [s'|] eqn:E'; [|reflexivity].
    apply Hge in E'. congruence.
Qed.

(** When the positions have a gap the dictionary lacks a key of the range,
    and the sort-key block is not built. *)
Example sortkey_gap_raises_KeyError :
  synthesize Sample.cfg (PyStr "t")
    [ [PyStr "a"; PyStr "integer"; PyStr "none"; PyBool false; PyInt 1; PyBool false];
      [PyStr "b"; PyStr "integer"; PyStr "none"; PyBool false; PyInt 3; PyBool false] ]
    [ [PyStr "t"; PyStr "a"; PyStr "lzo"; PyStr "0.00"];
      [PyStr "t"; PyStr "b"; PyStr "lzo"; PyStr "0.00"] ]
  = Raise KeyError.
Proof. vm_compute. reflexivity. Qed.

(** ** The order of the catalog rows and of the rows of the analyzer *)

Lemma filter_length_Permutation {A : Type} (f : A → bool) (l l' : list A) :
  Permutation l l' → length (List.filter f l) = length (List.filter f l').
Proof.
  induction 1 as [|x l l' _ IH|x y l|l l' l'' _ IH1 _ IH2]; simpl.
  - reflexivity.
  - destruct (f x); simpl; congruence.
  - destruct (f x), (f y); reflexivity.
  - congruence.
Qed.

Lemma find_Permutation {A : Type} (f : A → bool) (l l' : list A) :
  Permutation l l' →
  (length (List.filter f l) ≤ 1)%nat →
  List.find f l = List.find f l'.
Proof.
  induction 1 as [|x l l' _ IH|x y l|l l' l'' Hperm IH1 _ IH2]; simpl; intros Hone.
  - reflexivity.
  - destruct (f x); [reflexivity|]. by apply IH.
  - destruct (f x), (f y); simpl in Hone; try reflexivity. lia.
  - rewrite IH1 by exact Hone. apply IH2.
    by rewrite <- (filter_length_Permutation f _ _ Hperm).
Qed.

(** [get_table_attribute] returns the cell of the first row for the column. *)
Lemma get_table_attribute_find (descr : list Row) (column_name : PyVal) (index : nat) :
  Forall (λ item, item ≠ []) descr →
  get_table_attribute descr column_name index
  = match List.find (item_matches column_name) descr with
    | Some item => py_index item index
    | None => Ok PyNone
    end.
Proof.
  induction 1 as [|item descr Hitem _ IH]; simpl; [reflexivity|].
  unfold item_matches at 1. unfold py_index at 1.
  destruct item as [|name item]; [contradiction|]. simpl.
  destruct (py_eq name column_name); [reflexivity | exact IH].
Qed.

(** With unique column names, the order of the rows of the table
    description does not matter to [get_table_attribute]. *)
Lemma get_table_attribute_Permutation (descr descr' : list Row) (column_name : PyVal)
    (index : nat) :
  Permutation descr descr' →
  unique_columns descr →
  get_table_attribute descr column_name index
  = get_table_attribute descr' column_name index.
Proof.
  intros Hperm [Hrows Hone].
  rewrite !get_table_attribute_find.
  - by rewrite (find_Permutation _ _ _ Hperm (Hone column_name)).
  - eapply Permutation_Forall; [|exact Hrows]. exact Hperm.
  - exact Hrows.
Qed.

Lemma row_sortkey_Permutation (descr descr' : list Row) (row : Row) (col : PyVal) (z : Z) :
  Permutation descr descr' → unique_columns descr →
  row_sortkey descr row col z ↔ row_sortkey descr' row col z.
Proof.
  intros Hperm Huniq. unfold row_sortkey.
  by rewrite (get_table_attribute_Permutation descr descr' col 4 Hperm Huniq).
Qed.

(** A plan for the same table, with the rows of the table description and
    the rows of the analyzer in another order, has the same sort-key
    block. *)
Lemma permuted_plan_same_block (cfg : Config) (table_name : PyVal)
    (descr descr' output output' : list Row) (statements' : list string)
    (st : Scan) (cols : list string) :
  Permutation descr descr' →
  Permutation output output' →
  unique_columns descr →
  distinct_positions descr output →
  has_sort_key descr output →
  (has_zindex_sortkeys st = true ↔
   ∃ row col z, In row output ∧ row_sortkey descr row col z ∧ z < 0) →
  (∀ i s, cols !! i = Some s →
     ∃ row z, In row output ∧ row_sortkey descr row (PyStr s) z ∧
              Z.abs z = Z.of_nat i + 1) →
  (∀ row col z, In row output → row_sortkey descr row col z → z ≠ 0 →
     ∃ s, col = PyStr s ∧ cols !! Z.to_nat (Z.abs z - 1) = Some s) →
  synthesize cfg table_name descr' output' = Ok (Some statements') →
  ∃ st',
    scan_rows descr' output' scan_init = Ok st' ∧
    has_zindex_sortkeys st' = has_zindex_sortkeys st ∧
    statements' !! 0%nat = Some (with_sortkey_block cfg table_name st' cols).
Proof.
  intros Hdescr Houtput Huniq Hdistinct Hkey Hiff Hfrom Hall H'.
  assert (∀ row, In row output ↔ In row output') as Hsame.
  { intros row. rewrite <- !list_elem_of_In. by rewrite Houtput. }
  assert (∀ row col z, row_sortkey descr row col z ↔ row_sortkey descr' row col z)
    as Hsk by (intros; by apply row_sortkey_Permutation).
  assert (has_sort_key descr' output') as Hkey'.
  { destruct Hkey as (row & col & z & Hrow & Hrs & Hz).
    exists row, col, z. split; [by apply Hsame|]. split; [by apply Hsk | exact Hz]. }
  assert (distinct_positions descr' output') as Hdistinct'.
  { intros row1 row2 col1 col2 z1 z2 Hr1 Hr2 Hs1 Hs2.
    apply (Hdistinct row1 row2); [by apply Hsame | by apply Hsame | by apply Hsk
                                 | by apply Hsk]. }
  destruct (plan_sortkey_listing _ _ _ _ _ H' Hkey')
    as (st' & cols' & Hscan' & Hfirst' & _ & Hiff' & Hfrom' & Hall').
  assert (cols = cols') as <-.
  { apply (sortkey_listing_unique descr output output' cols cols' Hsame Hfrom Hall).
    - intros i s Hi. apply Hfrom' in Hi as (_ & row & z & Hrow & Hrs & Habs).
      exists row, z. split; [exact Hrow|]. split; [by apply Hsk | exact Habs].
    - intros row col z Hrow Hrs Hz. apply (Hall' Hdistinct' row col z Hrow); [|exact Hz].
      by apply Hsk. }
  exists st'. split; [exact Hscan'|]. split; [|exact Hfirst'].
  apply eq_true_iff_eq. rewrite Hiff, Hiff'. split.
  - intros (row & col & z & Hrow & Hrs & Hz).
    exists row, col, z. split; [by apply Hsame|]. split; [by apply Hsk | exact Hz].
  - intros (row & col & z & Hrow & Hrs & Hz).
    exists row, col, z. split; [by apply Hsame|]. split; [by apply Hsk | exact Hz].
Qed.

(** C2.  In the create-table statement of a plan for a table with a sort
    key, the sort-key block lists the sort-key columns by their absolute
    sort-key position as the table description gives it: the column listed
    in place [i] (counting from 0) is the entry of the dictionary
    [sortkeys] under the key [i + 1] and has absolute position [i + 1], so
    the positions of the listed columns ascend strictly and are the
    ordinals themselves, and every sort-key column among the rows of the
    analyzer is listed, in the place its own position names.  The order of
    the rows plays no part: a plan made from the same rows of the table
    description and of the analyzer in any other order has the same
    block. *)
Theorem sortkey_block_in_position_order (cfg : Config) (table_name : PyVal)
    (descr output : list Row) (statements : list string) :
  synthesize cfg table_name descr output = Ok (Some statements) →
  has_sort_key descr output →
  distinct_positions descr output →
  ∃ st cols,
    scan_rows descr output scan_init = Ok st ∧
    statements !! 0%nat = Some (with_sortkey_block cfg table_name st cols) ∧
    length cols = size (sortkeys st) ∧
    (∀ i s, cols !! i = Some s →
       sortkeys st !! (Z.of_nat i + 1) = Some (PyStr s) ∧
       ∃ row z, In row output ∧ row_sortkey descr row (PyStr s) z ∧
                Z.abs z = Z.of_nat i + 1) ∧
    (∀ row col z, In row output → row_sortkey descr row col z → z ≠ 0 →
       ∃ s, col = PyStr s ∧ cols !! Z.to_nat (Z.abs z - 1) = Some s) ∧
    (∀ descr' output' statements',
       Permutation descr descr' → Permutation output output' →
       unique_columns descr →
       synthesize cfg table_name descr' output' = Ok (Some statements') →
       ∃ st',
         scan_rows descr' output' scan_init = Ok st' ∧
         has_zindex_sortkeys st' = has_zindex_sortkeys st ∧
         statements' !! 0%nat = Some (with_sortkey_block cfg table_name st' cols)).
Proof.
  intros H Hkey Hdistinct.
  destruct (plan_sortkey_listing _ _ _ _ _ H Hkey)
    as (st & cols & Hscan & Hfirst & Hlen & Hiff & Hfrom & Hall).
  exists st, cols.
  split; [exact Hscan|]. split; [exact Hfirst|]. split; [exact Hlen|].
  split; [exact Hfrom|]. split; [exact (Hall Hdistinct)|].
  intros descr' output' statements' Hdescr Houtput Huniq H'.
  apply (permuted_plan_same_block cfg table_name descr descr' output output'
           statements' st cols Hdescr Houtput Huniq Hdistinct Hkey Hiff);
    [|exact (Hall Hdistinct) | exact H'].
  intros i s Hi. by apply Hfrom in Hi as [_ Hi].
Qed.

Lemma item_matches_str (s name : string) (item : Row) :
  item_matches (PyStr s) (PyStr name :: item) = String.eqb name s.
Proof. reflexivity. Qed.

Lemma events_descr_unique : unique_columns Sample.events_descr.
Proof.
  split; [repeat constructor; discriminate|].
  intros [|b|z|s|l]; try (vm_compute; lia).
  unfold Sample.events_descr. cbn [List.filter]. rewrite !item_matches_str.
  destruct (String.eqb "payload" s) eqn:E1, (String.eqb "ts" s) eqn:E2,
    (String.eqb "id" s) eqn:E3; simpl; try lia;
    repeat match goal with
           | H : String.eqb _ _ = true |- _ => apply String.eqb_eq in H
           end; congruence.
Qed.

(** The rows of the analyzer for the sample table [events] come in the
    order [ts], [id], [payload], the table description in the order
    [payload], [ts], [id]; the block lists [id] (position 1), then [ts]
    (position 2), and nothing else; and so does the block of the plan made
    from both lists of rows reversed. *)
Lemma sortkey_block_in_position_order_witness :
  synthesize Sample.cfg (PyStr "events") Sample.events_descr Sample.events_output
    = Ok (Some Sample.events_plan) ∧
  ∃ st st',
    Sample.events_plan !! 0%nat
      = Some (with_sortkey_block Sample.cfg (PyStr "events") st ["id"; "ts"]) ∧
    Sample.events_plan_reversed !! 0%nat
      = Some (with_sortkey_block Sample.cfg (PyStr "events") st' ["id"; "ts"]).
Proof.
  assert (synthesize Sample.cfg (PyStr "events") Sample.events_descr Sample.events_output
          = Ok (Some Sample.events_plan)) as Hplan by (vm_compute; reflexivity).
  split; [exact Hplan|].
  assert (row_sortkey Sample.events_descr
            [PyStr "events"; PyStr "id"; PyStr "lzo"; PyStr "12.50"] (PyStr "id") 1)
    as Hid.
  { split; [reflexivity|]. exists (PyInt 1). split; reflexivity. }
  assert (row_sortkey Sample.events_descr
            [PyStr "events"; PyStr "ts"; PyStr "delta"; PyStr "40.00"] (PyStr "ts") 2)
    as Hts.
  { split; [reflexivity|]. exists (PyInt 2). split; reflexivity. }
  destruct (sortkey_block_in_position_order Sample.cfg (PyStr "events")
              Sample.events_descr Sample.events_output Sample.events_plan Hplan)
    as (st & cols & _ & Hfirst & _ & Hfrom & Hall & Hperm).
  - eexists _, _, 1. split; [|split; [exact Hid | lia]]. simpl; auto.
  - intros row1 row2 col1 col2 z1 z2 Hrow1 Hrow2
      [Hcol1 (sk1 & Hsk1 & Hz1)] [Hcol2 (sk2 & Hsk2 & Hz2)] Hnz Habs.
    simpl in Hrow1, Hrow2.
    destruct Hrow1 as [<-|[<-|[<-|[]]]]; simpl in Hcol1; injection Hcol1 as <-;
      vm_compute in Hsk1; injection Hsk1 as <-; simpl in Hz1; injection Hz1 as <-;
      destruct Hrow2 as [<-|[<-|[<-|[]]]]; simpl in Hcol2; injection Hcol2 as <-;
      vm_compute in Hsk2; injection Hsk2 as <-; simpl in Hz2; injection Hz2 as <-;
      reflexivity || lia.
  - destruct (Hall _ _ _ (or_intror (or_introl eq_refl)) Hid) as (s1 & [= <-] & H1); [lia|].
    destruct (Hall _ _ _ (or_introl eq_refl) Hts) as (s2 & [= <-] & H2); [lia|].
    assert (cols = ["id"; "ts"]) as Hcols.
    { destruct cols as [|a [|b [|c cols]]]; try discriminate.
      - simpl in H1, H2. congruence.
      - destruct (Hfrom 2%nat c eq_refl)
          as (_ & row & z & Hrow & [Hcol (sk & Hsk & Hz)] & Habs).
        exfalso. simpl in Hrow.
        destruct Hrow as [<-|[<-|[<-|[]]]]; simpl in Hcol; injection Hcol as <-;
          vm_compute in Hsk; injection Hsk as <-; simpl in Hz; injection Hz as <-;
          simpl in Habs; lia. }
    destruct (Hperm (rev Sample.events_descr) (rev Sample.events_output)
                Sample.events_plan_reversed)
      as (st' & _ & _ & Hfirst').
    + apply Permutation_rev.
    + apply Permutation_rev.
    + exact events_descr_unique.
    + vm_compute. reflexivity.
    + exists st, st'. rewrite <- Hcols. split; assumption.
Defined.

(** ** When a plan is built *)

(** C3 as stated fails: every column of this table is lzo-encoded and the
    analyzer recommends lzo for each of them, [force] is off, and yet a
    plan is built.  The trigger compares the recommendation with 'raw', not
    with the current encoding. *)
Lemma unchanged_encodings_still_migrate :
  force Sample.cfg = false ∧
  (∀ row col recommended,
      In row Sample.encoded_output →
      row !! 1%nat = Some col → row !! 2%nat = Some recommended →
      get_table_attribute Sample.encoded_descr col 2 = Ok recommended) ∧
  ∃ create rest,
    synthesize Sample.cfg (PyStr "t") Sample.encoded_descr Sample.encoded_output
    = Ok (Some (create :: rest)).
Proof.
  split; [reflexivity|]. split.
  - intros row col recommended Hrow Hcol Hrec. simpl in Hrow.
    destruct Hrow as [<-|[<-|[]]]; simpl in Hcol, Hrec;
      injection Hcol as <-; injection Hrec as <-; reflexivity.
  - eexists. eexists. vm_compute. reflexivity.
Qed.

(** C3, amended.  For a table for which every row of the analyzer
    recommends the encoding 'raw', with [force] off, no plan is built: the
    synthesis gives no statements (or raises), and [analyze] then returns OK
    without running or writing a statement. *)
Theorem raw_recommendations_skip (cfg : Config) (table_name : PyVal)
    (descr output : list Row) :
  force cfg = false →
  (∀ row recommended,
      In row output → row !! 2%nat = Some recommended → recommended = PyStr "raw") →
  (synthesize cfg table_name descr output = Ok None ∨
   ∃ e, synthesize cfg table_name descr output = Raise e) ∧
  ∀ plan, synthesize cfg table_name descr output = Ok plan →
    statements_of plan = [] ∧
    ∀ db n, finish cfg db n plan = (Returned OK, (n, [])).
Proof.
  intros Hforce Hraw.
  assert (∀ statements,
            synthesize cfg table_name descr output ≠ Ok (Some statements)) as Hno.
  { intros statements H.
    apply synthesize_Some in H as (cs & st & _ & _ & Hcs & _ & -> & Htrig & _).
    rewrite Hforce, orb_false_r in Htrig.
    apply fold_found_non_raw in Htrig as [Hf|(c & Hc & Hne)]; [discriminate|].
    destruct (Forall2_In_right _ _ _ _ Hcs Hc) as (row & Hrow & Hreads).
    destruct Hreads as (_ & Hrec & _).
    rewrite (Hraw row _ Hrow Hrec) in Hne. discriminate. }
  split.
  - destruct (synthesize cfg table_name descr output) as [[statements|]|e]; eauto.
    destruct (Hno statements eq_refl).
  - intros [statements|] Hplan; [destruct (Hno statements Hplan)|].
    split; reflexivity.
Qed.

(** The analyzer recommends 'raw' for both columns of the sample table. *)
Lemma raw_recommendations_skip_witness :
  synthesize Sample.cfg (PyStr "t") Sample.encoded_descr Sample.raw_output = Ok None.
Proof.
  destruct (raw_recommendations_skip Sample.cfg (PyStr "t") Sample.encoded_descr
              Sample.raw_output) as [[Hnone|[e He]] _].
  - reflexivity.
  - intros row recommended Hrow Hrec. simpl in Hrow.
    destruct Hrow as [<-|[<-|[]]]; simpl in Hrec; injection Hrec as <-; reflexivity.
  - exact Hnone.
  - vm_compute in He. discriminate He.
Defined.

(** ** Tables for which the plan is built *)

Lemma scan_row_of_reads (descr : list Row) (row : Row) (c : Column) (st : Scan) :
  reads descr row c → scan_row descr row st = Ok (scan_step st c).
Proof.
  intros (Hcol & Hrec & (ty & Hty & Htype) & Hdk & (sk & Hsk & Hz) & Hnn).
  unfold scan_row, py_index. rewrite Hcol, Hrec. simpl.
  rewrite Hty. simpl. rewrite Hdk. simpl. rewrite Hsk. simpl.
  unfold record_sortkey, compression_of, py_abs.
  rewrite (py_ne_zero sk _ Hz), (py_lt_zero sk _ Hz), Hz.
  unfold scan_step, column_text. rewrite Htype.
  destruct (c_sortkey c =? 0) eqn:Ez; simpl; rewrite Hnn; simpl.
  - apply Z.eqb_eq in Ez. rewrite Ez. reflexivity.
  - reflexivity.
Qed.

Lemma scan_rows_of_reads (descr output : list Row) (cs : list Column) (st : Scan) :
  Forall2 (reads descr) output cs →
  scan_rows descr output st = Ok (fold_left scan_step cs st).
Proof.
  intros H. revert st. induction H as [|row c output cs Hrow _ IH]; intros st; simpl.
  - reflexivity.
  - rewrite (scan_row_of_reads _ _ _ _ Hrow). simpl. apply IH.
Qed.

Lemma sortkey_loop_succeeds (keys : gmap Z PyVal) (len a : nat) (acc : string) :
  (∀ i, (a ≤ i < a + len)%nat → ∃ s, keys !! Z.of_nat i = Some (PyStr s)) →
  ∃ clause, sortkey_loop keys (seq a len) acc = Ok clause.
Proof.
  revert a acc. induction len as [|len IH]; intros a acc Hkeys; simpl; [eauto|].
  destruct (Hkeys a) as [s Hs]; [lia|].
  unfold sortkey_step. rewrite Hs. simpl.
  apply IH. intros i Hi. apply Hkeys. lia.
Qed.

Lemma ordinal_positions_keys (cs : list Column) (n : nat) :
  ordinal_positions cs n →
  size (sortkeys (fold_left scan_step cs scan_init)) = n ∧
  ∀ i, (1 ≤ i < 1 + n)%nat →
    ∃ s, sortkeys (fold_left scan_step cs scan_init) !! Z.of_nat i = Some (PyStr s).
Proof.
  intros [Hin Hall].
  set (m := sortkeys (fold_left scan_step cs scan_init)).
  assert (∀ k v, m !! k = Some v →
            1 ≤ k ≤ Z.of_nat n ∧ ∃ s, v = PyStr s) as Hfrom.
  { intros k v Hv. apply fold_sortkeys_lookup in Hv as [Hv|(c & Hc & Hz & <- & <-)].
    - simpl in Hv. rewrite lookup_empty in Hv. discriminate.
    - by apply Hin. }
  assert (∀ i, (1 ≤ i ≤ n)%nat → is_Some (m !! Z.of_nat i)) as Hto.
  { intros i Hi. destruct (Hall i Hi) as (c & Hc & Habs). rewrite <- Habs.
    apply fold_sortkeys_present; [exact Hc|]. intros E. rewrite E in Habs. simpl in Habs.
    lia. }
  split.
  - set (range := Z.of_nat <$> seq 1 n).
    assert (NoDup range) as Hnodup.
    { apply NoDup_fmap_2; [intros i j; lia | apply NoDup_seq]. }
    assert (dom m = list_to_set range :> gset Z) as Heq.
    { apply set_eq. intros k. rewrite elem_of_dom, elem_of_list_to_set.
      unfold range. rewrite list_elem_of_fmap. split.
      - intros [v Hv]. apply Hfrom in Hv as [Hk _].
        exists (Z.to_nat k). split; [lia|]. apply elem_of_seq. lia.
      - intros (i & -> & Hi). apply elem_of_seq in Hi. apply Hto. lia. }
    rewrite <- size_dom, Heq, size_list_to_set by exact Hnodup.
    unfold range. by rewrite length_fmap, length_seq.
  - intros i Hi. destruct (Hto i) as [v Hv]; [lia|].
    destruct (Hfrom _ _ Hv) as [_ [s ->]]. eauto.
Qed.

(** X9.  For a table whose columns are all described, whose sort-key
    positions are the ordinals 1 to [n], and for which a column is
    recommended an encoding other than 'raw' or [force] is set, the plan is
    built. *)
Theorem plan_is_built (cfg : Config) (name : string) (descr output : list Row)
    (cs : list Column) (n : nat) :
  Forall2 (reads descr) output cs →
  ordinal_positions cs n →
  (force cfg = true ∨ ∃ c, In c cs ∧ py_ne (c_recommended c) (PyStr "raw") = true) →
  ∃ statements, synthesize cfg (PyStr name) descr output = Ok (Some statements).
Proof.
  intros Hcs Hord Htrig.
  destruct (ordinal_positions_keys cs n Hord) as [Hsize Hkeys].
  unfold synthesize. rewrite (scan_rows_of_reads _ _ _ _ Hcs). simpl.
  assert (found_non_raw (fold_left scan_step cs scan_init) || force cfg = true) as ->.
  { apply orb_true_iff. destruct Htrig as [Hf|Hc]; [by right|].
    left. apply fold_found_non_raw. by right. }
  assert (∃ create, create_table_stmt cfg (PyStr name) (fold_left scan_step cs scan_init)
                    = Ok create) as [create Hcreate].
  { unfold create_table_stmt, sortkey_clause.
    destruct (0 <? size (sortkeys (fold_left scan_step cs scan_init)))%nat; [|simpl; eauto].
    edestruct (sortkey_loop_succeeds (sortkeys (fold_left scan_step cs scan_init))
                 (size (sortkeys (fold_left scan_step cs scan_init))) 1) as [clause ->].
    - rewrite Hsize. exact Hkeys.
    - simpl. eauto. }
  assert (∃ swap, swap_stmts cfg (PyStr name) = Ok swap) as [swap Hswap].
  { unfold swap_stmts, rename_old_stmt.
    destruct (String.eqb _ _); [|eauto]. destruct (drop_old_data cfg); simpl; eauto. }
  unfold plan_stmts. rewrite Hcreate, Hswap. simpl. eauto.
Qed.

(** ** The shape of a plan *)

Lemma add_columns_prefix (columns : list string) (create_table : string) (i : nat) :
  ∃ rest, add_columns create_table i columns = create_table +:+ rest.
Proof.
  revert create_table i. induction columns as [|s columns IH]; intros create_table i; simpl.
  - exists "". by rewrite append_nil_r.
  - destruct (IH (create_table +:+ nl +:+ (if (i =? 0)%nat then "" else ",") +:+ s) (S i))
      as [rest ->].
    eexists. by rewrite append_assoc.
Qed.

Lemma leading_create (cfg : Config) (table_name : PyVal) (st : Scan) (create : string) :
  create_table_stmt cfg table_name st = Ok create → leading create = "--".
Proof.
  intros H.
  assert (∃ rest, create = create_table_head cfg table_name +:+ rest) as [rest ->].
  { apply create_table_stmt_Ok in H as [[_ ->]|[_ (clause & _ & ->)]];
      unfold create_table_body;
      destruct (add_columns_prefix (encode_columns st) (create_table_head cfg table_name) 0)
        as [rest ->];
      eexists; rewrite !append_assoc; reflexivity. }
  unfold create_table_head. rewrite !append_assoc. reflexivity.
Qed.

Lemma leading_insert (cfg : Config) (table_name : PyVal) :
  leading (insert_stmt cfg table_name) = "--".
Proof. reflexivity. Qed.

Lemma leading_analyze (cfg : Config) (table_name : PyVal) :
  leading (analyze_stmt cfg table_name) = "an".
Proof. reflexivity. Qed.

Lemma leading_drop (cfg : Config) (table_name : PyVal) :
  leading (drop_stmt cfg table_name) = "dr".
Proof. reflexivity. Qed.

Lemma leading_alter (schema old new : string) :
  leading (alter_rename schema old new) = "al".
Proof. reflexivity. Qed.

Lemma leading_commit : leading commit_stmt = "co".
Proof. reflexivity. Qed.

Lemma leading_rename_old (cfg : Config) (table_name : PyVal) (r : string) :
  rename_old_stmt cfg table_name = Ok r → leading r = "al".
Proof.
  unfold rename_old_stmt. intros H. apply bind_Ok in H as (old & _ & [= <-]).
  apply leading_alter.
Qed.

Lemma leading_differs (s t : string) : leading s ≠ leading t → String.eqb s t = false.
Proof. intros H. apply String.eqb_neq. intros ->. by apply H. Qed.

(** In place, the statement that renames the original table is not the one
    that renames the staging table. *)
Lemma rename_old_is_not_rename_back (cfg : Config) (table_name : PyVal) (r : string) :
  target_schema cfg = analyze_schema cfg →
  rename_old_stmt cfg table_name = Ok r →
  String.eqb r (rename_stmt cfg table_name) = false.
Proof.
  intros Hsame H. apply String.eqb_neq. intros E.
  unfold rename_old_stmt in H. apply bind_Ok in H as (old & Hold & [= <-]).
  destruct table_name as [| | |name|]; try discriminate. injection Hold as <-.
  unfold rename_stmt, target_table, alter_rename in E.
  rewrite Hsame, String.eqb_refl in E. simpl py_str in E.
  do 3 apply append_cancel_l in E.
  rewrite (append_assoc name "_$mig") in E. apply append_cancel_l in E.
  discriminate E.
Qed.

Lemma swap_stmts_Ok (cfg : Config) (table_name : PyVal) (swap : list string) :
  swap_stmts cfg table_name = Ok swap →
  (target_schema cfg = analyze_schema cfg ∧
   ∃ out, swap = [out; rename_stmt cfg table_name] ∧
     (drop_old_data cfg = true ∧ out = drop_stmt cfg table_name ∨
      drop_old_data cfg = false ∧ rename_old_stmt cfg table_name = Ok out)) ∨
  (target_schema cfg ≠ analyze_schema cfg ∧ swap = []).
Proof.
  unfold swap_stmts.
  destruct (String.eqb_spec (target_schema cfg) (analyze_schema cfg)) as [E|E].
  - intros H. apply bind_Ok in H as (out & Hout & [= <-]). left.
    split; [exact E|]. exists out. split; [reflexivity|].
    destruct (drop_old_data cfg); [left | right]; split; congruence.
  - intros [= <-]. right. auto.
Qed.

Lemma is_rename_or_drop_other (cfg : Config) (table_name : PyVal) (s : string) :
  leading s ≠ "dr" → leading s ≠ "al" → is_rename_or_drop cfg table_name s = false.
Proof.
  intros Hdr Hal. unfold is_rename_or_drop. apply orb_false_iff. split.
  - apply leading_differs. by rewrite leading_drop.
  - destruct (rename_old_stmt cfg table_name) as [r|] eqn:E; [|reflexivity].
    apply leading_differs. by rewrite (leading_rename_old _ _ _ E).
Qed.

Lemma is_rename_back_other (cfg : Config) (table_name : PyVal) (s : string) :
  leading s ≠ "al" → is_rename_back cfg table_name s = false.
Proof.
  intros Hal. unfold is_rename_back. apply leading_differs.
  unfold rename_stmt. by rewrite leading_alter.
Qed.

(** C4 as stated fails: this plan creates the table in another schema; it
    has a create-table statement and neither renames nor drops the original
    table, nor renames the table it created. *)
Lemma plan_for_other_schema_has_no_swap :
  ∃ st create,
    scan_rows Sample.events_descr Sample.events_output scan_init = Ok st ∧
    create_table_stmt Sample.cfg_other_schema (PyStr "events") st = Ok create ∧
    synthesize Sample.cfg_other_schema (PyStr "events") Sample.events_descr
      Sample.events_output
    = Ok (Some [create;
                insert_stmt Sample.cfg_other_schema (PyStr "events");
                analyze_stmt Sample.cfg_other_schema (PyStr "events");
                commit_stmt]) ∧
    List.filter (is_rename_or_drop Sample.cfg_other_schema (PyStr "events"))
      [create;
       insert_stmt Sample.cfg_other_schema (PyStr "events");
       analyze_stmt Sample.cfg_other_schema (PyStr "events");
       commit_stmt] = [] ∧
    List.filter (is_rename_back Sample.cfg_other_schema (PyStr "events"))
      [create;
       insert_stmt Sample.cfg_other_schema (PyStr "events");
       analyze_stmt Sample.cfg_other_schema (PyStr "events");
       commit_stmt] = [].
Proof.
  destruct (scan_rows Sample.events_descr Sample.events_output scan_init)
    as [st|e] eqn:Hscan; [|vm_compute in Hscan; discriminate Hscan].
  destruct (create_table_stmt Sample.cfg_other_schema (PyStr "events") st)
    as [create|e] eqn:Hcreate.
  - exists st, create. split; [reflexivity|]. split; [exact Hcreate|].
    assert (synthesize Sample.cfg_other_schema (PyStr "events") Sample.events_descr
              Sample.events_output
            = Ok (Some [create;
                        insert_stmt Sample.cfg_other_schema (PyStr "events");
                        analyze_stmt Sample.cfg_other_schema (PyStr "events");
                        commit_stmt])) as Hplan.
    { unfold synthesize. rewrite Hscan. simpl bind.
      replace (found_non_raw st) with true
        by (vm_compute in Hscan; injection Hscan as <-; reflexivity).
      simpl. unfold plan_stmts. rewrite Hcreate. reflexivity. }
    split; [exact Hplan|].
    pose proof (leading_create _ _ _ _ Hcreate) as Hlead.
    cbn [List.filter].
    rewrite !is_rename_or_drop_other, !is_rename_back_other;
      rewrite ?Hlead, ?leading_insert, ?leading_analyze, ?leading_commit;
      try discriminate.
    split; reflexivity.
  - exfalso. vm_compute in Hscan. injection Hscan as <-.
    vm_compute in Hcreate. discriminate Hcreate.
Qed.

(** C4, amended.  Every plan ends with the commit statement.  When the
    target schema is the schema analyzed, the plan is the create-table
    statement, the copy, the analyze, one statement that renames or drops
    the original table, one statement that renames the staging table to the
    original name, and the commit: exactly one statement of each of the two
    kinds.  When the target schema is another one, the plan is the
    create-table statement, the copy, the analyze and the commit, with no
    statement of either kind. *)
Theorem plan_ends_with_commit_and_swaps_in_place (cfg : Config) (table_name : PyVal)
    (descr output : list Row) (statements : list string) :
  synthesize cfg table_name descr output = Ok (Some statements) →
  ∃ st create,
    scan_rows descr output scan_init = Ok st ∧
    create_table_stmt cfg table_name st = Ok create ∧
    last statements = Some commit_stmt ∧
    (target_schema cfg = analyze_schema cfg →
       (∃ out,
          statements = [create; insert_stmt cfg table_name; analyze_stmt cfg table_name;
                        out; rename_stmt cfg table_name; commit_stmt] ∧
          is_rename_or_drop cfg table_name out = true) ∧
       length (List.filter (is_rename_or_drop cfg table_name) statements) = 1%nat ∧
       length (List.filter (is_rename_back cfg table_name) statements) = 1%nat) ∧
    (target_schema cfg ≠ analyze_schema cfg →
       statements = [create; insert_stmt cfg table_name; analyze_stmt cfg table_name;
                     commit_stmt] ∧
       List.filter (is_rename_or_drop cfg table_name) statements = [] ∧
       List.filter (is_rename_back cfg table_name) statements = []).
Proof.
  intros H.
  apply synthesize_Some in H
    as (cs & st & create & swap & _ & Hscan & _ & _ & Hcreate & Hswap & ->).
  exists st, create. split; [exact Hscan|]. split; [exact Hcreate|].
  pose proof (leading_create _ _ _ _ Hcreate) as Hlead.
  assert (is_rename_or_drop cfg table_name create = false) as Hc1
    by (apply is_rename_or_drop_other; rewrite Hlead; discriminate).
  assert (is_rename_back cfg table_name create = false) as Hc2
    by (apply is_rename_back_other; rewrite Hlead; discriminate).
  assert (is_rename_or_drop cfg table_name (insert_stmt cfg table_name) = false) as Hi1
    by (apply is_rename_or_drop_other; rewrite leading_insert; discriminate).
  assert (is_rename_back cfg table_name (insert_stmt cfg table_name) = false) as Hi2
    by (apply is_rename_back_other; rewrite leading_insert; discriminate).
  assert (is_rename_or_drop cfg table_name (analyze_stmt cfg table_name) = false) as Ha1
    by (apply is_rename_or_drop_other; rewrite leading_analyze; discriminate).
  assert (is_rename_back cfg table_name (analyze_stmt cfg table_name) = false) as Ha2
    by (apply is_rename_back_other; rewrite leading_analyze; discriminate).
  assert (is_rename_or_drop cfg table_name commit_stmt = false) as Hm1
    by (apply is_rename_or_drop_other; rewrite leading_commit; discriminate).
  assert (is_rename_back cfg table_name commit_stmt = false) as Hm2
    by (apply is_rename_back_other; rewrite leading_commit; discriminate).
  apply swap_stmts_Ok in Hswap as [[Hsame (out & -> & Hout)]|[Hother ->]].
  - split; [reflexivity|]. split; [|intros Hne; contradiction].
    intros _.
    assert (is_rename_or_drop cfg table_name out = true) as Ho1.
    { unfold is_rename_or_drop. destruct Hout as [[_ ->]|[_ ->]].
      - by rewrite String.eqb_refl.
      - rewrite String.eqb_refl. apply orb_true_r. }
    assert (is_rename_back cfg table_name out = false) as Ho2.
    { destruct Hout as [[_ ->]|[_ Hold]].
      - apply is_rename_back_other. rewrite leading_drop. discriminate.
      - by apply rename_old_is_not_rename_back. }
    assert (is_rename_back cfg table_name (rename_stmt cfg table_name) = true) as Hr2
      by apply String.eqb_refl.
    assert (is_rename_or_drop cfg table_name (rename_stmt cfg table_name) = false) as Hr1.
    { unfold is_rename_or_drop. apply orb_false_iff. split.
      - apply leading_differs. unfold rename_stmt.
        rewrite leading_alter, leading_drop. discriminate.
      - destruct (rename_old_stmt cfg table_name) as [r|] eqn:E; [|reflexivity].
        rewrite String.eqb_sym. by apply rename_old_is_not_rename_back. }
    split; [eauto|]. cbn [app List.filter].
    rewrite Hc1, Hc2, Hi1, Hi2, Ha1, Ha2, Ho1, Ho2, Hr1, Hr2, Hm1, Hm2. split; reflexivity.
  - split; [reflexivity|]. split; [intros Hsame; contradiction|].
    intros _. split; [reflexivity|]. cbn [app List.filter].
    rewrite Hc1, Hc2, Hi1, Hi2, Ha1, Ha2, Hm1, Hm2. split; reflexivity.
Qed.

(** The plan for the sample table [events] is made in place: it has the six
    statements, one of them the rename of [events] to its old name. *)
Lemma plan_ends_with_commit_and_swaps_in_place_witness :
  synthesize Sample.cfg (PyStr "events") Sample.events_descr Sample.events_output
    = Ok (Some Sample.events_plan) ∧
  last Sample.events_plan = Some commit_stmt ∧
  length (List.filter (is_rename_or_drop Sample.cfg (PyStr "events")) Sample.events_plan)
    = 1%nat ∧
  length (List.filter (is_rename_back Sample.cfg (PyStr "events")) Sample.events_plan)
    = 1%nat.
Proof.
  assert (synthesize Sample.cfg (PyStr "events") Sample.events_descr Sample.events_output
          = Ok (Some Sample.events_plan)) as Hplan by (vm_compute; reflexivity).
  split; [exact Hplan|].
  destruct (plan_ends_with_commit_and_swaps_in_place Sample.cfg (PyStr "events")
              Sample.events_descr Sample.events_output Sample.events_plan Hplan)
    as (st & create & _ & _ & Hlast & Hsame & _).
  destruct (Hsame eq_refl) as (_ & Hone & Hback). auto.
Defined.

(** * Further properties *)

(** ** The retry loop and the outcomes of analyze *)


(** A database on which the statement fails at the attempts before the
    [k]-th and then succeeds. *)
Lemma retry_loop_recovers (db : Database) (statement : string)
    (statusmessage : string) (rows : list Row) (k : nat) :
  ∀ (fuel : nat) (s : Retry) (n : nat),
    output s = None →
    attempt_count s + Z.of_nat k < analyze_retry →
    (k < fuel)%nat →
    (∀ j, (j < k)%nat → ∃ message, db (n + j)%nat statement = ExecFails message) →
    db (n + k)%nat statement = ExecDone statusmessage rows →
    ∃ evs s', retry_loop db statement fuel s n = Some (Returned s', (S (n + k), evs)) ∧
      output s' = Some rows ∧
      attempt_count s' = attempt_count s + Z.of_nat k ∧
      executed_sql evs = repeat statement (S k) ∧
      length (sleeps evs) = k ∧
      rollbacks evs = 0%nat.
Proof.
  induction k as [|k IH]; intros fuel s n Hout Hcount Hfuel Hfail Hdone.
  - destruct fuel as [|fuel]; [lia|]. cbn [retry_loop].
    assert (retry_continues s = true) as ->.
    { unfold retry_continues. rewrite Hout, andb_true_r. apply Z.ltb_lt. lia. }
    rewrite Nat.add_0_r in Hdone. rewrite Hdone.
    rewrite (retry_loop_done db statement fuel _ (S n) rows) by reflexivity.
    rewrite Nat.add_0_r. simpl. eexists _, _. split; [reflexivity|].
    simpl. repeat split; lia.
  - destruct fuel as [|fuel]; [lia|]. cbn [retry_loop].
    assert (retry_continues s = true) as ->.
    { unfold retry_continues. rewrite Hout, andb_true_r. apply Z.ltb_lt. lia. }
    destruct (Hfail 0%nat) as [message Hm]; [lia|].
    rewrite Nat.add_0_r in Hm. rewrite Hm.
    destruct (IH fuel
                {| output := None; attempt_count := attempt_count s + 1;
                   last_exception := Some message |} (S n))
      as (evs & s' & Hrun & Hrows & Hatt & Hsql & Hsleep & Hroll).
    + reflexivity.
    + cbn [attempt_count]. lia.
    + lia.
    + intros j Hj. replace (S n + j)%nat with (n + S j)%nat by lia.
      apply Hfail. lia.
    + replace (S n + k)%nat with (n + S k)%nat by lia. exact Hdone.
    + rewrite Hrun. simpl. eexists _, _.
      split; [replace (S (n + S k)) with (S (S n + k)) by lia; reflexivity|].
      cbn [attempt_count] in Hatt. simpl.
      repeat split; [exact Hrows | lia | | | exact Hroll]; unfold events; simpl.
      * by rewrite Hsql.
      * by rewrite Hsleep.
Qed.

(** X2.  When the analysis fails at the first [k] attempts, [k] below ten,
    and succeeds at the next one, the loop ends there with the rows of
    that attempt: [k + 1] statements were sent, each failure was followed
    by one sleep, and nothing was rolled back. *)
Theorem analysis_recovers_after_failures (db : Database) (statement : string)
    (statusmessage : string) (rows : list Row) (k n : nat) :
  (k < 10)%nat →
  (∀ j, (j < k)%nat → ∃ message, db (n + j)%nat statement = ExecFails message) →
  db (n + k)%nat statement = ExecDone statusmessage rows →
  ∃ evs s',
    retry_loop db statement (Z.to_nat analyze_retry) retry_init n
    = Some (Returned s', (S (n + k), evs)) ∧
    output s' = Some rows ∧
    attempt_count s' = Z.of_nat k ∧
    executed_sql evs = repeat statement (S k) ∧
    length (sleeps evs) = k ∧
    rollbacks evs = 0%nat.
Proof.
  intros Hk Hfail Hdone.
  destruct (retry_loop_recovers db statement statusmessage rows k
              (Z.to_nat analyze_retry) retry_init n)
    as (evs & s' & Hrun & Hrows & Hatt & Hsql & Hsleep & Hroll); try assumption.
  - reflexivity.
  - unfold analyze_retry. cbn [attempt_count retry_init]. lia.
  - exists evs, s'. cbn [attempt_count retry_init] in Hatt.
    split; [exact Hrun|]. split; [exact Hrows|]. split; [lia|]. auto.
Qed.

Lemma analysis_recovers_after_failures_witness :
  ∃ evs s',
    retry_loop Session.db_fails_thrice "analyze compression events"
      (Z.to_nat analyze_retry) retry_init 0
    = Some (Returned s', (4%nat, evs)) ∧
    output s' = Some Sample.events_output ∧
    attempt_count s' = 3 ∧
    executed_sql evs = repeat "analyze compression events" 4 ∧
    length (sleeps evs) = 3%nat ∧
    rollbacks evs = 0%nat.
Proof.
  apply (analysis_recovers_after_failures Session.db_fails_thrice
           "analyze compression events" "ANALYZE COMPRESSION" Sample.events_output 3 0).
  - lia.
  - intros j Hj. exists "serializable isolation violation".
    destruct j as [|[|[|j]]]; [reflexivity | reflexivity | reflexivity | lia].
  - reflexivity.
Defined.

(** [retry_loop_attempts] on a server that recovers. *)
Lemma retry_loop_attempts_witness :
  ∃ r, retry_loop Session.db_fails_thrice "analyze compression events" 10 retry_init 0
       = Some r ∧
    (length (executed_sql (events r)) ≤ 10)%nat.
Proof.
  eexists. split; [vm_compute; reflexivity|].
  apply (retry_loop_attempts Session.db_fails_thrice "analyze compression events" 10
           retry_init 0).
  vm_compute. reflexivity.
Defined.

(** The loop ends by leaving the [while], or in the handler of
    KeyboardInterrupt, after [cleanup()]. *)
Lemma retry_loop_outcome (db : Database) (statement : string) (fuel : nat) :
  ∀ (s : Retry) (n : nat) (r : Run Retry),
    retry_loop db statement fuel s n = Some r →
    (∃ s', outcome r = Returned s') ∨
    (outcome r = Exited TERMINATED_BY_USER ∧ last (events r) = Some EvCleanup).
Proof.
  induction fuel as [|fuel IH]; intros s n r; cbn [retry_loop];
    destruct (retry_continues s); try discriminate;
    try (intros [= <-]; left; eexists; reflexivity).
  destruct (db n statement) as [statusmessage rows|message|].
  - destruct (retry_loop db statement fuel _ (S n)) as [r'|] eqn:Hr'; [|discriminate].
    intros [= <-]. destruct (IH _ _ _ Hr') as [[s' Hs']|[Hex Hlast]].
    + left. exists s'. exact Hs'.
    + right. split; [exact Hex|]. rewrite events_after. simpl.
      destruct (events r'); [discriminate | exact Hlast].
  - destruct (retry_loop db statement fuel _ (S n)) as [r'|] eqn:Hr'; [|discriminate].
    intros [= <-]. destruct (IH _ _ _ Hr') as [[s' Hs']|[Hex Hlast]].
    + left. exists s'. exact Hs'.
    + right. split; [exact Hex|]. rewrite events_after. simpl.
      destruct (events r'); [discriminate | exact Hlast].
  - intros [= <-]. right. split; reflexivity.
Qed.


(** [run_commands] returns a boolean, or the KeyboardInterrupt passes
    through it. *)
Lemma run_commands_outcome (cfg : Config) (db : Database) (commands : list string) :
  ∀ n, (∃ b, outcome (run_commands cfg db n commands) = Returned b) ∨
       outcome (run_commands cfg db n commands) = Interrupted.
Proof.
  induction commands as [|c commands IH]; intros n; simpl.
  - left. exists true. reflexivity.
  - destruct (db n c).
    + rewrite outcome_after. apply IH.
    + left. exists false. reflexivity.
    + right. reflexivity.
Qed.

Lemma finish_outcome (cfg : Config) (db : Database) (n : nat)
    (plan : option (list string)) :
  (∃ status, outcome (finish cfg db n plan) = Returned status) ∨
  outcome (finish cfg db n plan) = Interrupted.
Proof.
  unfold finish. destruct plan as [statements|]; [|left; eexists; reflexivity].
  destruct (do_execute cfg); [|left; eexists; reflexivity].
  destruct (run_commands_outcome cfg db statements n) as [[b Hb]|Hint]; rewrite ?Hb, ?Hint.
  - destruct b; [|destruct (ignore_errors cfg)]; left; eexists; reflexivity.
  - right. reflexivity.
Qed.

Lemma after_retry_outcome (cfg : Config) (db : Database) (table_name : PyVal)
    (s : Retry) (n : nat) (status : Z) :
  outcome (after_retry cfg db table_name s n) ≠ Exited status.
Proof.
  unfold after_retry. destruct (output s) as [rows|].
  - destruct (db n _) as [statusmessage descr|message|]; try discriminate.
    destruct (synthesize cfg table_name descr rows) as [plan|e]; [|discriminate].
    rewrite outcome_after.
    destruct (finish_outcome cfg db (S n) plan) as [[st ->]| ->]; discriminate.
  - destruct (last_exception s); discriminate.
Qed.

(** X4.  [analyze] ends the process only in the handler of
    KeyboardInterrupt of the retry loop: the status is TERMINATED_BY_USER,
    and [cleanup()] was the last thing done. *)
Theorem analyze_exits_only_on_interrupt (cfg : Config) (db : Database) (n : nat)
    (tables : Row) (r : Run Z) (status : Z) :
  analyze cfg db n tables = Some r →
  outcome r = Exited status →
  status = TERMINATED_BY_USER ∧ last (events r) = Some EvCleanup.
Proof.
  unfold analyze, analyze_with. destruct (py_index tables 0) as [table_name|e].
  - destruct (retry_loop db _ _ retry_init n) as [r'|] eqn:Hr'; [|discriminate].
    simpl. intros [= <-]. rewrite outcome_after, events_after.
    destruct (retry_loop_outcome _ _ _ _ _ _ Hr') as [[s' Hs']|[Hex Hlast]].
    + rewrite Hs', outcome_after. intros H.
      by apply after_retry_outcome in H.
    + rewrite Hex. cbn [outcome fst]. intros [= <-]. split; [reflexivity|].
      unfold events in *. cbn [snd]. rewrite last_app, Hlast. reflexivity.
  - intros [= <-]. discriminate.
Qed.

Lemma analyze_exits_only_on_interrupt_witness :
  ∃ r, analyze Sample.cfg Session.db_interrupted 0 Sample.events_table = Some r ∧
    outcome r = Exited 4 ∧ last (events r) = Some EvCleanup.
Proof.
  eexists. split; [vm_compute; reflexivity|]. split; [reflexivity|].
  apply (analyze_exits_only_on_interrupt Sample.cfg Session.db_interrupted 0
           Sample.events_table _ 4); reflexivity.
Defined.

(** ** Running a plan *)

Lemma executed_sql_debug_comment (cfg : Config) (s : string) :
  executed_sql (debug_comment cfg s) = [].
Proof. unfold debug_comment. destruct (debug cfg); reflexivity. Qed.







Lemma all_done_take_S (db : Database) (n i : nat) (c : string) (commands : list string) :
  all_done db n (take (S i) (c :: commands)) →
  (∃ statusmessage rows, db n c = ExecDone statusmessage rows) ∧
  all_done db (S n) (take i commands).
Proof. intros H. by apply all_done_cons. Qed.

(** X6.  A KeyboardInterrupt during a statement of the plan is not handled
    by [run_commands]: the statements before it were sent, nothing is
    rolled back, and the statements after it are not sent. *)
Theorem run_commands_interrupt_propagates (cfg : Config) (db : Database)
    (commands : list string) :
  ∀ (n i : nat) (c : string),
    commands !! i = Some c →
    all_done db n (take i commands) →
    db (n + i)%nat c = ExecInterrupted →
    outcome (run_commands cfg db n commands) = Interrupted ∧
    executed (run_commands cfg db n commands) = (n + i + 1)%nat ∧
    executed_sql (events (run_commands cfg db n commands)) = take (S i) commands ∧
    rollbacks (events (run_commands cfg db n commands)) = 0%nat.
Proof.
  induction commands as [|c0 commands IH]; intros n i c Hc Hpre Hint; [discriminate|].
  destruct i as [|i].
  - injection Hc as ->. rewrite Nat.add_0_r in Hint. simpl. rewrite Hint.
    simpl. repeat split; try reflexivity. unfold executed. simpl. lia.
  - simpl in Hc. apply all_done_take_S in Hpre. destruct Hpre as [(sm & rows & Hdb) Hrest].
    destruct (IH (S n) i c Hc Hrest) as (Hout & Hexe & Hsql & Hroll).
    { replace (S n + i)%nat with (n + S i)%nat by lia. exact Hint. }
    cbn [run_commands]. rewrite Hdb.
    rewrite outcome_after, executed_after, events_after.
    split; [exact Hout|]. split; [rewrite Hexe; lia|].
    split.
    + simpl. rewrite Hsql. reflexivity.
    + simpl. exact Hroll.
Qed.

Lemma run_commands_interrupt_propagates_witness :
  outcome (run_commands Sample.cfg Session.db_up_interrupted 0 Sample.events_plan)
  = Interrupted ∧
  executed (run_commands Sample.cfg Session.db_up_interrupted 0 Sample.events_plan)
  = 2%nat ∧
  executed_sql (events (run_commands Sample.cfg Session.db_up_interrupted 0
                          Sample.events_plan))
  = take 2 Sample.events_plan ∧
  rollbacks (events (run_commands Sample.cfg Session.db_up_interrupted 0
                       Sample.events_plan)) = 0%nat.
Proof.
  apply (run_commands_interrupt_propagates Sample.cfg Session.db_up_interrupted
           Sample.events_plan 0 1 (insert_stmt Sample.cfg (PyStr "events"))).
  - reflexivity.
  - intros i c Hc. destruct i as [|i]; [|discriminate]. simpl. eauto.
  - reflexivity.
Defined.






(** ** The plan for a table *)

(** [plan_is_built] for the table [events]. *)
Lemma plan_is_built_witness :
  ∃ statements,
    synthesize Sample.cfg (PyStr "events") Sample.events_descr Sample.events_output
    = Ok (Some statements).
Proof.
  apply (plan_is_built Sample.cfg "events" Sample.events_descr Sample.events_output
           Session.events_columns 2).
  - repeat constructor; simpl; eauto.
  - split.
    + intros c Hc Hkey. simpl in Hc.
      destruct Hc as [<-|[<-|[<-|[]]]]; simpl in *; split; eauto; lia.
    + intros k Hk. destruct k as [|[|[|k]]]; try lia.
      * eexists. split; [right; left; reflexivity | reflexivity].
      * eexists. split; [left; reflexivity | reflexivity].
  - right. eexists. split; [left; reflexivity | reflexivity].
Defined.

(** The loop over [range(1, len(sortkeys)+1)] raises KeyError as soon as
    a position is not a key of the dictionary. *)
Lemma sortkey_loop_KeyError (keys : gmap Z PyVal) (len : nat) :
  ∀ (a : nat) (acc : string),
    (∀ k v, keys !! k = Some v → ∃ s, v = PyStr s) →
    ¬ (∀ i, (a ≤ i < a + len)%nat → is_Some (keys !! Z.of_nat i)) →
    sortkey_loop keys (seq a len) acc = Raise KeyError.
Proof.
  induction len as [|len IH]; intros a acc Hstr Hgap.
  - exfalso. apply Hgap. intros i Hi. lia.
  - cbn [seq sortkey_loop]. unfold sortkey_step.
    destruct (keys !! Z.of_nat a) as [col|] eqn:Ha; [|reflexivity].
    destruct (Hstr _ _ Ha) as [s ->]. cbn [py_concat bind].
    apply IH; [exact Hstr|]. intros Hall. apply Hgap. intros i Hi.
    destruct (decide (i = a)) as [->|Hne]; [rewrite Ha; eauto|].
    apply Hall. lia.
Qed.

(** X10.  When the sort-key positions of the columns leave a gap below a
    position that is in use, [sortkeys[i]] raises KeyError at the gap and
    no plan is built. *)
Theorem sortkey_gap_raises (cfg : Config) (table_name : PyVal)
    (descr output : list Row) (cs : list Column) (c : Column) (k : Z) :
  Forall2 (reads descr) output cs →
  (force cfg = true ∨ ∃ c, In c cs ∧ py_ne (c_recommended c) (PyStr "raw") = true) →
  (∀ c, In c cs → c_sortkey c ≠ 0 → ∃ s, c_name c = PyStr s) →
  In c cs →
  1 ≤ k < Z.abs (c_sortkey c) →
  (∀ c', In c' cs → Z.abs (c_sortkey c') ≠ k) →
  synthesize cfg table_name descr output = Raise KeyError.
Proof.
  intros Hcs Htrig Hnames Hc Hk Hgap.
  unfold synthesize. rewrite (scan_rows_of_reads _ _ _ _ Hcs). cbn [bind].
  set (st := fold_left scan_step cs scan_init).
  assert (found_non_raw st || force cfg = true) as ->.
  { apply orb_true_iff. destruct Htrig as [Hf|Hne]; [by right|].
    left. apply fold_found_non_raw. by right. }
  assert (Hstr : ∀ k v, sortkeys st !! k = Some v → ∃ s, v = PyStr s).
  { intros k' v Hv. apply fold_sortkeys_lookup in Hv.
    destruct Hv as [Hv|(c' & Hin & Hkey & _ & <-)]; [cbn [sortkeys scan_init] in Hv; by rewrite lookup_empty in Hv|].
    by apply Hnames. }
  assert (Hnone : sortkeys st !! k = None).
  { destruct (sortkeys st !! k) as [v|] eqn:Hv; [|reflexivity].
    apply fold_sortkeys_lookup in Hv.
    destruct Hv as [Hv|(c' & Hin & _ & Habs & _)]; [cbn [sortkeys scan_init] in Hv; by rewrite lookup_empty in Hv|].
    by apply Hgap in Hin. }
  assert (Hsome : is_Some (sortkeys st !! Z.abs (c_sortkey c))).
  { apply fold_sortkeys_present; [exact Hc | lia]. }
  assert (Hsize : (0 < size (sortkeys st))%nat).
  { destruct (size (sortkeys st)) eqn:Hz; [|lia].
    apply map_size_empty_inv in Hz. rewrite Hz, lookup_empty in Hsome.
    by destruct Hsome. }
  unfold plan_stmts, create_table_stmt.
  apply Nat.ltb_lt in Hsize. rewrite Hsize. unfold sortkey_clause.
  rewrite sortkey_loop_KeyError; [reflexivity | exact Hstr |].
  intros Hall.
  assert (Hrange : 1 ≤ Z.abs (c_sortkey c) ≤ Z.of_nat (size (sortkeys st))).
  { apply keys_one_to_size; [|exact Hsome]. intros i Hi.
    replace (Z.of_nat i + 1) with (Z.of_nat (S i)) by lia. apply Hall. lia. }
  destruct (Hall (Z.to_nat k)) as [v Hv]; [lia|].
  rewrite Z2Nat.id in Hv by lia. congruence.
Qed.

Lemma sortkey_gap_raises_witness :
  synthesize Sample.cfg (PyStr "t") Session.gap_descr Session.gap_output = Raise KeyError.
Proof.
  apply (sortkey_gap_raises Sample.cfg (PyStr "t") Session.gap_descr Session.gap_output
           Session.gap_columns
           {| c_name := PyStr "b"; c_recommended := PyStr "lzo"; c_type := "integer";
              c_distkey := PyBool false; c_sortkey := 3; c_notnull := PyBool false |} 2).
  - repeat constructor; simpl; eauto.
  - right. eexists. split; [left; reflexivity | reflexivity].
  - intros c Hc _. simpl in Hc. destruct Hc as [<-|[<-|[]]]; simpl; eauto.
  - right. left. reflexivity.
  - simpl. lia.
  - intros c' Hc. simpl in Hc. destruct Hc as [<-|[<-|[]]]; simpl; lia.
Defined.

Lemma scan_rows_app (descr pre post : list Row) :
  ∀ st, scan_rows descr (pre ++ post) st
        = bind (scan_rows descr pre st) (scan_rows descr post).
Proof.
  induction pre as [|row pre IH]; intros st; simpl; [reflexivity|].
  destruct (scan_row descr row st) as [st'|e]; simpl; [apply IH | reflexivity].
Qed.

(** No row of the description is a row for [column_name]. *)
Lemma get_table_attribute_absent (descr : list Row) (column_name : PyVal) (index : nat) :
  Forall (λ item, ∃ name, item !! 0%nat = Some name ∧ py_eq name column_name = false)
    descr →
  get_table_attribute descr column_name index = Ok PyNone.
Proof.
  induction 1 as [|item descr (name & Hname & Hne) _ IH]; simpl; [reflexivity|].
  unfold py_index. rewrite Hname. simpl. rewrite Hne. exact IH.
Qed.

(** X11.  When the analyzer reports a column that the table description
    does not have (an empty description included), the type of the column
    is None and [col_type.replace] raises AttributeError: no plan is
    built. *)
Theorem column_missing_from_description (cfg : Config) (table_name : PyVal)
    (descr pre : list Row) (row : Row) (post : list Row) (cs : list Column)
    (col recommended : PyVal) :
  Forall2 (reads descr) pre cs →
  row !! 1%nat = Some col →
  row !! 2%nat = Some recommended →
  Forall (λ item, ∃ name, item !! 0%nat = Some name ∧ py_eq name col = false) descr →
  synthesize cfg table_name descr (pre ++ row :: post) = Raise AttributeError.
Proof.
  intros Hpre Hcol Hrec Habsent. unfold synthesize.
  rewrite scan_rows_app, (scan_rows_of_reads _ _ _ _ Hpre). cbn [bind scan_rows].
  unfold scan_row, py_index. rewrite Hcol, Hrec. cbn [bind].
  rewrite (get_table_attribute_absent descr col 1 Habsent). reflexivity.
Qed.

Lemma column_missing_from_description_witness :
  synthesize Sample.cfg (PyStr "events") Sample.events_descr
    (Sample.events_output ++ Session.ghost_row :: [])
  = Raise AttributeError.
Proof.
  apply (column_missing_from_description Sample.cfg (PyStr "events") Sample.events_descr
           Sample.events_output Session.ghost_row [] Session.events_columns
           (PyStr "ghost") (PyStr "lzo")).
  - repeat constructor; simpl; eauto.
  - reflexivity.
  - reflexivity.
  - repeat constructor; eexists; (split; [reflexivity|reflexivity]).
Defined.




(** X13.  The table that is created is never the table that is analysed:
    in the schema of the original it has another name. *)
Theorem staging_table_is_not_the_source (cfg : Config) (table_name : PyVal) :
  (target_schema cfg, target_table cfg table_name)
  ≠ (analyze_schema cfg, py_str table_name).
Proof.
  intros [= Hschema Htable]. unfold target_table in Htable.
  rewrite Hschema, String.eqb_refl in Htable.
  rewrite <- (append_nil_r (py_str table_name)) in Htable at 2.
  apply append_cancel_l in Htable. discriminate.
Qed.

(** X14.  The test of line 293 is the truth value of the catalog's
    [distkey]: the comparison of its upper-cased text with 'TRUE' adds
    nothing, since a value that reads TRUE is true.  In particular every
    non-empty string, 'false' included, makes the column the DISTKEY. *)
Theorem distkey_is_truth_value (distkey : PyVal) :
  distkey_clause distkey = if py_truthy distkey then "DISTKEY" else "".
Proof.
  unfold distkey_clause. destruct (py_truthy distkey) eqn:Htruth; [reflexivity|].
  destruct distkey as [|b|z|s|l]; simpl in Htruth.
  - reflexivity.
  - rewrite Htruth. reflexivity.
  - apply negb_false_iff, Z.eqb_eq in Htruth. subst z. reflexivity.
  - apply negb_false_iff, String.eqb_eq in Htruth. subst s. reflexivity.
  - destruct l; [reflexivity|discriminate].
Qed.

Lemma filter_at_most_one {A : Type} (f : A → bool) (l : list A) (x y : A) :
  (length (List.filter f l) ≤ 1)%nat →
  In x l → f x = true → In y l → f y = true → x = y.
Proof.
  intros Hlen Hx Hfx Hy Hfy.
  assert (Hx' : In x (List.filter f l)) by (apply filter_In; auto).
  assert (Hy' : In y (List.filter f l)) by (apply filter_In; auto).
  destruct (List.filter f l) as [|z [|z' rest]]; simpl in *; try lia; try tauto.
  destruct Hx' as [<-|[]], Hy' as [<-|[]]. reflexivity.
Qed.

(** X15.  In a table description that names each column once,
    [get_table_attribute] returns the cell of the row of the column,
    wherever the row is. *)
Theorem get_table_attribute_unique (descr : list Row) (item : Row)
    (column_name : PyVal) (index : nat) :
  unique_columns descr →
  In item descr →
  item_matches column_name item = true →
  get_table_attribute descr column_name index = py_index item index.
Proof.
  intros [Hrows Hunique] Hin Hmatch.
  rewrite (get_table_attribute_find _ _ _ Hrows).
  destruct (List.find (item_matches column_name) descr) as [item'|] eqn:Hfind.
  - apply List.find_some in Hfind. destruct Hfind as [Hin' Hmatch'].
    by rewrite (filter_at_most_one _ _ _ _ (Hunique column_name) Hin' Hmatch' Hin Hmatch).
  - apply (List.find_none _ _ Hfind) in Hin. congruence.
Qed.

Lemma get_table_attribute_unique_witness :
  get_table_attribute Sample.events_descr (PyStr "id") 4 = Ok (PyInt 1).
Proof.
  apply (get_table_attribute_unique Sample.events_descr
           [PyStr "id"; PyStr "integer"; PyStr "none"; PyBool true; PyInt 1; PyBool true]
           (PyStr "id") 4).
  - exact events_descr_unique.
  - right. right. left. reflexivity.
  - reflexivity.
Defined.

(** ** The options of main *)

Section Options.

Variable int_of_str : string → option Z.

(** Case analysis on the option that [parse_option] handles. *)
Ltac option_cases :=
  unfold parse_option, usage, set_number; cbn [fst snd];
  repeat match goal with
         | |- context [String.eqb ?a ?b] => destruct (String.eqb_spec a b); try subst
         | |- context [int_of_str ?v] => destruct (int_of_str v)
         end;
  cbn [negb]; try discriminate.

(** The four values without which [main] stops come from the options. *)
Lemma parse_option_required (g g' : Globals) (arg value : string) :
  parse_option int_of_str g (arg, value) = Continue g' →
  (∀ v, g_db g' = Some v → g_db g = Some v ∨ (v ≠ "" ∧ (arg, value) = ("--db", v))) ∧
  (∀ v, g_db_user g' = Some v →
     g_db_user g = Some v ∨ (v ≠ "" ∧ (arg, value) = ("--db-user", v))) ∧
  (∀ v, g_db_host g' = Some v →
     g_db_host g = Some v ∨ (v ≠ "" ∧ (arg, value) = ("--db-host", v))) ∧
  (∀ v, g_output_file g' = Some v →
     g_output_file g = Some v ∨ (v ≠ "" ∧ (arg, value) = ("--output-file", v))).
Proof.
  option_cases; intros [= <-]; cbn; repeat split; auto; intros v [= <-]; right; auto.
Qed.

Lemma parse_options_required (optlist : list (string * string)) :
  ∀ g g', parse_options int_of_str g optlist = Continue g' →
    (∀ v, g_db g' = Some v → g_db g = Some v ∨ (v ≠ "" ∧ In ("--db", v) optlist)) ∧
    (∀ v, g_db_user g' = Some v →
       g_db_user g = Some v ∨ (v ≠ "" ∧ In ("--db-user", v) optlist)) ∧
    (∀ v, g_db_host g' = Some v →
       g_db_host g = Some v ∨ (v ≠ "" ∧ In ("--db-host", v) optlist)) ∧
    (∀ v, g_output_file g' = Some v →
       g_output_file g = Some v ∨ (v ≠ "" ∧ In ("--output-file", v) optlist)).
Proof.
  induction optlist as [|[arg value] rest IH]; intros g g'; cbn [parse_options].
  - intros [= <-]. repeat split; auto.
  - destruct (parse_option int_of_str g (arg, value)) as [g1|e] eqn:Hopt; [|discriminate].
    intros Hrest. destruct (IH _ _ Hrest) as (I1 & I2 & I3 & I4).
    destruct (parse_option_required _ _ _ _ Hopt) as (O1 & O2 & O3 & O4).
    repeat split; intros v Hv.
    + destruct (I1 v Hv) as [H1|[? ?]]; [|right; split; [auto | by right]].
      destruct (O1 v H1) as [?|[? ->]]; [by left | right; split; [auto | by left]].
    + destruct (I2 v Hv) as [H1|[? ?]]; [|right; split; [auto | by right]].
      destruct (O2 v H1) as [?|[? ->]]; [by left | right; split; [auto | by left]].
    + destruct (I3 v Hv) as [H1|[? ?]]; [|right; split; [auto | by right]].
      destruct (O3 v H1) as [?|[? ->]]; [by left | right; split; [auto | by left]].
    + destruct (I4 v Hv) as [H1|[? ?]]; [|right; split; [auto | by right]].
      destruct (O4 v H1) as [?|[? ->]]; [by left | right; split; [auto | by left]].
Qed.

(** What [settle] leaves as it is. *)
Lemma settle_keeps (g g' : Globals) :
  settle g = Continue g' →
  g_db g' = g_db g ∧ g_db_user g' = g_db_user g ∧ g_db_host g' = g_db_host g ∧
  g_output_file g' = g_output_file g ∧ g_analyze_schema g' = g_analyze_schema g ∧
  g_debug g' = g_debug g ∧ g_do_execute g' = g_do_execute g ∧
  g_ignore_errors g' = g_ignore_errors g ∧ g_force g' = g_force g ∧
  g_drop_old_data g' = g_drop_old_data g ∧
  is_Some (g_db g) ∧ is_Some (g_db_user g) ∧ is_Some (g_db_host g) ∧
  is_Some (g_output_file g).
Proof.
  unfold settle, usage.
  destruct (g_db g) eqn:E1, (g_db_user g) eqn:E2, (g_db_host g) eqn:E3,
    (g_output_file g) eqn:E4;
    cbn [orb]; rewrite ?orb_true_r; try discriminate.
  destruct (py_eq (g_db_port g) PyNone); [discriminate|]. cbn [orb].
  intros [= <-].
  destruct (g_target_schema g); cbn; destruct (g_analyze_table g); cbn;
    rewrite ?E1, ?E2, ?E3, ?E4; repeat split; eauto.
Qed.

(** X16.  [main] gets past the options only when [--db], [--db-user],
    [--db-host] and [--output-file] were given, and the values it goes on
    with are non-empty values of these options. *)
Theorem main_needs_the_connection_options (optlist : list (string * string))
    (g : Globals) :
  prepare int_of_str optlist = Continue g →
  (∃ v, g_db g = Some v ∧ v ≠ "" ∧ In ("--db", v) optlist) ∧
  (∃ v, g_db_user g = Some v ∧ v ≠ "" ∧ In ("--db-user", v) optlist) ∧
  (∃ v, g_db_host g = Some v ∧ v ≠ "" ∧ In ("--db-host", v) optlist) ∧
  (∃ v, g_output_file g = Some v ∧ v ≠ "" ∧ In ("--output-file", v) optlist).
Proof.
  unfold prepare.
  destruct (parse_options int_of_str initial_globals optlist) as [g0|e] eqn:Hparse;
    [|discriminate].
  intros Hsettle.
  destruct (settle_keeps _ _ Hsettle)
    as (-> & -> & -> & -> & _ & _ & _ & _ & _ & _ & [a Ha] & [b Hb] & [c Hc] & [d Hd]).
  destruct (parse_options_required _ _ _ Hparse) as (I1 & I2 & I3 & I4).
  repeat split.
  - exists a. destruct (I1 a Ha) as [?|[? ?]]; [discriminate | auto].
  - exists b. destruct (I2 b Hb) as [?|[? ?]]; [discriminate | auto].
  - exists c. destruct (I3 c Hc) as [?|[? ?]]; [discriminate | auto].
  - exists d. destruct (I4 d Hd) as [?|[? ?]]; [discriminate | auto].
Qed.

(** The boolean options: the one that is named takes the value of the
    test, the others stay. *)
Lemma parse_option_flags (g g' : Globals) (arg value : string) :
  parse_option int_of_str g (arg, value) = Continue g' →
  g_debug g' = (if String.eqb arg "--debug" then flag_value value else g_debug g) ∧
  g_do_execute g'
  = (if String.eqb arg "--do-execute" then flag_value value else g_do_execute g) ∧
  g_ignore_errors g'
  = (if String.eqb arg "--ignore-errors" then flag_value value else g_ignore_errors g) ∧
  g_force g' = (if String.eqb arg "--force" then flag_value value else g_force g) ∧
  g_drop_old_data g'
  = (if String.eqb arg "--drop-old-data" then flag_value value else g_drop_old_data g).
Proof.
  option_cases; intros [= <-]; cbn; repeat split; reflexivity.
Qed.

Lemma last_value_cons (arg a value : string) (rest : list (string * string)) (d : bool) :
  match last_value arg ((a, value) :: rest) with
  | Some v => flag_value v
  | None => d
  end
  = match last_value arg rest with
    | Some v => flag_value v
    | None => if String.eqb a arg then flag_value value else d
    end.
Proof.
  cbn [last_value fst snd]. destruct (last_value arg rest); [reflexivity|].
  destruct (String.eqb a arg); reflexivity.
Qed.

Lemma parse_options_flags (optlist : list (string * string)) :
  ∀ g g', parse_options int_of_str g optlist = Continue g' →
    g_debug g'
    = match last_value "--debug" optlist with
      | Some v => flag_value v | None => g_debug g end ∧
    g_do_execute g'
    = match last_value "--do-execute" optlist with
      | Some v => flag_value v | None => g_do_execute g end ∧
    g_ignore_errors g'
    = match last_value "--ignore-errors" optlist with
      | Some v => flag_value v | None => g_ignore_errors g end ∧
    g_force g'
    = match last_value "--force" optlist with
      | Some v => flag_value v | None => g_force g end ∧
    g_drop_old_data g'
    = match last_value "--drop-old-data" optlist with
      | Some v => flag_value v | None => g_drop_old_data g end.
Proof.
  induction optlist as [|[arg value] rest IH]; intros g g'; cbn [parse_options].
  - intros [= <-]. repeat split; reflexivity.
  - destruct (parse_option int_of_str g (arg, value)) as [g1|e] eqn:Hopt; [|discriminate].
    intros Hrest. destruct (IH _ _ Hrest) as (I1 & I2 & I3 & I4 & I5).
    destruct (parse_option_flags _ _ _ _ Hopt) as (O1 & O2 & O3 & O4 & O5).
    rewrite !last_value_cons, I1, I2, I3, I4, I5, O1, O2, O3, O4, O5.
    repeat split; reflexivity.
Qed.

(** X17.  Each of the five boolean options is on exactly when the last
    occurrence of the option has the value 'true' or 'True'; any other
    value, and an option that is not given, leave it off. *)
Theorem flags_follow_the_last_occurrence (optlist : list (string * string))
    (g : Globals) :
  prepare int_of_str optlist = Continue g →
  g_debug g = flag_of optlist "--debug" ∧
  g_do_execute g = flag_of optlist "--do-execute" ∧
  g_ignore_errors g = flag_of optlist "--ignore-errors" ∧
  g_force g = flag_of optlist "--force" ∧
  g_drop_old_data g = flag_of optlist "--drop-old-data".
Proof.
  unfold prepare.
  destruct (parse_options int_of_str initial_globals optlist) as [g0|e] eqn:Hparse;
    [|discriminate].
  intros Hsettle.
  destruct (settle_keeps _ _ Hsettle)
    as (_ & _ & _ & _ & _ & -> & -> & -> & -> & -> & _).
  exact (parse_options_flags _ _ _ Hparse).
Qed.

(** The single table, once named, stays named. *)
Lemma parse_option_table (g g' : Globals) (arg value : string) :
  parse_option int_of_str g (arg, value) = Continue g' →
  (is_Some (g_analyze_table g) → is_Some (g_analyze_table g')) ∧
  (arg = "--analyze-table" → value ≠ "" → is_Some (g_analyze_table g')).
Proof.
  option_cases; intros [= <-]; cbn; split; eauto; try congruence; intros [= _]; congruence.
Qed.

Lemma parse_options_table (optlist : list (string * string)) :
  ∀ g g', parse_options int_of_str g optlist = Continue g' →
    is_Some (g_analyze_table g) ∨ (∃ v, In ("--analyze-table", v) optlist ∧ v ≠ "") →
    is_Some (g_analyze_table g').
Proof.
  induction optlist as [|[arg value] rest IH]; intros g g'; cbn [parse_options].
  - intros [= <-] [H|(v & [] & _)]. exact H.
  - destruct (parse_option int_of_str g (arg, value)) as [g1|e] eqn:Hopt; [|discriminate].
    intros Hrest Hgiven. destruct (parse_option_table _ _ _ _ Hopt) as [Hkeep Hset].
    apply (IH _ _ Hrest).
    destruct Hgiven as [H|(v & [[= -> ->]|Hin] & Hv)]; [left | left | right]; eauto.
Qed.

(** X18.  When a single table is named by [--analyze-table], the pool has
    one process, whatever [--threads] says. *)
Theorem single_table_runs_on_one_thread (optlist : list (string * string))
    (g : Globals) (table : string) :
  prepare int_of_str optlist = Continue g →
  In ("--analyze-table", table) optlist →
  table ≠ "" →
  g_threads g = 1 ∧ is_Some (g_analyze_table g).
Proof.
  unfold prepare.
  destruct (parse_options int_of_str initial_globals optlist) as [g0|e] eqn:Hparse;
    [|discriminate].
  intros Hsettle Hin Htable.
  destruct (parse_options_table _ _ _ Hparse) as [t Ht]; [right; eauto|].
  revert Hsettle. unfold settle, usage.
  destruct (_ || _); [discriminate|]. intros [= <-].
  destruct (g_target_schema g0); cbn; rewrite Ht; cbn; rewrite ?Ht; eauto.
Qed.

Lemma parse_option_target (g g' : Globals) (arg value : string) :
  parse_option int_of_str g (arg, value) = Continue g' →
  (arg = "--target-schema" → value = "") →
  g_target_schema g' = g_target_schema g.
Proof.
  option_cases; intros [= <-] Hno; cbn; try reflexivity.
  exfalso. auto.
Qed.

Lemma parse_options_target (optlist : list (string * string)) :
  ∀ g g', parse_options int_of_str g optlist = Continue g' →
    (∀ v, In ("--target-schema", v) optlist → v = "") →
    g_target_schema g' = g_target_schema g.
Proof.
  induction optlist as [|[arg value] rest IH]; intros g g'; cbn [parse_options].
  - intros [= <-] _. reflexivity.
  - destruct (parse_option int_of_str g (arg, value)) as [g1|e] eqn:Hopt; [|discriminate].
    intros Hrest Hno. rewrite (IH _ _ Hrest) by (intros v Hv; apply Hno; by right).
    apply (parse_option_target _ _ _ _ Hopt).
    intros ->. apply Hno. by left.
Qed.

(** X19.  When no target schema is given, the tables are created in the
    schema that is analysed, so every plan swaps the tables in place: it
    has six statements, the fourth renames or drops the original and the
    fifth renames the new table to the name of the original. *)
Theorem default_target_swaps_in_place (optlist : list (string * string)) (g : Globals)
    (pid : Z) (table_name : PyVal) (descr output : list Row) (statements : list string) :
  prepare int_of_str optlist = Continue g →
  (∀ v, In ("--target-schema", v) optlist → v = "") →
  synthesize (config_of g pid) table_name descr output = Ok (Some statements) →
  g_target_schema g = Some (g_analyze_schema g) ∧
  ∃ create out,
    statements
    = [create; insert_stmt (config_of g pid) table_name;
       analyze_stmt (config_of g pid) table_name; out;
       rename_stmt (config_of g pid) table_name; commit_stmt] ∧
    is_rename_or_drop (config_of g pid) table_name out = true.
Proof.
  unfold prepare.
  destruct (parse_options int_of_str initial_globals optlist) as [g0|e] eqn:Hparse;
    [|discriminate].
  intros Hsettle Hno Hplan.
  pose proof (parse_options_target _ _ _ Hparse Hno) as Htarget.
  cbn in Htarget.
  assert (Hg : g_target_schema g = Some (g_analyze_schema g)).
  { revert Hsettle. unfold settle, usage.
    destruct (_ || _); [discriminate|]. intros [= <-].
    rewrite Htarget. cbn. destruct (g_analyze_table g0); reflexivity. }
  split; [exact Hg|].
  destruct (synthesize_Some _ _ _ _ _ Hplan)
    as (cs & st & create & swap & _ & _ & _ & _ & _ & Hswap & ->).
  destruct (swap_stmts_Ok _ _ _ Hswap) as [(_ & out & -> & Hout)|[Hne _]].
  - exists create, out. split; [reflexivity|]. unfold is_rename_or_drop.
    destruct Hout as [[_ ->]|[_ Hold]].
    + by rewrite String.eqb_refl.
    + rewrite Hold, String.eqb_refl. apply orb_true_r.
  - exfalso. apply Hne. unfold config_of. cbn. rewrite Hg. reflexivity.
Qed.

(** What [parse_option] requires of a number. *)
Lemma parse_option_number (g g' : Globals) (arg value : string) :
  parse_option int_of_str g (arg, value) = Continue g' →
  (arg = "--slot-count" ∨ arg = "--comprows" ∨ (arg = "--threads" ∧ value ≠ "")) →
  is_Some (int_of_str value).
Proof.
  option_cases; intros _ [H|[H|[H Hv]]]; try discriminate; try congruence; eauto.
Qed.

(** X20.  [main] gets past the options only when every value of
    [--slot-count] and [--comprows] reads as a number, the empty value
    included; an empty value of [--threads] is passed over. *)
Theorem numbers_must_read_as_numbers (optlist : list (string * string)) (g : Globals)
    (arg value : string) :
  prepare int_of_str optlist = Continue g →
  In (arg, value) optlist →
  (arg = "--slot-count" ∨ arg = "--comprows" ∨ (arg = "--threads" ∧ value ≠ "")) →
  is_Some (int_of_str value).
Proof.
  unfold prepare.
  destruct (parse_options int_of_str initial_globals optlist) as [g0|e] eqn:Hparse;
    [|discriminate].
  intros _. revert Hparse. generalize initial_globals. clear g.
  induction optlist as [|[a v] rest IH]; intros g; cbn [parse_options]; [intros _ []|].
  destruct (parse_option int_of_str g (a, v)) as [g1|e] eqn:Hopt; [|discriminate].
  intros Hrest [[= -> ->]|Hin] Harg.
  - exact (parse_option_number _ _ _ _ Hopt Harg).
  - exact (IH _ Hrest Hin Harg).
Qed.

(** The options end [main] through [usage()] or with an exception. *)
Lemma parse_option_stop (g : Globals) (arg value : string) (e : MainEnd) :
  parse_option int_of_str g (arg, value) = Stop e →
  e = MainExit INVALID_ARGS ∨ ∃ err, e = MainRaises err.
Proof.
  option_cases; intros [= <-]; eauto.
Qed.

Lemma prepare_stop (optlist : list (string * string)) (e : MainEnd) :
  prepare int_of_str optlist = Stop e →
  e = MainExit INVALID_ARGS ∨ ∃ err, e = MainRaises err.
Proof.
  unfold prepare.
  destruct (parse_options int_of_str initial_globals optlist) as [g0|e0] eqn:Hparse.
  - unfold settle, usage. destruct (_ || _); [|discriminate].
    intros [= <-]. by left.
  - intros [= <-]. revert Hparse. generalize initial_globals.
    induction optlist as [|[a v] rest IH]; intros g; cbn [parse_options]; [discriminate|].
    destruct (parse_option int_of_str g (a, v)) as [g1|e1] eqn:Hopt.
    + apply IH.
    + intros [= <-]. exact (parse_option_stop _ _ _ _ Hopt).
Qed.

End Options.

Lemma main_needs_the_connection_options_witness :
  (∃ v, g_db Session.globals_events = Some v ∧ v ≠ "" ∧
        In ("--db", v) Session.optlist_events) ∧
  (∃ v, g_db_user Session.globals_events = Some v ∧ v ≠ "" ∧
        In ("--db-user", v) Session.optlist_events) ∧
  (∃ v, g_db_host Session.globals_events = Some v ∧ v ≠ "" ∧
        In ("--db-host", v) Session.optlist_events) ∧
  (∃ v, g_output_file Session.globals_events = Some v ∧ v ≠ "" ∧
        In ("--output-file", v) Session.optlist_events).
Proof.
  exact (main_needs_the_connection_options Session.int_of_digits Session.optlist_events
           Session.globals_events eq_refl).
Defined.

Lemma numbers_must_read_as_numbers_witness : is_Some (Session.int_of_digits "8").
Proof.
  apply (numbers_must_read_as_numbers Session.int_of_digits Session.optlist_events
           Session.globals_events "--threads" "8").
  - reflexivity.
  - vm_compute. tauto.
  - right. right. split; [reflexivity | discriminate].
Defined.

Lemma flags_follow_the_last_occurrence_witness :
  g_debug Session.globals_events = true ∧
  g_do_execute Session.globals_events = false ∧
  g_ignore_errors Session.globals_events = false ∧
  g_force Session.globals_events = false ∧
  g_drop_old_data Session.globals_events = false.
Proof.
  exact (flags_follow_the_last_occurrence Session.int_of_digits Session.optlist_events Session.globals_events
           eq_refl).
Defined.

Lemma single_table_runs_on_one_thread_witness :
  g_threads Session.globals_events = 1 ∧ is_Some (g_analyze_table Session.globals_events).
Proof.
  apply (single_table_runs_on_one_thread Session.int_of_digits Session.optlist_events Session.globals_events
           "events").
  - reflexivity.
  - vm_compute. tauto.
  - discriminate.
Defined.

Lemma default_target_swaps_in_place_witness :
  g_target_schema Session.globals_events = Some (g_analyze_schema Session.globals_events) ∧
  ∃ create out,
    Sample.events_plan
    = [create; insert_stmt (config_of Session.globals_events 4711) (PyStr "events");
       analyze_stmt (config_of Session.globals_events 4711) (PyStr "events"); out;
       rename_stmt (config_of Session.globals_events 4711) (PyStr "events");
       commit_stmt] ∧
    is_rename_or_drop (config_of Session.globals_events 4711) (PyStr "events") out = true.
Proof.
  apply (default_target_swaps_in_place Session.int_of_digits Session.optlist_events Session.globals_events 4711
           (PyStr "events") Sample.events_descr Sample.events_output Sample.events_plan).
  - reflexivity.
  - intros v Hin. vm_compute in Hin. repeat destruct Hin as [Hin|Hin]; try discriminate.
    contradiction.
  - reflexivity.
Defined.

(** ** get_conn and the ends of main *)

Section Connection.

Variable re_match : string → string → bool.
Variable int_of_str : string → option Z.

(** X21.  A connection that [get_conn] returned is cached: the next call in
    the same process returns it without a statement, without an output,
    and without regard to the server. *)
Theorem get_conn_reuses_the_connection (g : Globals) (pid : Z) (srv srv' : Server)
    (db_connections db_connections' : gmap string nat) (conn : nat) (evs : list Event) :
  get_conn re_match g pid srv db_connections = (GotConn conn, db_connections', evs) →
  get_conn re_match g pid srv' db_connections' = (GotConn conn, db_connections', []).
Proof.
  unfold get_conn at 1.
  destruct (db_connections !! str_of_int pid) as [c|] eqn:Hcached.
  - intros [= <- <- <-]. unfold get_conn. rewrite Hcached. reflexivity.
  - assert (Hnew : ∀ c cache, get_conn re_match g pid srv' (<[str_of_int pid := c]> cache)
                              = (GotConn c, <[str_of_int pid := c]> cache, [])).
    { intros c cache. unfold get_conn. rewrite lookup_insert_eq. reflexivity. }
    destruct (connect srv) as [c|]; [|discriminate].
    destruct (setup srv 0 _); try discriminate.
    unfold set_timeout_and_cache.
    destruct (negb _).
    + destruct (setup srv 1 _); try discriminate.
      destruct (setup srv 2 _); try discriminate.
      intros [= <- <- <-]. apply Hnew.
    + destruct (setup srv 1 _); try discriminate.
      intros [= <- <- <-]. apply Hnew.
Qed.

(** X22.  A new connection is returned only after its settings were made,
    in this order: the search path, the slot count when it is not 1, and
    the statement timeout.  It is the connection the server gave, and it
    is cached under the process id; the other entries of the cache stay. *)
Theorem get_conn_settings_in_order (g : Globals) (pid : Z) (srv : Server)
    (db_connections db_connections' : gmap string nat) (conn : nat) (evs : list Event) :
  db_connections !! str_of_int pid = None →
  get_conn re_match g pid srv db_connections = (GotConn conn, db_connections', evs) →
  connect srv = Some conn ∧
  db_connections' = <[str_of_int pid := conn]> db_connections ∧
  executed_sql evs
  = (search_path_statement g
       :: (if g_query_slot_count g =? 1 then [] else [slot_count_statement g])
       ++ [timeout_statement])%list.
Proof.
  intros Hnone. unfold get_conn. rewrite Hnone.
  destruct (connect srv) as [c|]; [|discriminate].
  destruct (setup srv 0 _); try discriminate.
  unfold set_timeout_and_cache.
  destruct (g_query_slot_count g =? 1); cbn [negb].
  - destruct (setup srv 1 _); try discriminate.
    intros [= <- <- <-]. split; [reflexivity|]. split; [reflexivity|].
    rewrite !executed_sql_app, !executed_sql_debug_comment. reflexivity.
  - destruct (setup srv 1 _); try discriminate.
    destruct (setup srv 2 _); try discriminate.
    intros [= <- <- <-]. split; [reflexivity|]. split; [reflexivity|].
    rewrite !executed_sql_app, !executed_sql_debug_comment. reflexivity.
Qed.



(** X24.  No run of [main] ends with the status OK or NO_WORK: it exits
    with INVALID_ARGS, NO_CONNECTION, TERMINATED_BY_USER or ERROR, or an
    exception ends it. *)
Theorem main_never_exits_ok (optlist : option (list (string * string))) (env : MainEnv) :
  (main_end re_match int_of_str optlist env = MainExit INVALID_ARGS ∨
   main_end re_match int_of_str optlist env = MainExit NO_CONNECTION ∨
   main_end re_match int_of_str optlist env = MainExit TERMINATED_BY_USER ∨
   main_end re_match int_of_str optlist env = MainExit ERROR ∨
   ∃ err, main_end re_match int_of_str optlist env = MainRaises err) ∧
  main_end re_match int_of_str optlist env ≠ MainExit OK ∧
  main_end re_match int_of_str optlist env ≠ MainExit NO_WORK.
Proof.
  assert (Hend : ∀ e,
            (e = MainExit INVALID_ARGS ∨ e = MainExit NO_CONNECTION ∨
             e = MainExit TERMINATED_BY_USER ∨ e = MainExit ERROR ∨
             ∃ err, e = MainRaises err) →
            e ≠ MainExit OK ∧ e ≠ MainExit NO_WORK).
  { intros e [->|[->|[->|[->|[err ->]]]]]; split; discriminate. }
  assert (Hcases : main_end re_match int_of_str optlist env = MainExit INVALID_ARGS ∨
            main_end re_match int_of_str optlist env = MainExit NO_CONNECTION ∨
            main_end re_match int_of_str optlist env = MainExit TERMINATED_BY_USER ∨
            main_end re_match int_of_str optlist env = MainExit ERROR ∨
            ∃ err, main_end re_match int_of_str optlist env = MainRaises err).
  { unfold main_end. destruct optlist as [l|]; [|by left].
    destruct (prepare int_of_str l) as [g|e] eqn:Hprep.
    - destruct (negb (output_opens env)); [eauto 6|].
      destruct (fst (fst (get_conn re_match g (main_pid env) (server env) ∅)));
        [|eauto 6|eauto 6].
      destruct (_ && _); [eauto 6|].
      destruct (candidates env) as [statusmessage analyze_tables| |]; [|eauto 6|eauto 6].
      destruct (pool_starts env); [|eauto 6].
      destruct (pool env); cbn; eauto 6.
    - destruct (prepare_stop _ _ _ Hprep) as [->|[err ->]]; eauto 6. }
  split; [exact Hcases|]. apply Hend, Hcases.
Qed.


End Connection.

Lemma get_conn_reuses_the_connection_witness :
  get_conn Session.re_match_nothing Session.globals_events 4711 Session.server_no_schema
    (<[str_of_int 4711 := 7%nat]> ∅)
  = (GotConn 7, <[str_of_int 4711 := 7%nat]> ∅, []).
Proof.
  apply (get_conn_reuses_the_connection Session.re_match_nothing Session.globals_events
           4711 Session.server_up Session.server_no_schema ∅
           (<[str_of_int 4711 := 7%nat]> ∅) 7
           (snd (get_conn Session.re_match_nothing Session.globals_events 4711
                   Session.server_up ∅))).
  unfold get_conn. rewrite lookup_empty. reflexivity.
Defined.

Lemma get_conn_settings_in_order_witness :
  connect Session.server_up = Some 7%nat ∧
  fst (fst (get_conn Session.re_match_nothing Session.globals_events 4711
              Session.server_up ∅))
  = GotConn 7 ∧
  executed_sql (snd (get_conn Session.re_match_nothing Session.globals_events 4711
                       Session.server_up ∅))
  = ["set search_path = '$user',public,public, public";
     "set statement_timeout = '1200000'"].
Proof.
  destruct (get_conn_settings_in_order Session.re_match_nothing Session.globals_events
              4711 Session.server_up ∅ (<[str_of_int 4711 := 7%nat]> ∅) 7
              (snd (get_conn Session.re_match_nothing Session.globals_events 4711
                      Session.server_up ∅)))
    as (Hconn & _ & Hsql).
  - apply lookup_empty.
  - unfold get_conn. rewrite lookup_empty. reflexivity.
  - split; [exact Hconn|]. split; [unfold get_conn; rewrite lookup_empty; reflexivity|].
    exact Hsql.
Defined.

